(** * OpenSBI [lib/utils/fdt/fdt_helper.c]: device-tree fixups and parsers

    A shallow embedding of the helper routines that OpenSBI builds on top of
    libfdt, and the properties of them that the specification states.

    Layout of the development:
    - machine integers and the big-endian cell codec ([fdt32_to_cpu]);
    - [Module Libfdt]: the flattened device tree and the libfdt calls the
      helper uses;
    - the platform collaborator ([sbi_platform]) and the console formatter;
    - the routines of [fdt_helper.c], in explicit state-passing style over a
      [world] (the blob and the log of mutating libfdt calls);
    - the theorems on the statements of the specification;
    - further properties of whole runs of the routines. *)

From Stdlib Require Import ZArith List String Ascii Lia Bool Sorted.
From Stdlib Require DecimalString HexadecimalString HexadecimalPos
  HexadecimalFacts.
From coqutil Require Import Byte Word.LittleEndianList.
Import ListNotations.

Local Open Scope string_scope.
Local Open Scope Z_scope.

(* ================================================================= *)
(** ** Machine integers *)

(** [unsigned long] is as wide as the hart's registers. *)
Inductive xlen : Type := RV32 | RV64.

Definition BITS_PER_LONG (x : xlen) : Z :=
  match x with RV32 => 32 | RV64 => 64 end.

(** Conversion to an unsigned type of [w] bits. *)
Definition wrap (w : Z) (z : Z) : Z := z mod 2 ^ w.

Definition u32 (z : Z) : Z := wrap 32 z.
Definition u64 (z : Z) : Z := wrap 64 z.
Definition ulong (x : xlen) (z : Z) : Z := wrap (BITS_PER_LONG x) z.

(** Conversion to [int] (two's complement, 32 bits). *)
Definition int32 (z : Z) : Z :=
  let r := wrap 32 z in if r <? 2 ^ 31 then r else r - 2 ^ 32.

(* ================================================================= *)
(** ** Cells

    A property value is a byte string.  The helper reads and writes it
    through [fdt32_t *] pointers: a load or store of a 32-bit object in hart
    memory (little-endian), converted with [fdt32_to_cpu] / [cpu_to_fdt32]. *)

(** [cells[k]] for [cells] pointing at the first byte of [mem].  Bytes past
    the end of [mem] are outside the modelled memory and read as zero. *)
Definition load_u32 (mem : list byte) (k : nat) : Z :=
  le_combine (firstn 4 (skipn (4 * k) mem)).

(** [cells[k] = x].  The helper only stores inside the property it was
    handed (see [store_u32_length]). *)
Definition store_u32 (mem : list byte) (k : nat) (x : Z) : list byte :=
  firstn (4 * k) mem ++ le_split 4 x ++ skipn (4 * k + 4) mem.

(** Modelled from the spec: libfdt_env.h is not under src/.  "Cell: one
    32-bit big-endian unit": the [n]-th byte of the object [x] as it lies in
    memory, and the four of them combined most significant first. *)
Definition EXTRACT_BYTE (x : Z) (n : nat) : Z :=
  byte.unsigned (nth n (le_split 4 x) Byte.x00).

Definition CPU_TO_FDT32 (x : Z) : Z :=
  Z.lor (Z.lor (Z.lor (Z.shiftl (EXTRACT_BYTE x 0) 24)
                      (Z.shiftl (EXTRACT_BYTE x 1) 16))
               (Z.shiftl (EXTRACT_BYTE x 2) 8))
        (EXTRACT_BYTE x 3).

Definition fdt32_to_cpu (x : Z) : Z := CPU_TO_FDT32 x.
Definition cpu_to_fdt32 (x : Z) : Z := CPU_TO_FDT32 x.

(** The bytes a list of [fdt32_t] objects occupies in memory. *)
Definition bytes_of_cells (cells : list Z) : list byte :=
  flat_map (le_split 4) cells.

(* ================================================================= *)
(** ** Constants of headers that are not under src/ *)

(** Modelled from the spec: sbi/riscv_encoding.h is not under src/.  The
    permission flags "distinguish active from inactive and carry independent
    read/write/execute bits"; the values are those of the RISC-V privileged
    architecture ([pmpcfg]: R, W, X in bits 0..2, the address-matching mode A
    in bits 3..4, OFF = 0). *)
Definition PMP_R : Z := 0x01.
Definition PMP_W : Z := 0x02.
Definition PMP_X : Z := 0x04.
Definition PMP_A : Z := 0x18.

(** Modelled from the spec: the number of entries of the protection-region
    table ([PMP_COUNT] of sbi/riscv_encoding.h, not under src/). *)
Definition PMP_COUNT : nat := 16.

(** Modelled from the spec: the "machine-mode external interrupt" cause
    ([IRQ_M_EXT] of sbi/riscv_encoding.h, not under src/). *)
Definition IRQ_M_EXT : Z := 11.

(** Modelled from the spec: the "no such device" failure code
    ([SBI_ENODEV] of sbi/sbi_error.h, not under src/); a negative [int]. *)
Definition SBI_ENODEV : Z := -5.

(* ================================================================= *)
(** ** The flattened device tree and libfdt *)

Module Libfdt.

(** Modelled from the spec: libfdt (lib/utils/libfdt) is not under src/; the
    specification treats it as an external collaborator and lists the
    operations it offers (section 6).  The blob is "a flattened,
    self-describing tree of named nodes and typed byte-string properties":
    its structure block is the sequence of tags of the well-known binary
    layout, here one [token] per tag.  A node is identified by "an opaque
    offset/handle": the position of its [FDT_BEGIN_NODE] tag in the
    structure block, the root being at offset 0. *)
Inductive token : Type :=
| FDT_BEGIN_NODE (name : string)
| FDT_END_NODE
| FDT_PROP (name : string) (val : list byte)
| FDT_NOP.

(** Modelled from the spec: the blob is "size-prefixed" ([fdt_totalsize] is
    its capacity); the closing [FDT_END] tag of the structure block is
    implicit, and the strings block holds the NUL-terminated property
    names. *)
Record fdt : Type := mk_fdt {
  fdt_magic : Z;
  fdt_totalsize : Z;
  fdt_rsvmap_size : Z;
  dt_struct : list token;
  dt_strings : string
}.

Definition set_totalsize (b : fdt) (n : Z) : fdt :=
  mk_fdt (fdt_magic b) n (fdt_rsvmap_size b) (dt_struct b) (dt_strings b).

Definition set_struct (b : fdt) (ts : list token) : fdt :=
  mk_fdt (fdt_magic b) (fdt_totalsize b) (fdt_rsvmap_size b) ts (dt_strings b).

Definition set_strings (b : fdt) (s : string) : fdt :=
  mk_fdt (fdt_magic b) (fdt_totalsize b) (fdt_rsvmap_size b) (dt_struct b) s.

(** Modelled from the spec: the failure codes of libfdt.h (not under src/),
    returned negated. *)
Definition FDT_ERR_NOTFOUND : Z := 1.
Definition FDT_ERR_EXISTS : Z := 2.
Definition FDT_ERR_NOSPACE : Z := 3.
Definition FDT_ERR_BADOFFSET : Z := 4.
Definition FDT_ERR_BADPATH : Z := 5.
Definition FDT_ERR_BADMAGIC : Z := 9.
Definition FDT_ERR_BADNCELLS : Z := 14.

Definition FDT_MAGIC : Z := 0xd00dfeed.
Definition FDT_MAX_NCELLS : Z := 4.

Definition NUL : string := String (Ascii.ascii_of_nat 0) EmptyString.

Definition FDT_TAGALIGN (n : Z) : Z := (n + 3) / 4 * 4.

Definition strlen (s : string) : Z := Z.of_nat (String.length s).
Definition blen (v : list byte) : Z := Z.of_nat (List.length v).

(** *** Sizes: how much of the capacity the blob uses *)

Definition token_size (t : token) : Z :=
  match t with
  | FDT_BEGIN_NODE n => 4 + FDT_TAGALIGN (strlen n + 1)
  | FDT_END_NODE => 4
  | FDT_PROP _ v => 12 + FDT_TAGALIGN (blen v)
  | FDT_NOP => 4
  end.

Definition fdt_size_dt_struct (b : fdt) : Z :=
  fold_right (fun t acc => token_size t + acc) 4 (dt_struct b).

(** Header (40 bytes), memory reservation block, structure, strings. *)
Definition fdt_data_size_ (b : fdt) : Z :=
  40 + fdt_rsvmap_size b + fdt_size_dt_struct b + strlen (dt_strings b).

Definition probe (b : fdt) : bool := fdt_magic b =? FDT_MAGIC.

(** *** Reading *)

(** The name of the node at [off], if [off] is a node offset. *)
Definition node_at (b : fdt) (off : Z) : option string :=
  if off <? 0 then None
  else match nth_error (dt_struct b) (Z.to_nat off) with
       | Some (FDT_BEGIN_NODE n) => Some n
       | _ => None
       end.

(** The properties of a node follow its begin tag; [ts] starts at position
    [idx] of the structure block. *)
Fixpoint find_prop (name : string) (ts : list token) (idx : nat)
  : option (nat * list byte) :=
  match ts with
  | FDT_PROP n v :: ts' =>
      if String.eqb n name then Some (idx, v) else find_prop name ts' (S idx)
  | FDT_NOP :: ts' => find_prop name ts' (S idx)
  | _ => None
  end.

(** Modelled from the spec: "property read (by node + name, returning raw
    bytes and length or not found)".  The result is the pointer to the value
    (the position of the property's tag; [None] is NULL) and what is stored
    in [*lenp]: the length, or the negated failure code. *)
Definition fdt_getprop (b : fdt) (nodeoffset : Z) (name : string)
  : option nat * Z :=
  match node_at b nodeoffset with
  | None => (None, - FDT_ERR_BADOFFSET)
  | Some _ =>
      let p := S (Z.to_nat nodeoffset) in
      match find_prop name (skipn p (dt_struct b)) p with
      | Some (idx, v) => (Some idx, blen v)
      | None => (None, - FDT_ERR_NOTFOUND)
      end
  end.

(** *** What a pointer to a property value points at

    The value, its padding, and then the rest of the blob: the following
    tags, the closing [FDT_END] and the strings block. *)

Definition be32 (z : Z) : list byte := rev (le_split 4 z).

Definition padding (n : nat) : list byte :=
  repeat Byte.x00 (Z.to_nat (FDT_TAGALIGN (Z.of_nat n)) - n).

Fixpoint fdt_find_string_ (strtab : string) (s : string) (pos : Z)
  : option Z :=
  if String.prefix (s ++ NUL) strtab then Some pos
  else match strtab with
       | EmptyString => None
       | String _ rest => fdt_find_string_ rest s (pos + 1)
       end.

Definition nameoff (strtab : string) (s : string) : Z :=
  match fdt_find_string_ strtab s 0 with Some o => o | None => 0 end.

Definition token_bytes (strtab : string) (t : token) : list byte :=
  match t with
  | FDT_BEGIN_NODE n =>
      let nb := list_byte_of_string (n ++ NUL) in
      be32 1 ++ nb ++ padding (List.length nb)
  | FDT_END_NODE => be32 2
  | FDT_PROP n v =>
      be32 3 ++ be32 (blen v) ++ be32 (nameoff strtab n)
           ++ v ++ padding (List.length v)
  | FDT_NOP => be32 4
  end.

Definition prop_mem (b : fdt) (ptr : nat) : list byte :=
  match nth_error (dt_struct b) ptr with
  | Some (FDT_PROP _ v) =>
      v ++ padding (List.length v)
        ++ flat_map (token_bytes (dt_strings b)) (skipn (S ptr) (dt_struct b))
        ++ be32 9 ++ list_byte_of_string (dt_strings b)
  | _ => []
  end.

(** A store to cell [k] of the property value at [ptr].  A store outside the
    value would overwrite the tags that follow it; the helper never issues
    one (its loop is bounded by the property length), and the model leaves
    the blob alone there. *)
Definition prop_store_u32 (b : fdt) (ptr : nat) (k : nat) (x : Z) : fdt :=
  match nth_error (dt_struct b) ptr with
  | Some (FDT_PROP n v) =>
      if (4 * Z.of_nat k + 4 <=? blen v)
      then set_struct b (firstn ptr (dt_struct b)
                           ++ FDT_PROP n (store_u32 v k x)
                           :: skipn (S ptr) (dt_struct b))
      else b
  | _ => b
  end.

(** *** Node lookup *)

Fixpoint has_at (s : string) : bool :=
  match s with
  | EmptyString => false
  | String c r => Ascii.eqb c "@" || has_at r
  end.

(** A node name matches the searched name when equal, or when the searched
    name has no unit address and the node name continues with one. *)
Definition fdt_nodename_eq_ (p s : string) : bool :=
  String.eqb p s || (negb (has_at s) && String.prefix (s ++ "@") p).

(** Children of the node whose begin tag precedes [ts]: [depth] counts the
    nodes opened and not yet closed since. *)
Fixpoint find_subnode (name : string) (ts : list token) (idx depth : nat)
  : option nat :=
  match ts with
  | [] => None
  | FDT_BEGIN_NODE n :: ts' =>
      if Nat.eqb depth 0 && fdt_nodename_eq_ n name then Some idx
      else find_subnode name ts' (S idx) (S depth)
  | FDT_END_NODE :: ts' =>
      match depth with
      | O => None
      | S d => find_subnode name ts' (S idx) d
      end
  | _ :: ts' => find_subnode name ts' (S idx) depth
  end.

Definition fdt_subnode_offset (b : fdt) (parentoffset : Z) (name : string)
  : Z :=
  match node_at b parentoffset with
  | None => - FDT_ERR_BADOFFSET
  | Some _ =>
      let p := S (Z.to_nat parentoffset) in
      match find_subnode name (skipn p (dt_struct b)) p 0 with
      | Some i => Z.of_nat i
      | None => - FDT_ERR_NOTFOUND
      end
  end.

Fixpoint path_components (p cur : string) : list string :=
  match p with
  | EmptyString => if String.eqb cur "" then [] else [cur]
  | String c rest =>
      if Ascii.eqb c "/"
      then (if String.eqb cur "" then [] else [cur]) ++ path_components rest ""
      else path_components rest (cur ++ String c EmptyString)
  end.

(** Modelled from the spec: "path-based node lookup".  Only absolute paths
    (the helper passes no alias). *)
Definition fdt_path_offset (b : fdt) (path : string) : Z :=
  if negb (probe b) then - FDT_ERR_BADMAGIC
  else match path with
       | String "/" _ =>
           fold_left (fun off c => if off <? 0 then off
                                   else fdt_subnode_offset b off c)
                     (path_components path "") 0
       | _ => - FDT_ERR_BADPATH
       end.

(** The begin tags open at position [target]: [stack] holds the offsets of
    the nodes opened and not yet closed before [idx]. *)
Fixpoint parent_scan (ts : list token) (idx target : nat) (stack : list nat)
  : Z :=
  match ts with
  | [] => - FDT_ERR_BADOFFSET
  | t :: ts' =>
      if Nat.eqb idx target then
        match t with
        | FDT_BEGIN_NODE _ =>
            match stack with
            | p :: _ => Z.of_nat p
            | [] => - FDT_ERR_NOTFOUND
            end
        | _ => - FDT_ERR_BADOFFSET
        end
      else
        match t with
        | FDT_BEGIN_NODE _ => parent_scan ts' (S idx) target (idx :: stack)
        | FDT_END_NODE => parent_scan ts' (S idx) target (tl stack)
        | _ => parent_scan ts' (S idx) target stack
        end
  end.

(** Modelled from the spec: the "parent relation is implicit (derivable) but
    read via an explicit lookup"; the root has no parent. *)
Definition fdt_parent_offset (b : fdt) (nodeoffset : Z) : Z :=
  if negb (probe b) then - FDT_ERR_BADMAGIC
  else if nodeoffset <? 0 then - FDT_ERR_BADOFFSET
  else parent_scan (dt_struct b) 0 (Z.to_nat nodeoffset) [].

(** The NUL-terminated entries of a string list. *)
Fixpoint stringlist (bs cur : list byte) : list (list byte) :=
  match bs with
  | [] => []
  | c :: bs' =>
      if Byte.eqb c Byte.x00 then rev cur :: stringlist bs' []
      else stringlist bs' (c :: cur)
  end.

Definition fdt_stringlist_contains (v : list byte) (str : string) : bool :=
  existsb (fun e => String.eqb (string_of_list_byte e) str) (stringlist v []).

Fixpoint find_compatible (compat : string) (ts : list token) (idx : nat)
  : option nat :=
  match ts with
  | [] => None
  | FDT_BEGIN_NODE _ :: ts' =>
      match find_prop "compatible" ts' (S idx) with
      | Some (_, v) =>
          if fdt_stringlist_contains v compat then Some idx
          else find_compatible compat ts' (S idx)
      | None => find_compatible compat ts' (S idx)
      end
  | _ :: ts' => find_compatible compat ts' (S idx)
  end.

(** Modelled from the spec: "first-match node lookup by compatibility
    string", among the nodes after [startoffset] (a negative [startoffset]
    starts at the root). *)
Definition fdt_node_offset_by_compatible (b : fdt) (startoffset : Z)
  (compatible : string) : Z :=
  if negb (probe b) then - FDT_ERR_BADMAGIC
  else
    let from :=
      if startoffset <? 0 then Some O
      else match node_at b startoffset with
           | Some _ => Some (S (Z.to_nat startoffset))
           | None => None
           end in
    match from with
    | None => - FDT_ERR_BADOFFSET
    | Some p =>
        match find_compatible compatible (skipn p (dt_struct b)) p with
        | Some i => Z.of_nat i
        | None => - FDT_ERR_NOTFOUND
        end
    end.

(** Modelled from the spec: "address-cell/size-cell count lookup for a
    node"; "default: 2 and 1 respectively if unspecified".  A declaration
    that is not one cell, or is above [FDT_MAX_NCELLS], or declares no
    address cell, is refused. *)
Definition fdt_cells (b : fdt) (nodeoffset : Z) (name : string) : Z :=
  match fdt_getprop b nodeoffset name with
  | (None, len) => len
  | (Some c, len) =>
      if negb (len =? 4) then - FDT_ERR_BADNCELLS
      else
        let val := fdt32_to_cpu (load_u32 (prop_mem b c) 0) in
        if val >? FDT_MAX_NCELLS then - FDT_ERR_BADNCELLS else val
  end.

Definition fdt_address_cells (b : fdt) (nodeoffset : Z) : Z :=
  let val := fdt_cells b nodeoffset "#address-cells" in
  if val =? 0 then - FDT_ERR_BADNCELLS
  else if val =? - FDT_ERR_NOTFOUND then 2
  else val.

Definition fdt_size_cells (b : fdt) (nodeoffset : Z) : Z :=
  let val := fdt_cells b nodeoffset "#size-cells" in
  if val =? - FDT_ERR_NOTFOUND then 1 else val.

(** *** Writing *)

(** Modelled from the spec: "open/resize-in-place of the blob given a target
    total size". *)
Definition fdt_open_into (b : fdt) (bufsize : Z) : Z * fdt :=
  if negb (probe b) then (- FDT_ERR_BADMAGIC, b)
  else if bufsize <? fdt_totalsize b then (- FDT_ERR_NOSPACE, b)
  else (0, set_totalsize b bufsize).

Fixpoint count_props (ts : list token) : nat :=
  match ts with
  | FDT_PROP _ _ :: ts' => S (count_props ts')
  | FDT_NOP :: ts' => S (count_props ts')
  | _ => O
  end.

Definition insert_at {A} (q : nat) (new : list A) (l : list A) : list A :=
  firstn q l ++ new ++ skipn q l.

(** Modelled from the spec: "child-node creation under a parent by name".
    The new node is placed after the parent's properties; a child of that
    name must not exist, and the blob must have room for the two tags and
    the name. *)
Definition fdt_add_subnode (b : fdt) (parentoffset : Z) (name : string)
  : Z * fdt :=
  if negb (probe b) then (- FDT_ERR_BADMAGIC, b)
  else
    let off := fdt_subnode_offset b parentoffset name in
    if 0 <=? off then (- FDT_ERR_EXISTS, b)
    else if negb (off =? - FDT_ERR_NOTFOUND) then (off, b)
    else
      let p := S (Z.to_nat parentoffset) in
      let q := (p + count_props (skipn p (dt_struct b)))%nat in
      let nodelen := 4 + FDT_TAGALIGN (strlen name + 1) + 4 in
      if fdt_totalsize b <? fdt_data_size_ b + nodelen
      then (- FDT_ERR_NOSPACE, b)
      else (Z.of_nat q,
            set_struct b
              (insert_at q [FDT_BEGIN_NODE name; FDT_END_NODE] (dt_struct b))).

(** Modelled from the spec: "property write of a raw byte string".  An
    existing property is resized in place; a new one is placed first in the
    node and its name is added to the strings block unless already there.
    The write is refused, and the blob left as it is, when [nodeoffset] is
    not a node or the blob has no room. *)
Definition fdt_setprop (b : fdt) (nodeoffset : Z) (name : string)
  (val : list byte) : Z * fdt :=
  if negb (probe b) then (- FDT_ERR_BADMAGIC, b)
  else
    match node_at b nodeoffset with
    | None => (- FDT_ERR_BADOFFSET, b)
    | Some _ =>
        let p := S (Z.to_nat nodeoffset) in
        match find_prop name (skipn p (dt_struct b)) p with
        | Some (idx, old) =>
            let delta := FDT_TAGALIGN (blen val) - FDT_TAGALIGN (blen old) in
            if fdt_totalsize b <? fdt_data_size_ b + delta
            then (- FDT_ERR_NOSPACE, b)
            else (0, set_struct b (firstn idx (dt_struct b)
                                     ++ FDT_PROP name val
                                     :: skipn (S idx) (dt_struct b)))
        | None =>
            let known := fdt_find_string_ (dt_strings b) name 0 in
            let slen := match known with
                        | Some _ => 0
                        | None => strlen name + 1
                        end in
            let proplen := 12 + FDT_TAGALIGN (blen val) in
            if fdt_totalsize b <? fdt_data_size_ b + slen + proplen
            then (- FDT_ERR_NOSPACE, b)
            else
              let strs := match known with
                          | Some _ => dt_strings b
                          | None => dt_strings b ++ name ++ NUL
                          end in
              (0, set_strings
                    (set_struct b
                       (insert_at p [FDT_PROP name val] (dt_struct b)))
                    strs)
        end
    end.

End Libfdt.

Import Libfdt.

(* ================================================================= *)
(** ** The world the helper runs in *)

(** The mutating libfdt calls, as the helper issues them. *)
Inductive fdt_call : Type :=
| Call_open_into (bufsize : Z)
| Call_add_subnode (parentoffset : Z) (name : string)
| Call_setprop (nodeoffset : Z) (name : string) (val : list byte).

(** The blob behind [void *fdt], and the calls issued so far (oldest
    first). *)
Record world : Type := mk_world {
  blob : fdt;
  calls : list fdt_call
}.

(** The calls as the helper issues them: each is the libfdt operation on the
    blob, recorded in the log. *)
Module Call.

Definition issue (w : world) (c : fdt_call) (r : Z * fdt) : Z * world :=
  (fst r, mk_world (snd r) (calls w ++ [c])).

Definition fdt_open_into (w : world) (bufsize : Z) : Z * world :=
  issue w (Call_open_into bufsize) (Libfdt.fdt_open_into (blob w) bufsize).

Definition fdt_add_subnode (w : world) (parentoffset : Z) (name : string)
  : Z * world :=
  issue w (Call_add_subnode parentoffset name)
        (Libfdt.fdt_add_subnode (blob w) parentoffset name).

(** [fdt_setprop(fdt, nodeoffset, name, val, len)]: [mem] is the memory at
    [val].  libfdt copies [len] bytes of it; a negative [len] is outside the
    model (libfdt does not guard against it), and no theorem below relies on
    that case. *)
Definition fdt_setprop (w : world) (nodeoffset : Z) (name : string)
  (mem : list byte) (len : Z) : Z * world :=
  let val := firstn (Z.to_nat len) mem in
  issue w (Call_setprop nodeoffset name val)
        (Libfdt.fdt_setprop (blob w) nodeoffset name val).

(** Modelled from the spec: "property write of ... an empty marker, or a
    32-bit scalar"; the inline wrappers of libfdt.h around [fdt_setprop]. *)
Definition fdt_setprop_empty (w : world) (nodeoffset : Z) (name : string)
  : Z * world :=
  fdt_setprop w nodeoffset name [] 0.

Definition fdt_setprop_u32 (w : world) (nodeoffset : Z) (name : string)
  (val : Z) : Z * world :=
  fdt_setprop w nodeoffset name (bytes_of_cells [cpu_to_fdt32 (u32 val)]) 4.

Definition fdt_setprop_string (w : world) (nodeoffset : Z)
  (name str : string) : Z * world :=
  fdt_setprop w nodeoffset name (list_byte_of_string (str ++ NUL))
              (strlen str + 1).

End Call.

(* ================================================================= *)
(** ** The platform collaborator and the console formatter *)

(** Modelled from the spec: "total hart count; per-index hart validity
    predicate; whether memory protection is enabled; an enumerable table of
    protection regions with (permission flags, address, size)".  The table is
    what [pmp_get(i, &prot, &addr, &size)] stores in its three results. *)
Record sbi_platform : Type := mk_platform {
  sbi_platform_hart_count : Z;
  sbi_platform_hart_invalid : Z -> bool;
  sbi_platform_has_pmp : bool;
  pmp_get : nat -> Z * Z * Z
}.

(** Modelled from the spec: sbi_console.c is not under src/.  The
    conversions the helper uses: [%d] (decimal, "no leading zeros") and [%x]
    (lower-case hexadecimal); [sbi_snprintf] keeps at most [size - 1]
    characters. *)
Definition fmt_d (z : Z) : string :=
  DecimalString.NilZero.string_of_int (Z.to_int z).

Definition fmt_x (z : Z) : string :=
  HexadecimalString.NilZero.string_of_uint (N.to_hex_uint (Z.to_N z)).

Definition sbi_snprintf (size : nat) (s : string) : string :=
  String.substring 0 (size - 1) s.

(* ================================================================= *)
(** ** fdt_helper.c *)

(** The size handed to [fdt_open_into] at lines 25 and 102:
    [fdt_totalsize(fdt) + extra], a sum of [uint32_t], received as the
    [int bufsize]. *)
Definition open_size (b : fdt) (extra : Z) : Z :=
  int32 (u32 (fdt_totalsize b + extra)).

(** *** [fdt_cpu_fixup] (lines 16-40) *)

(** One turn of the loop of lines 30-39. *)
Definition cpu_fixup_hart (plat : sbi_platform) (w : world) (i : Z) : world :=
  let cpu_node := "/cpus/cpu@" ++ fmt_d (int32 i) in
  let cpu_offset := fdt_path_offset (blob w) cpu_node in
  if sbi_platform_hart_invalid plat i
  then snd (Call.fdt_setprop_string w cpu_offset "status" "disabled")
  else w.

(** The indices [0 .. n-1] of a [for (i = 0; i < n; i++)] loop. *)
Definition upto (n : Z) : list Z := map Z.of_nat (seq 0 (Z.to_nat n)).

Definition fdt_cpu_fixup (plat : sbi_platform) (w : world) : world :=
  let '(err, w) := Call.fdt_open_into w (open_size (blob w) 32) in
  if err <? 0 then w
  else fold_left (cpu_fixup_hart plat)
                 (upto (sbi_platform_hart_count plat)) w.

(** *** [fdt_plic_fixup] (lines 42-65) *)

(** One turn of the loop of lines 61-64, [cells] being the pointer that
    [fdt_getprop] returned. *)
Definition plic_fixup_pair (cells : nat) (w : world) (i : nat) : world :=
  let k := (2 * i + 1)%nat in
  if fdt32_to_cpu (load_u32 (prop_mem (blob w) cells) k) =? IRQ_M_EXT
  then mk_world (prop_store_u32 (blob w) cells k (cpu_to_fdt32 0xffffffff))
                (calls w)
  else w.

Definition fdt_plic_fixup (w : world) (compat : string) : world :=
  let plic_off := fdt_node_offset_by_compatible (blob w) 0 compat in
  if plic_off <? 0 then w
  else
    match fdt_getprop (blob w) plic_off "interrupts-extended" with
    | (None, _) => w
    | (Some cells, cells_count) =>
        let cells_count := cells_count / 4 in
        if cells_count =? 0 then w
        else fold_left (plic_fixup_pair cells)
                       (seq 0 (Z.to_nat (cells_count / 2))) w
    end.

(** *** [fdt_reserved_memory_fixup] (lines 82-194) *)

(** Lines 175-182: the cells staged in [reg[]] through [*val++ = ...].
    [reg] is the memory at the array (indeterminate on entry); the result is
    that memory after the stores, and [val - reg]. *)
Definition stage_reg (na ns : Z) (addr_high addr_low size_high size_low : Z)
  (reg : list byte) : list byte * nat :=
  let val := O in
  let '(reg, val) :=
    if na >? 1 then (store_u32 reg val (cpu_to_fdt32 addr_high), S val)
    else (reg, val) in
  let '(reg, val) := (store_u32 reg val (cpu_to_fdt32 addr_low), S val) in
  let '(reg, val) :=
    if ns >? 1 then (store_u32 reg val (cpu_to_fdt32 size_high), S val)
    else (reg, val) in
  let '(reg, val) := (store_u32 reg val (cpu_to_fdt32 size_low), S val) in
  (reg, val).

(** The length handed to [fdt_setprop]: [(na + ns) * sizeof(fdt32_t)],
    received as an [int]. *)
Definition reg_len (na ns : Z) : Z := int32 ((na + ns) * 4).

(** Lines 153-160. *)
Definition pmp_node_name (na : Z) (j : Z) (addr_high addr_low : Z) : string :=
  if (na >? 1) && negb (addr_high =? 0)
  then sbi_snprintf 32 ("mmode_pmp" ++ fmt_d j ++ "@" ++ fmt_x addr_high
                                    ++ "," ++ fmt_x addr_low)
  else sbi_snprintf 32 ("mmode_pmp" ++ fmt_d j ++ "@" ++ fmt_x addr_low).

(** The loop of lines 143-191 over the indices [idx] still to visit; [frame]
    is the memory at [reg[]] on entry. *)
Fixpoint pmp_loop (plat : sbi_platform) (frame : list byte)
  (na ns parent : Z) (idx : list nat) (j : Z) (w : world) : Z * world :=
  match idx with
  | [] => (0, w)
  | i :: rest =>
      let '(prot, addr, size) := pmp_get plat i in
      if Z.land prot PMP_A =? 0 then
        pmp_loop plat frame na ns parent rest j w
      else if Z.land prot (Z.lor (Z.lor PMP_R PMP_W) PMP_X) =? 0 then
        let addr_high := u32 (Z.shiftr (u64 addr) 32) in
        let addr_low := u32 addr in
        let size_high := u32 (Z.shiftr (u64 size) 32) in
        let size_low := u32 size in
        let name := pmp_node_name na j addr_high addr_low in
        let '(subnode, w) := Call.fdt_add_subnode w parent name in
        if subnode <? 0 then (subnode, w)
        else
          let '(err, w) := Call.fdt_setprop_empty w subnode "no-map" in
          if err <? 0 then (err, w)
          else
            let reg :=
              fst (stage_reg na ns addr_high addr_low size_high size_low
                             frame) in
            let '(err, w) :=
              Call.fdt_setprop w subnode "reg" reg (reg_len na ns) in
            if err <? 0 then (err, w)
            else pmp_loop plat frame na ns parent rest (j + 1) w
      else pmp_loop plat frame na ns parent rest j w
  end.

(** Lines 106-132: locate or create [/reserved-memory]. *)
Definition reserved_memory_node (na ns : Z) (w : world) : Z * world :=
  let parent := fdt_path_offset (blob w) "/reserved-memory" in
  if parent <? 0 then
    let '(parent, w) := Call.fdt_add_subnode w 0 "reserved-memory" in
    if parent <? 0 then (parent, w)
    else
      let '(err, w) := Call.fdt_setprop_empty w parent "ranges" in
      if err <? 0 then (err, w)
      else
        let '(err, w) := Call.fdt_setprop_u32 w parent "#size-cells" ns in
        if err <? 0 then (err, w)
        else
          let '(err, w) := Call.fdt_setprop_u32 w parent "#address-cells" na in
          if err <? 0 then (err, w)
          else (parent, w)
  else (parent, w).

Definition fdt_reserved_memory_fixup (plat : sbi_platform)
  (frame : list byte) (w : world) : Z * world :=
  let na := fdt_address_cells (blob w) 0 in
  let ns := fdt_size_cells (blob w) 0 in
  if negb (sbi_platform_has_pmp plat) then (0, w)
  else
    let '(err, w) := Call.fdt_open_into w (open_size (blob w) 256) in
    if err <? 0 then (err, w)
    else
      let '(parent, w) := reserved_memory_node na ns w in
      if parent <? 0 then (parent, w)
      else pmp_loop plat frame na ns parent (seq 0 PMP_COUNT) 0 w.

(** *** [fdt_fixups] (lines 196-201): a [void] function *)

Definition fdt_fixups (plat : sbi_platform) (frame : list byte) (w : world)
  : unit * world :=
  let w := fdt_plic_fixup w "riscv,plic0" in
  let '(_, w) := fdt_reserved_memory_fixup plat frame w in
  (tt, w).

(** *** [fdt_get_node_addr_size] (lines 203-241) *)

(** The loops of lines 228-229 and 235-236: [n] cells read through the
    pointer, which starts at cell [start] of [mem]; [temp] is a
    [uint64_t]. *)
Fixpoint read_cells (mem : list byte) (start n : nat) (temp : Z) : Z :=
  match n with
  | O => temp
  | S n' =>
      read_cells mem (S start) n'
        (Z.lor (u64 (Z.shiftl temp 32)) (fdt32_to_cpu (load_u32 mem start)))
  end.

(** The out parameters [addr] and [size] may be NULL: [want_addr] and
    [want_size] say they are not.  The result is the return value and what
    was stored through each pointer ([None]: nothing was stored). *)
Definition fdt_get_node_addr_size (x : xlen) (w : world) (node : Z)
  (want_addr want_size : bool) : (Z * option Z * option Z) * world :=
  let parent := fdt_parent_offset (blob w) node in
  if parent <? 0 then ((parent, None, None), w)
  else
    let cell_addr := fdt_address_cells (blob w) parent in
    if cell_addr <? 1 then ((SBI_ENODEV, None, None), w)
    else
      let cell_size := fdt_size_cells (blob w) parent in
      if cell_size <? 0 then ((SBI_ENODEV, None, None), w)
      else
        match fdt_getprop (blob w) node "reg" with
        | (None, _) => ((SBI_ENODEV, None, None), w)
        | (Some prop_addr, len) =>
            let mem := prop_mem (blob w) prop_addr in
            let prop_size := Z.to_nat cell_addr in
            let addr :=
              if want_addr
              then Some (ulong x (read_cells mem O (Z.to_nat cell_addr) 0))
              else None in
            let size :=
              if want_size
              then Some (ulong x (read_cells mem prop_size
                                             (Z.to_nat cell_size) 0))
              else None in
            ((0, addr, size), w)
        end.

(** *** The parsers (lines 243-316) *)

Record platform_uart_data : Type := mk_uart {
  uart_addr : Z;
  uart_freq : Z;
  uart_baud : Z
}.

Record platform_plic_data : Type := mk_plic {
  plic_addr : Z;
  plic_num_src : Z
}.

Definition is_zero (o : option Z) : bool :=
  match o with Some v => v =? 0 | None => false end.

Definition stored (o : option Z) (old : Z) : Z :=
  match o with Some v => v | None => old end.

Definition fdt_parse_uart8250 (x : xlen) (w : world)
  (uart : platform_uart_data) (compatible : string)
  : (Z * platform_uart_data) * world :=
  let nodeoffset := fdt_node_offset_by_compatible (blob w) (-1) compatible in
  if nodeoffset <? 0 then ((nodeoffset, uart), w)
  else
    let '((rc, reg_addr, reg_size), w) :=
      fdt_get_node_addr_size x w nodeoffset true true in
    if (rc <? 0) || is_zero reg_addr || is_zero reg_size
    then ((SBI_ENODEV, uart), w)
    else
      let uart := mk_uart (stored reg_addr 0) (uart_freq uart)
                          (uart_baud uart) in
      let uart :=
        match fdt_getprop (blob w) nodeoffset "clock-frequency" with
        | (Some val, len) =>
            if len >? 0
            then mk_uart (uart_addr uart)
                         (fdt32_to_cpu (load_u32 (prop_mem (blob w) val) 0))
                         (uart_baud uart)
            else uart
        | (None, _) => uart
        end in
      let uart :=
        match fdt_getprop (blob w) nodeoffset "current-speed" with
        | (Some val, len) =>
            if len >? 0
            then mk_uart (uart_addr uart) (uart_freq uart)
                         (fdt32_to_cpu (load_u32 (prop_mem (blob w) val) 0))
            else uart
        | (None, _) => uart
        end in
      ((0, uart), w).

Definition fdt_parse_plic (x : xlen) (w : world)
  (plic : platform_plic_data) (compatible : string)
  : (Z * platform_plic_data) * world :=
  let nodeoffset := fdt_node_offset_by_compatible (blob w) (-1) compatible in
  if nodeoffset <? 0 then ((nodeoffset, plic), w)
  else
    let '((rc, reg_addr, reg_size), w) :=
      fdt_get_node_addr_size x w nodeoffset true true in
    if (rc <? 0) || is_zero reg_addr || is_zero reg_size
    then ((SBI_ENODEV, plic), w)
    else
      let plic := mk_plic (stored reg_addr 0) (plic_num_src plic) in
      let plic :=
        match fdt_getprop (blob w) nodeoffset "riscv,ndev" with
        | (Some val, len) =>
            if len >? 0
            then mk_plic (plic_addr plic)
                         (fdt32_to_cpu (load_u32 (prop_mem (blob w) val) 0))
            else plic
        | (None, len) => plic
        end in
      ((0, plic), w).

(** [clint_addr_ptr] says that the pointer [clint_addr] is not NULL; the
    second component of the result is what was stored through it. *)
Definition fdt_parse_clint (x : xlen) (w : world) (clint_addr_ptr : bool)
  (compatible : string) : (Z * option Z) * world :=
  let nodeoffset := fdt_node_offset_by_compatible (blob w) (-1) compatible in
  if nodeoffset <? 0 then ((nodeoffset, None), w)
  else
    let '((rc, clint_addr, _), w) :=
      fdt_get_node_addr_size x w nodeoffset clint_addr_ptr false in
    if (rc <? 0) || negb clint_addr_ptr
    then ((SBI_ENODEV, clint_addr), w)
    else ((0, clint_addr), w).

(* ================================================================= *)
(** ** Vocabulary of the specification *)

(** Cell [k] of the memory at a property pointer, read the way the helper
    reads it: [fdt32_to_cpu(p[k])]. *)
Definition cell_at (mem : list byte) (k : nat) : Z :=
  fdt32_to_cpu (load_u32 mem k).

(** "The big-endian concatenation" of cells, most significant first. *)
Definition be_concat (cs : list Z) : Z :=
  fold_left (fun t c => t * 2 ^ 32 + c) cs 0.

(** Cells [start .. start + n - 1] of [mem]. *)
Definition cells_from (mem : list byte) (start n : nat) : list Z :=
  map (cell_at mem) (seq start n).

(** The high and the low 32 bits of an address or size. *)
Definition hi32 (z : Z) : Z := u32 (Z.shiftr (u64 z) 32).
Definition lo32 (z : Z) : Z := u32 z.

(** The value of the [reg] property of a reserved-memory child: what lines
    148-151 and 176-185 hand to [fdt_setprop], as [Call.fdt_setprop]
    receives it. *)
Definition reg_value (na ns addr size : Z) (frame : list byte) : list byte :=
  firstn (Z.to_nat (reg_len na ns))
         (fst (stage_reg na ns (hi32 addr) (lo32 addr) (hi32 size)
                         (lo32 size) frame)).

(** The cell layout the specification gives for that value: "[address-high
    (only if address-cells==2)], address-low, [size-high (only if
    size-cells==2)], size-low". *)
Definition reg_layout (na ns addr size : Z) : list Z :=
  (if na =? 2 then [hi32 addr] else []) ++ [lo32 addr]
  ++ (if ns =? 2 then [hi32 size] else []) ++ [lo32 size].

(** A protection region "is active" when its address-matching mode is not
    OFF, and grants a permission when the bit of that permission is set. *)
Definition region_active (prot : Z) : bool :=
  Z.testbit prot 3 || Z.testbit prot 4.
Definition grants_read (prot : Z) : bool := Z.testbit prot 0.
Definition grants_write (prot : Z) : bool := Z.testbit prot 1.
Definition grants_exec (prot : Z) : bool := Z.testbit prot 2.

(** "Reserved-memory eligible iff it is active and grants no
    read/write/execute permission". *)
Definition eligible (prot : Z) : bool :=
  region_active prot
  && negb (grants_read prot) && negb (grants_write prot)
  && negb (grants_exec prot).

Definition region_prot (plat : sbi_platform) (i : nat) : Z :=
  fst (fst (pmp_get plat i)).
Definition region_addr (plat : sbi_platform) (i : nat) : Z :=
  snd (fst (pmp_get plat i)).
Definition region_size (plat : sbi_platform) (i : nat) : Z :=
  snd (pmp_get plat i).

(** The eligible entries among the table indices [idx], in table order. *)
Definition eligible_regions (plat : sbi_platform) (idx : list nat)
  : list nat :=
  filter (fun i => eligible (region_prot plat i)) idx.

(** The three calls that emit the child of region [i] as the [j]-th child,
    [subnode] being the offset that the creation returned. *)
Definition child_calls (plat : sbi_platform) (frame : list byte)
  (na ns parent : Z) (j : Z) (i : nat) (subnode : Z) : list fdt_call :=
  [ Call_add_subnode parent
      (pmp_node_name na j (hi32 (region_addr plat i))
                     (lo32 (region_addr plat i)));
    Call_setprop subnode "no-map" [];
    Call_setprop subnode "reg"
      (reg_value na ns (region_addr plat i) (region_size plat i) frame) ].

(** The calls for the regions [regs], numbered from [j], with the offsets
    [subs] of the created children. *)
Fixpoint children_calls (plat : sbi_platform) (frame : list byte)
  (na ns parent : Z) (j : Z) (regs : list nat) (subs : list Z)
  : list fdt_call :=
  match regs, subs with
  | i :: regs', s :: subs' =>
      child_calls plat frame na ns parent j i s
      ++ children_calls plat frame na ns parent (j + 1) regs' subs'
  | _, _ => []
  end.

(** The names given to [fdt_add_subnode] by a sequence of calls. *)
Fixpoint created_names (cs : list fdt_call) : list string :=
  match cs with
  | [] => []
  | Call_add_subnode _ name :: cs' => name :: created_names cs'
  | _ :: cs' => created_names cs'
  end.

(** The child name the specification gives: [mmode_pmp<j>@<low>], or
    [mmode_pmp<j>@<high>,<low>]. *)
Definition short_name (j : Z) (low : Z) : string :=
  "mmode_pmp" ++ fmt_d j ++ "@" ++ fmt_x low.
Definition long_name (j : Z) (high low : Z) : string :=
  "mmode_pmp" ++ fmt_d j ++ "@" ++ fmt_x high ++ "," ++ fmt_x low.

(** The property writes among a sequence of calls that were issued with a
    negative node offset. *)
Fixpoint writes_at_failed_lookup (cs : list fdt_call) : list fdt_call :=
  match cs with
  | [] => []
  | Call_setprop off name v :: cs' =>
      if off <? 0 then Call_setprop off name v :: writes_at_failed_lookup cs'
      else writes_at_failed_lookup cs'
  | _ :: cs' => writes_at_failed_lookup cs'
  end.

(** The value of the [status] property of a disabled CPU node. *)
Definition disabled : list byte := list_byte_of_string ("disabled" ++ NUL).

(** Cell [c] of the interrupt array [v] is one that the interrupt-routing
    fixup rewrites: the second cell of a whole pair, holding the
    machine-external-interrupt number. *)
Definition routed_to_machine (v : list byte) (c : nat) : bool :=
  Nat.odd c && (4 * Z.of_nat c + 4 <=? blen v) && (cell_at v c =? IRQ_M_EXT).

(** The cells that lines 176-182 store through [val], in order. *)
Definition staged_cells (na ns ah al sh sl : Z) : list Z :=
  (if na >? 1 then [ah] else []) ++ [al]
  ++ (if ns >? 1 then [sh] else []) ++ [sl].

(** After [n] stores through [val], the array starts with the [n] cells
    [cs], most significant byte first. *)
Definition staged (v : list byte) (n : nat) (cs : list Z) : Prop :=
  n = List.length cs /\ (4 * n <= List.length v)%nat
  /\ firstn (4 * n) v = flat_map be32 cs.

(** The blob [b] with the value of the property at position [cells]
    replaced by [v]. *)
Definition with_value (b : fdt) (cells : nat) (name : string)
  (v : list byte) : fdt :=
  set_struct b (firstn cells (dt_struct b)
                  ++ FDT_PROP name v :: skipn (S cells) (dt_struct b)).

(** The array [vi] is the interrupt array [v] after the first [i] pairs were
    visited: the same length, and every byte [j] of every cell [c] as in
    [v], except in the rewritten cells among the first [2 * i], where the
    bytes are all ones. *)
Definition rewritten (v : list byte) (i : nat) (vi : list byte) : Prop :=
  List.length vi = List.length v
  /\ forall c j, (j < 4)%nat ->
       nth_error vi (4 * c + j) =
       if routed_to_machine v c && (c <? 2 * i)%nat then Some Byte.xff
       else nth_error v (4 * c + j).

(** The calls that create the [/reserved-memory] container, [parent] being
    the offset that the creation returned. *)
Definition container_calls (na ns parent : Z) : list fdt_call :=
  [ Call_add_subnode 0 "reserved-memory";
    Call_setprop parent "ranges" [];
    Call_setprop parent "#size-cells" (be32 (u32 ns));
    Call_setprop parent "#address-cells" (be32 (u32 na)) ].

(** The name of the [j]-th child, for a region at [addr], as the code forms
    it: the two halves when the root declares more than one address cell and
    the upper half is not zero, the lower half alone otherwise. *)
Definition child_name (na : Z) (j : Z) (addr : Z) : string :=
  if (1 <? na) && negb (hi32 addr =? 0)
  then sbi_snprintf 32 (long_name j (hi32 addr) (lo32 addr))
  else sbi_snprintf 32 (short_name j (lo32 addr)).

(** The name of the [j]-th child in the words of the specification:
    "[mmode_pmp<j>@<addr>] where [<addr>] is the region's address rendered
    in hexadecimal; if the root's address-cell count is 2 and the address's
    upper 32 bits are nonzero, the name instead encodes both halves as
    [mmode_pmp<j>@<high>,<low>]". *)
Definition spec_child_name (na : Z) (j : Z) (addr : Z) : string :=
  if (na =? 2) && negb (hi32 addr =? 0)
  then "mmode_pmp" ++ fmt_d j ++ "@" ++ fmt_x (hi32 addr)
                   ++ "," ++ fmt_x (lo32 addr)
  else "mmode_pmp" ++ fmt_d j ++ "@" ++ fmt_x addr.

(** The names of the children of the regions [regs], numbered from [j]. *)
Fixpoint child_names (plat : sbi_platform) (na : Z) (j : Z)
  (regs : list nat) : list string :=
  match regs with
  | [] => []
  | i :: regs' =>
      child_name na j (region_addr plat i)
      :: child_names plat na (j + 1) regs'
  end.

(** The tokens of the child of region [i], emitted as the [j]-th child. *)
Definition child_tokens (plat : sbi_platform) (frame : list byte)
  (na ns : Z) (j : Z) (i : nat) : list token :=
  [ FDT_BEGIN_NODE (child_name na j (region_addr plat i));
    FDT_PROP "reg"
      (reg_value na ns (region_addr plat i) (region_size plat i) frame);
    FDT_PROP "no-map" [];
    FDT_END_NODE ].

(** The tokens of the children of the regions [regs], numbered from [j], in
    front of the tokens [acc]: each child is placed before those created
    earlier. *)
Fixpoint children_tokens (plat : sbi_platform) (frame : list byte)
  (na ns : Z) (j : Z) (regs : list nat) (acc : list token) : list token :=
  match regs with
  | [] => acc
  | i :: regs' =>
      children_tokens plat frame na ns (j + 1) regs'
        (child_tokens plat frame na ns j i ++ acc)
  end.

(** The tokens of the [/reserved-memory] container the fixup creates. *)
Definition container_tokens (na ns : Z) : list token :=
  [ FDT_BEGIN_NODE "reserved-memory";
    FDT_PROP "#address-cells" (be32 (u32 na));
    FDT_PROP "#size-cells" (be32 (u32 ns));
    FDT_PROP "ranges" [];
    FDT_END_NODE ].

(** Where libfdt places a new child of the node at [parent]: after the
    properties of that node. *)
Definition children_position (ts : list token) (parent : Z) : nat :=
  (S (Z.to_nat parent) + count_props (skipn (S (Z.to_nat parent)) ts))%nat.

Definition is_prop (t : token) : bool :=
  match t with
  | FDT_PROP _ _ | FDT_NOP => true
  | _ => false
  end.

(* ================================================================= *)
(** ** Vocabulary of the properties of whole runs *)

Definition cpu_node_path (i : Z) : string := "/cpus/cpu@" ++ fmt_d (int32 i).

Definition cpu_fixup_upto (plat : sbi_platform) (w0 : world) (i : Z) : world :=
  fold_left (cpu_fixup_hart plat) (upto i) w0.

Definition status_write (plat : sbi_platform) (w0 : world) (i : Z)
  : list fdt_call :=
  if sbi_platform_hart_invalid plat i
  then [Call_setprop
          (fdt_path_offset (blob (cpu_fixup_upto plat w0 i)) (cpu_node_path i))
          "status" disabled]
  else [].

Definition is_status (t : token) : bool :=
  match t with
  | FDT_PROP n _ => String.eqb n "status"
  | _ => false
  end.

Definition other_tokens (ts : list token) : list token :=
  filter (fun t => negb (is_status t)) ts.

(** Where the node at offset [n] is found after a tag was inserted at
    position [p] of the structure block. *)
Definition shift (p : nat) (n : Z) : Z :=
  if n <? Z.of_nat p then n else n + 1.

(** The value of the property [name] of the node at [off], if it has one. *)
Definition node_prop (b : fdt) (off : Z) (name : string)
  : option (list byte) :=
  match node_at b off with
  | None => None
  | Some _ =>
      let p := S (Z.to_nat off) in
      option_map snd (find_prop name (skipn p (dt_struct b)) p)
  end.

(** The number of cells that an [unsigned long] holds. *)
Definition cells_per_long (x : xlen) : nat :=
  match x with RV32 => 1%nat | RV64 => 2%nat end.

(** Of the [n] cells from cell [start] of [mem], the last [keep] (all of
    them when there are fewer). *)
Definition last_cells (mem : list byte) (start n keep : nat) : list Z :=
  cells_from mem (start + (n - keep)) (Nat.min n keep).

(** What the parsers read from an optional one-cell property: the first
    cell of its value (a value shorter than a cell being read with its
    padding), and [old], what the caller's structure held, when the node has
    no such property or an empty one. *)
Definition optional_cell (b : fdt) (node : Z) (name : string) (old : Z) : Z :=
  match node_prop b node name with
  | Some (c :: v) => cell_at ((c :: v) ++ padding (S (List.length v))) 0
  | _ => old
  end.

(** The cells of an address under a bus with [na] address cells. *)
Definition addr_layout (na addr : Z) : list Z :=
  (if na =? 2 then [hi32 addr] else []) ++ [lo32 addr].

(** Two blobs with the same header: magic, capacity and size of the memory
    reservation block. *)
Definition same_header (b b' : fdt) : Prop :=
  fdt_magic b' = fdt_magic b /\ fdt_totalsize b' = fdt_totalsize b
  /\ fdt_rsvmap_size b' = fdt_rsvmap_size b.

(** The nodes that are open after the tags [l], which start at position
    [idx], when the nodes [stack] were open before them (innermost
    first). *)
Fixpoint open_nodes (l : list token) (idx : nat) (stack : list nat)
  : list nat :=
  match l with
  | [] => stack
  | FDT_BEGIN_NODE _ :: l' => open_nodes l' (S idx) (idx :: stack)
  | FDT_END_NODE :: l' => open_nodes l' (S idx) (tl stack)
  | _ :: l' => open_nodes l' (S idx) stack
  end.

(** The number of [status] properties in a structure block. *)
Definition status_count (ts : list token) : nat :=
  List.length (filter is_status ts).

(** Every [status] property of the structure block reads "disabled". *)
Definition all_disabled (ts : list token) : Prop :=
  forall k v, nth_error ts k = Some (FDT_PROP "status" v) -> v = disabled.

(** What the loop keeps, from a blob that has room [fdt_totalsize] and
    [n0] bytes in use before any [status] property was added. *)
Definition room_kept (n0 : Z) (b : fdt) : Prop :=
  all_disabled (dt_struct b)
  /\ n0 + 24 * Z.of_nat (status_count (dt_struct b)) <= fdt_data_size_ b
  /\ fdt_data_size_ b <= fdt_totalsize b.

(* ================================================================= *)
(** ** Example blobs *)

Module Examples.

Definition cells (l : list Z) : list byte := flat_map be32 l.
Definition str (s : string) : list byte := list_byte_of_string (s ++ NUL).

(** The strings block for the property names of [ts]. *)
Fixpoint strings_of (ts : list token) (acc : string) : string :=
  match ts with
  | [] => acc
  | FDT_PROP n _ :: r =>
      strings_of r (match fdt_find_string_ acc n 0 with
                    | Some _ => acc
                    | None => acc ++ n ++ NUL
                    end)
  | _ :: r => strings_of r acc
  end.

(** A blob with structure [ts] and [slack] free bytes. *)
Definition mk_blob (slack : Z) (ts : list token) : fdt :=
  let b := mk_fdt FDT_MAGIC 0 16 ts (strings_of ts "") in
  set_totalsize b (fdt_data_size_ b + slack).

(** The devices of a small board, under a bus with two address and two size
    cells.  The interrupt array of the PLIC has an odd number of cells, the
    last one being 11; [short@3000] has a one-cell [reg]. *)
Definition soc (clint_base : Z) : list token :=
  [ FDT_BEGIN_NODE "soc";
      FDT_PROP "#address-cells" (cells [2]);
      FDT_PROP "#size-cells" (cells [2]);
      FDT_BEGIN_NODE "plic@c000000";
        FDT_PROP "compatible" (str "riscv,plic0");
        FDT_PROP "reg" (cells [0; 0xc000000; 0; 0x4000000]);
        FDT_PROP "interrupts-extended"
                 (cells [1; 11; 1; 9; 2; 11; 2; 9; 11]);
        FDT_PROP "riscv,ndev" (cells [53]);
      FDT_END_NODE;
      FDT_BEGIN_NODE "uart@10000000";
        FDT_PROP "compatible" (str "ns16550a");
        FDT_PROP "reg" (cells [0; 0x10000000; 0; 0x100]);
        FDT_PROP "clock-frequency" (cells [3686400]);
      FDT_END_NODE;
      FDT_BEGIN_NODE "clint";
        FDT_PROP "compatible" (str "riscv,clint0");
        FDT_PROP "reg" (cells [0; clint_base; 0; 0x10000]);
      FDT_END_NODE;
      FDT_BEGIN_NODE "short@3000";
        FDT_PROP "reg" (cells [0x3000]);
      FDT_END_NODE;
    FDT_END_NODE ].

(** A board with two CPU nodes, whose root declares [na] address cells and
    [ns] size cells. *)
Definition board (na ns clint_base : Z) : list token :=
  [ FDT_BEGIN_NODE "";
      FDT_PROP "#address-cells" (cells [na]);
      FDT_PROP "#size-cells" (cells [ns]);
      FDT_BEGIN_NODE "cpus";
        FDT_BEGIN_NODE "cpu@0"; FDT_END_NODE;
        FDT_BEGIN_NODE "cpu@1"; FDT_END_NODE;
      FDT_END_NODE ]
  ++ soc clint_base ++ [ FDT_END_NODE ].

Definition board_world (slack na ns clint_base : Z) : world :=
  mk_world (mk_blob slack (board na ns clint_base)) [].

(** Four harts, of which only hart 0 is valid; region 0 is the firmware
    guard, region 1 is readable, writable and executable, region 2 is a
    guard above 4 GiB, region 3 is a read-only region, the others are
    off. *)
Definition platform : sbi_platform :=
  mk_platform 4 (fun i => negb (i =? 0)) true
    (fun i => match i with
              | 0%nat => (0x18, 0x80000000, 0x200000)
              | 1%nat => (0x1f, 0, 0x80000000)
              | 2%nat => (0x18, 0x180000000, 0x1000)
              | 3%nat => (0x19, 0x20000000, 0x1000)
              | _ => (0, 0, 0)
              end).

(** A platform all of whose regions are guards, at 4 KiB intervals. *)
Definition guarded_platform : sbi_platform :=
  mk_platform 1 (fun _ => false) true
    (fun i => (0x18, 0x80000000 + 0x1000 * Z.of_nat i, 0x1000)).

(** The indeterminate memory at [reg[]]: the array and 16 bytes above. *)
Definition frame : list byte := repeat Byte.xaa 32.

(** The worlds of the examples below: the board with two address and two
    size cells and no free byte, the same board after the reserved-memory
    fixup, a roomy board, and a board whose CLINT is at address 0. *)
Definition w22 : world := board_world 0 2 2 0x2000000.
Definition w22_reserved : world :=
  snd (fdt_reserved_memory_fixup platform frame w22).
Definition w22_roomy : world := board_world 4096 2 2 0x2000000.
Definition w22_clint_at_zero : world := board_world 0 2 2 0.

(** A board whose UART is under a bus that declares no size cell. *)
Definition sizeless_bus : list token :=
  [ FDT_BEGIN_NODE "";
      FDT_BEGIN_NODE "bus";
        FDT_PROP "#address-cells" (cells [1]);
        FDT_PROP "#size-cells" (cells [0]);
        FDT_BEGIN_NODE "uart@10000000";
          FDT_PROP "compatible" (str "ns16550a");
          FDT_PROP "reg" (cells [0x10000000]);
        FDT_END_NODE;
      FDT_END_NODE;
    FDT_END_NODE ].

(** A blob whose root is the UART itself. *)
Definition root_uart : list token :=
  [ FDT_BEGIN_NODE "";
      FDT_PROP "compatible" (str "ns16550a");
      FDT_PROP "reg" (cells [0; 0x10000000; 0; 0x100]);
    FDT_END_NODE ].

Definition w_sizeless_bus : world := mk_world (mk_blob 0 sizeless_bus) [].
Definition w_root_uart : world := mk_world (mk_blob 0 root_uart) [].
Definition w22_guarded : world :=
  snd (fdt_reserved_memory_fixup guarded_platform frame w22).

End Examples.

(* ================================================================= *)
(** ** The cell codec *)

Section Codec.

Lemma le_split_4 (x : Z) :
  le_split 4 x =
  [byte.of_Z x; byte.of_Z (Z.shiftr x 8);
   byte.of_Z (Z.shiftr (Z.shiftr x 8) 8);
   byte.of_Z (Z.shiftr (Z.shiftr (Z.shiftr x 8) 8) 8)].
Proof. reflexivity. Qed.

(** On a little-endian hart the conversion swaps the four bytes. *)
Lemma CPU_TO_FDT32_rev (x : Z) :
  CPU_TO_FDT32 x = le_combine (rev (le_split 4 x)).
Proof.
  unfold CPU_TO_FDT32, EXTRACT_BYTE. rewrite le_split_4.
  cbn [rev app nth]. cbv [le_combine].
  rewrite !Z.shiftl_lor, !Z.shiftl_shiftl by lia.
  rewrite Z.shiftl_0_l, Z.lor_0_r. cbn [Z.add Pos.add Pos.succ].
  generalize (byte.unsigned (byte.of_Z x)) as a.
  generalize (byte.unsigned (byte.of_Z (Z.shiftr x 8))) as b.
  generalize (byte.unsigned (byte.of_Z (Z.shiftr (Z.shiftr x 8) 8))) as c.
  generalize
    (byte.unsigned (byte.of_Z (Z.shiftr (Z.shiftr (Z.shiftr x 8) 8) 8))) as d.
  intros d c b a.
  rewrite (Z.lor_comm d), (Z.lor_comm (Z.shiftl c 8)),
    (Z.lor_comm (Z.shiftl b 16)).
  reflexivity.
Qed.

Lemma length_be32 (x : Z) : List.length (be32 x) = 4%nat.
Proof. unfold be32. rewrite length_rev. apply length_le_split. Qed.

Lemma le_split_le_combine_4 (bs : list byte) :
  List.length bs = 4%nat -> le_split 4 (le_combine bs) = bs.
Proof. intros H. rewrite <- H. apply split_le_combine. Qed.

Lemma le_split_cpu_to_fdt32 (x : Z) : le_split 4 (cpu_to_fdt32 x) = be32 x.
Proof.
  unfold cpu_to_fdt32. rewrite CPU_TO_FDT32_rev.
  apply le_split_le_combine_4, length_be32.
Qed.

Lemma fdt32_to_cpu_be32 (x : Z) : fdt32_to_cpu (le_combine (be32 x)) = u32 x.
Proof.
  unfold fdt32_to_cpu. rewrite CPU_TO_FDT32_rev.
  rewrite le_split_le_combine_4 by apply length_be32.
  unfold be32. rewrite rev_involutive, le_combine_split. reflexivity.
Qed.

Lemma fdt32_to_cpu_range (x : Z) : 0 <= fdt32_to_cpu x < 2 ^ 32.
Proof.
  unfold fdt32_to_cpu. rewrite CPU_TO_FDT32_rev.
  pose proof (le_combine_bound (rev (le_split 4 x))) as H.
  rewrite length_rev, length_le_split in H. exact H.
Qed.

Lemma bytes_of_cells_be (cs : list Z) :
  bytes_of_cells (map cpu_to_fdt32 cs) = flat_map be32 cs.
Proof.
  unfold bytes_of_cells. induction cs as [|c cs IH]; [reflexivity|].
  cbn [map flat_map]. now rewrite le_split_cpu_to_fdt32, IH.
Qed.

(** *** Loads *)

Lemma nth_error_word (mem : list byte) (k j : nat) :
  nth_error (firstn 4 (skipn (4 * k) mem)) j =
  if (j <? 4)%nat then nth_error mem (4 * k + j) else None.
Proof. now rewrite nth_error_firstn, nth_error_skipn. Qed.

(** A load only depends on the four bytes of its cell. *)
Lemma load_u32_ext (m1 m2 : list byte) (k1 k2 : nat) :
  (forall j, (j < 4)%nat ->
             nth_error m1 (4 * k1 + j) = nth_error m2 (4 * k2 + j)) ->
  load_u32 m1 k1 = load_u32 m2 k2.
Proof.
  intros H. unfold load_u32. f_equal. apply nth_error_ext. intros j.
  rewrite !nth_error_word. destruct (Nat.ltb_spec j 4); auto.
Qed.

Lemma load_u32_app_l (v rest : list byte) (k : nat) :
  (4 * k + 4 <= List.length v)%nat -> load_u32 (v ++ rest) k = load_u32 v k.
Proof.
  intros H. apply load_u32_ext. intros j Hj.
  apply nth_error_app1. lia.
Qed.

Lemma load_u32_app_r (v rest : list byte) (k : nat) :
  List.length v = (4 * k)%nat -> load_u32 (v ++ rest) k = load_u32 rest 0.
Proof.
  intros H. apply load_u32_ext. intros j Hj.
  rewrite nth_error_app2 by lia. f_equal. lia.
Qed.

Lemma load_u32_shift (v rest : list byte) (n k : nat) :
  List.length v = (4 * n)%nat ->
  load_u32 (v ++ rest) (n + k) = load_u32 rest k.
Proof.
  intros H. apply load_u32_ext. intros j Hj.
  rewrite nth_error_app2 by lia. f_equal. lia.
Qed.

Lemma cell_at_be32 (x : Z) (rest : list byte) :
  cell_at (be32 x ++ rest) 0 = u32 x.
Proof.
  unfold cell_at. rewrite load_u32_app_l by (rewrite length_be32; lia).
  unfold load_u32. change (4 * 0)%nat with 0%nat. cbn [skipn].
  rewrite firstn_all2 by (rewrite length_be32; lia).
  apply fdt32_to_cpu_be32.
Qed.

Lemma length_cells (cs : list Z) :
  List.length (flat_map be32 cs) = (4 * List.length cs)%nat.
Proof.
  induction cs as [|c cs IH]; [reflexivity|].
  cbn [flat_map List.length]. rewrite length_app, length_be32, IH. lia.
Qed.

(** Cell [k] of an array of big-endian cells. *)
Lemma cell_at_cells (cs : list Z) (rest : list byte) (k : nat) (c : Z) :
  nth_error cs k = Some c -> cell_at (flat_map be32 cs ++ rest) k = u32 c.
Proof.
  revert k. induction cs as [|c0 cs IH]; intros k Hk.
  - destruct k; discriminate.
  - cbn [flat_map]. rewrite <- app_assoc. destruct k as [|k].
    + injection Hk as ->. apply cell_at_be32.
    + cbn [nth_error] in Hk. unfold cell_at.
      change (S k) with (1 + k)%nat.
      rewrite load_u32_shift by (rewrite length_be32; lia).
      apply IH, Hk.
Qed.

Lemma cell_at_range (mem : list byte) (k : nat) : 0 <= cell_at mem k < 2 ^ 32.
Proof. apply fdt32_to_cpu_range. Qed.

(** *** Stores *)

Lemma firstn_exact {A} (l1 l2 : list A) (n : nat) :
  n = List.length l1 -> firstn n (l1 ++ l2) = l1.
Proof.
  intros ->. rewrite firstn_app, firstn_all, Nat.sub_diag.
  cbn [firstn]. apply app_nil_r.
Qed.

Lemma skipn_exact {A} (l1 l2 : list A) :
  skipn (List.length l1) (l1 ++ l2) = l2.
Proof.
  rewrite skipn_app, Nat.sub_diag, skipn_all. reflexivity.
Qed.

Lemma length_store_u32 (v : list byte) (k : nat) (x : Z) :
  (4 * k + 4 <= List.length v)%nat ->
  List.length (store_u32 v k x) = List.length v.
Proof.
  intros H. unfold store_u32.
  rewrite !length_app, length_firstn, length_le_split, length_skipn. lia.
Qed.

Lemma nth_error_store_u32 (v : list byte) (k : nat) (x : Z) (i : nat) :
  (4 * k <= List.length v)%nat ->
  nth_error (store_u32 v k x) i =
  if ((4 * k <=? i) && (i <? 4 * k + 4))%nat
  then nth_error (le_split 4 x) (i - 4 * k)
  else nth_error v i.
Proof.
  intros H. unfold store_u32.
  assert (Hl : List.length (firstn (4 * k) v) = (4 * k)%nat)
    by (rewrite length_firstn; lia).
  destruct (Nat.leb_spec (4 * k) i) as [Hge | Hlt]; cbn [andb].
  - rewrite nth_error_app2 by lia. rewrite Hl.
    destruct (Nat.ltb_spec i (4 * k + 4)) as [Hin | Hout].
    + apply nth_error_app1. rewrite length_le_split. lia.
    + rewrite nth_error_app2 by (rewrite length_le_split; lia).
      rewrite length_le_split, nth_error_skipn. f_equal. lia.
  - rewrite nth_error_app1 by lia.
    rewrite nth_error_firstn.
    destruct (Nat.ltb_spec i (4 * k)); [reflexivity | lia].
Qed.

(** What the first [k + 1] cells hold after a store to cell [k]. *)
Lemma firstn_store_u32 (v : list byte) (k : nat) (x : Z) :
  (4 * k <= List.length v)%nat ->
  firstn (4 * k + 4) (store_u32 v k x)
  = (firstn (4 * k) v ++ le_split 4 x)%list.
Proof.
  intros H. unfold store_u32. rewrite app_assoc.
  apply firstn_exact.
  rewrite length_app, length_firstn, length_le_split. lia.
Qed.

Lemma skipn_store_u32 (v : list byte) (k : nat) (x : Z) (n : nat) :
  (4 * k + 4 <= n)%nat -> (n <= List.length v)%nat ->
  skipn n (store_u32 v k x) = skipn n v.
Proof.
  intros Hk Hn. apply nth_error_ext. intros i.
  rewrite !nth_error_skipn, nth_error_store_u32 by lia.
  destruct (Nat.ltb_spec (n + i) (4 * k + 4)); [lia|].
  now rewrite andb_false_r.
Qed.

End Codec.

(* ================================================================= *)
(** ** Staging and decoding [reg] *)

Section Reg.

Lemma staged_nil (v : list byte) : staged v 0 [].
Proof. repeat split. cbn. lia. Qed.

Lemma staged_store (v : list byte) (n : nat) (cs : list Z) (x : Z) :
  staged v n cs ->
  staged (store_u32 v n (cpu_to_fdt32 x)) (S n) (cs ++ [x]).
Proof.
  intros (Hn & Hl & Hv). repeat split.
  - rewrite length_app. cbn [List.length]. lia.
  - unfold store_u32.
    rewrite !length_app, length_firstn, length_le_split. lia.
  - replace (4 * S n)%nat with (4 * n + 4)%nat by lia.
    rewrite firstn_store_u32 by exact Hl.
    rewrite Hv, le_split_cpu_to_fdt32, flat_map_app. cbn [flat_map].
    now rewrite app_nil_r.
Qed.

Lemma stage_reg_staged (na ns ah al sh sl : Z) (frame : list byte) :
  staged (fst (stage_reg na ns ah al sh sl frame))
         (snd (stage_reg na ns ah al sh sl frame))
         (staged_cells na ns ah al sh sl).
Proof.
  unfold stage_reg, staged_cells.
  destruct (na >? 1), (ns >? 1); cbn [fst snd app];
    repeat match goal with
           | |- staged (store_u32 _ _ _) _ ?cs =>
               first [ apply (staged_store _ _ [_; _; _])
                     | apply (staged_store _ _ [_; _])
                     | apply (staged_store _ _ [_])
                     | apply (staged_store _ _ []) ]
           end; apply staged_nil.
Qed.

(** The stores stay inside the four cells of [reg[]]. *)
Lemma store_in_reg (frame v : list byte) (k : nat) (x : Z) :
  (16 <= List.length frame)%nat -> (k < 4)%nat ->
  skipn 16 v = skipn 16 frame /\ List.length v = List.length frame ->
  skipn 16 (store_u32 v k x) = skipn 16 frame
  /\ List.length (store_u32 v k x) = List.length frame.
Proof.
  intros Hf Hk [Hs Hl].
  rewrite skipn_store_u32, length_store_u32 by lia. auto.
Qed.

Lemma stage_reg_frame (na ns ah al sh sl : Z) (frame : list byte) :
  (16 <= List.length frame)%nat ->
  skipn 16 (fst (stage_reg na ns ah al sh sl frame)) = skipn 16 frame
  /\ List.length (fst (stage_reg na ns ah al sh sl frame))
     = List.length frame.
Proof.
  intros H. unfold stage_reg.
  destruct (na >? 1), (ns >? 1); cbn [fst snd];
    repeat (apply store_in_reg; [exact H | lia | ]); auto.
Qed.

(** *** Decoding *)

Lemma fold_be_concat (cs : list Z) (t : Z) :
  fold_left (fun t c => t * 2 ^ 32 + c) cs t
  = t * 2 ^ (32 * Z.of_nat (List.length cs)) + be_concat cs.
Proof.
  unfold be_concat. revert t.
  induction cs as [|c cs IH]; intros t.
  - cbn. lia.
  - cbn [fold_left List.length]. rewrite IH, (IH (0 * 2 ^ 32 + c)).
    replace (32 * Z.of_nat (S (List.length cs)))
      with (32 + 32 * Z.of_nat (List.length cs)) by lia.
    rewrite Z.pow_add_r by lia. ring.
Qed.

Lemma be_concat_cons (c : Z) (cs : list Z) :
  be_concat (c :: cs)
  = c * 2 ^ (32 * Z.of_nat (List.length cs)) + be_concat cs.
Proof.
  unfold be_concat at 1. cbn [fold_left]. rewrite fold_be_concat. lia.
Qed.

Lemma lor_shiftl_low (hi lo : Z) :
  0 <= lo < 2 ^ 32 -> Z.lor (Z.shiftl hi 32) lo = hi * 2 ^ 32 + lo.
Proof.
  intros Hlo. rewrite <- Z.shiftl_mul_pow2 by lia.
  rewrite <- Z.add_lor_land.
  enough (Z.land (Z.shiftl hi 32) lo = 0) as -> by lia.
  apply Z.bits_inj'; intros i Hi.
  rewrite Z.land_spec, Z.bits_0.
  destruct (Z.ltb_spec i 32) as [Hlt | Hge].
  - rewrite Z.shiftl_spec_low by lia. reflexivity.
  - assert (Z.testbit lo i = false) as ->; [|apply andb_false_r].
    destruct (Z.eq_dec lo 0) as [->|]; [apply Z.bits_0|].
    apply Z.bits_above_log2; [lia|].
    apply Z.log2_lt_pow2; [lia|].
    assert (2 ^ 32 <= 2 ^ i) by (apply Z.pow_le_mono_r; lia). lia.
Qed.

(** One turn of the decoding loop, arithmetically. *)
Lemma decode_step (temp c : Z) :
  0 <= c < 2 ^ 32 ->
  Z.lor (u64 (Z.shiftl temp 32)) c = (temp mod 2 ^ 32) * 2 ^ 32 + c.
Proof.
  intros Hc. unfold u64, wrap.
  rewrite Z.shiftl_mul_pow2 by lia.
  change (2 ^ 64) with (2 ^ 32 * 2 ^ 32).
  rewrite Z.mul_mod_distr_r by lia.
  rewrite <- lor_shiftl_low by exact Hc.
  now rewrite Z.shiftl_mul_pow2 by lia.
Qed.

(** The decoding loop computes the big-endian concatenation of the cells it
    reads, in 64 bits. *)
Lemma read_cells_spec (mem : list byte) (n start : nat) (temp : Z) :
  0 <= temp < 2 ^ 64 ->
  read_cells mem start n temp
  = (temp * 2 ^ (32 * Z.of_nat n) + be_concat (cells_from mem start n))
    mod 2 ^ 64.
Proof.
  revert start temp. induction n as [|n IH]; intros start temp Ht.
  - cbn [read_cells cells_from seq map]. unfold be_concat. cbn [fold_left].
    rewrite Z.mod_small; lia.
  - cbn [read_cells].
    pose proof (cell_at_range mem start) as Hc. fold (cell_at mem start).
    rewrite decode_step by exact Hc.
    assert (Hm : 0 <= temp mod 2 ^ 32 < 2 ^ 32) by (apply Z.mod_pos_bound; lia).
    rewrite IH by nia.
    unfold cells_from. cbn [seq map]. rewrite be_concat_cons.
    rewrite length_map, length_seq.
    replace (32 * Z.of_nat (S n)) with (32 + 32 * Z.of_nat n) by lia.
    rewrite Z.pow_add_r by lia.
    set (P := 2 ^ (32 * Z.of_nat n)).
    set (B := be_concat _).
    rewrite (Z.div_mod temp (2 ^ 32)) at 2 by lia.
    replace ((2 ^ 32 * (temp / 2 ^ 32) + temp mod 2 ^ 32) * (2 ^ 32 * P)
             + (cell_at mem start * P + B))
      with (((temp mod 2 ^ 32) * 2 ^ 32 + cell_at mem start) * P + B
            + (temp / 2 ^ 32 * P) * 2 ^ 64)
      by (change (2 ^ 64) with (2 ^ 32 * 2 ^ 32); ring).
    now rewrite Z_mod_plus_full.
Qed.

Lemma hi32_range (z : Z) : 0 <= hi32 z < 2 ^ 32.
Proof. apply Z.mod_pos_bound. lia. Qed.

Lemma lo32_range (z : Z) : 0 <= lo32 z < 2 ^ 32.
Proof. apply Z.mod_pos_bound. lia. Qed.

Lemma u32_small (z : Z) : 0 <= z < 2 ^ 32 -> u32 z = z.
Proof. apply Z.mod_small. Qed.

(** The two halves of a 64-bit value, recombined. *)
Lemma hi_lo_recombine (z : Z) :
  0 <= z < 2 ^ 64 -> hi32 z * 2 ^ 32 + lo32 z = z.
Proof.
  intros Hz. unfold hi32, lo32, u32, u64, wrap.
  rewrite (Z.mod_small z (2 ^ 64)) by lia.
  rewrite Z.shiftr_div_pow2 by lia.
  rewrite (Z.mod_small (z / 2 ^ 32))
    by (split; [apply Z.div_pos; lia | apply Z.div_lt_upper_bound; lia]).
  pose proof (Z.div_mod z (2 ^ 32)). lia.
Qed.

Lemma hi32_small (z : Z) : 0 <= z < 2 ^ 32 -> hi32 z = 0.
Proof.
  intros Hz. unfold hi32, u32, u64, wrap.
  rewrite (Z.mod_small z (2 ^ 64)) by lia.
  rewrite Z.shiftr_div_pow2, Z.div_small by lia. reflexivity.
Qed.

End Reg.

(* ================================================================= *)
(** ** Facts about the libfdt model *)

Section LibfdtFacts.

(** A property that was found is the tag at the position returned. *)
Lemma find_prop_sound (name : string) (ts : list token) (idx i : nat)
  (v : list byte) :
  find_prop name ts idx = Some (i, v) ->
  (idx <= i)%nat /\ nth_error ts (i - idx) = Some (FDT_PROP name v).
Proof.
  revert idx. induction ts as [|t ts IH]; intros idx H; [discriminate|].
  destruct t as [n | | n v0 |]; cbn [find_prop] in H; try discriminate.
  - destruct (String.eqb_spec n name) as [-> | Hne].
    + injection H as <- <-. rewrite Nat.sub_diag. split; [lia|reflexivity].
    + apply IH in H as [Hle Hn]. split; [lia|].
      replace (i - idx)%nat with (S (i - S idx)) by lia. exact Hn.
  - apply IH in H as [Hle Hn]. split; [lia|].
    replace (i - idx)%nat with (S (i - S idx)) by lia. exact Hn.
Qed.

Lemma find_prop_nth (name : string) (ts : list token) (p i : nat)
  (v : list byte) :
  find_prop name (skipn p ts) p = Some (i, v) ->
  nth_error ts i = Some (FDT_PROP name v).
Proof.
  intros H. apply find_prop_sound in H as [Hle Hn].
  rewrite nth_error_skipn in Hn.
  replace (p + (i - p))%nat with i in Hn by lia. exact Hn.
Qed.

(** What [fdt_getprop] returns on success: the position of the property's
    tag, and the length of its value. *)
Lemma fdt_getprop_some (b : fdt) (off : Z) (name : string) (ptr : nat)
  (len : Z) :
  fdt_getprop b off name = (Some ptr, len) ->
  exists v, nth_error (dt_struct b) ptr = Some (FDT_PROP name v)
            /\ len = blen v.
Proof.
  unfold fdt_getprop. destruct (node_at b off); [|discriminate].
  destruct (find_prop _ _ _) as [[i v]|] eqn:E; [|discriminate].
  intros H. injection H as <- <-. exists v. split; [|reflexivity].
  eapply find_prop_nth, E.
Qed.

Lemma fdt_getprop_none_len (b : fdt) (off : Z) (name : string) (len : Z) :
  fdt_getprop b off name = (None, len) -> len < 0.
Proof.
  unfold fdt_getprop. destruct (node_at b off).
  - destruct (find_prop _ _ _) as [[i v]|]; [discriminate|].
    intros H. injection H as <-. reflexivity.
  - intros H. injection H as <-. reflexivity.
Qed.

(** The memory at a property pointer starts with the value. *)
Lemma prop_mem_value (b : fdt) (ptr : nat) (name : string) (v : list byte) :
  nth_error (dt_struct b) ptr = Some (FDT_PROP name v) ->
  exists rest, prop_mem b ptr = (v ++ rest)%list.
Proof. intros H. unfold prop_mem. rewrite H. eauto. Qed.

Lemma node_at_negative (b : fdt) (off : Z) : off < 0 -> node_at b off = None.
Proof.
  intros H. unfold node_at. destruct (Z.ltb_spec off 0); [reflexivity | lia].
Qed.

(** A write that fails leaves the blob as it was. *)
Lemma fdt_setprop_failure (b : fdt) (off : Z) (name : string)
  (val : list byte) :
  fst (fdt_setprop b off name val) < 0 ->
  snd (fdt_setprop b off name val) = b.
Proof.
  unfold fdt_setprop. destruct (negb (probe b)); [reflexivity|].
  destruct (node_at b off); [|reflexivity].
  destruct (find_prop _ _ _) as [[i old]|].
  - destruct (_ <? _); [reflexivity | cbn; lia].
  - destruct (_ <? _); [reflexivity | cbn; lia].
Qed.

Lemma fdt_setprop_success (b : fdt) (off : Z) (name : string)
  (val : list byte) :
  fst (fdt_setprop b off name val) < 0 \/ fst (fdt_setprop b off name val) = 0.
Proof.
  unfold fdt_setprop. destruct (negb (probe b)); [left; reflexivity|].
  destruct (node_at b off); [|left; reflexivity].
  destruct (find_prop _ _ _) as [[i old]|];
    destruct (_ <? _); (left; reflexivity) || (right; reflexivity).
Qed.

(** A write at a negative offset is refused. *)
Lemma fdt_setprop_negative (b : fdt) (off : Z) (name : string)
  (val : list byte) :
  off < 0 ->
  fst (fdt_setprop b off name val) < 0 /\ snd (fdt_setprop b off name val) = b.
Proof.
  intros H. unfold fdt_setprop. destruct (negb (probe b)).
  - split; reflexivity.
  - rewrite node_at_negative by exact H. split; reflexivity.
Qed.

Lemma fdt_add_subnode_failure (b : fdt) (parent : Z) (name : string) :
  fst (fdt_add_subnode b parent name) < 0 ->
  snd (fdt_add_subnode b parent name) = b.
Proof.
  unfold fdt_add_subnode. destruct (negb (probe b)); [reflexivity|].
  destruct (0 <=? _); [reflexivity|].
  destruct (negb _); [reflexivity|].
  destruct (_ <? _); [reflexivity | cbn; lia].
Qed.

Lemma fdt_open_into_failure (b : fdt) (bufsize : Z) :
  fst (fdt_open_into b bufsize) < 0 -> snd (fdt_open_into b bufsize) = b.
Proof.
  unfold fdt_open_into. destruct (negb (probe b)); [reflexivity|].
  destruct (_ <? _); [reflexivity | cbn; lia].
Qed.

End LibfdtFacts.

(* ================================================================= *)
(** ** The address/size resolver *)

Section Resolver.

Lemma skipn_cons_nth {A} (l : list A) (n : nat) (a : A) :
  nth_error l n = Some a -> skipn n l = a :: skipn (S n) l.
Proof.
  revert n. induction l as [|h l IH]; intros [|n] H; try discriminate.
  - now injection H as ->.
  - cbn [nth_error] in H. cbn [skipn]. rewrite (IH _ H). reflexivity.
Qed.

Lemma cells_from_cells (cs : list Z) (rest : list byte) (n start : nat) :
  (start + n <= List.length cs)%nat ->
  cells_from (flat_map be32 cs ++ rest) start n
  = map u32 (firstn n (skipn start cs)).
Proof.
  unfold cells_from. revert start.
  induction n as [|n IH]; intros start H; [reflexivity|].
  cbn [seq map].
  destruct (nth_error cs start) as [c|] eqn:E.
  2:{ apply nth_error_None in E. lia. }
  rewrite (cell_at_cells _ _ _ _ E), IH by lia.
  rewrite (skipn_cons_nth _ _ _ E). reflexivity.
Qed.

(** What the resolver returns once its four lookups have succeeded: the
    big-endian concatenation of the first [na] cells at the [reg] pointer,
    and of the [ns] cells that follow, each in 64 bits and then converted to
    [unsigned long]. *)
Lemma resolver_decodes (x : xlen) (w : world) (node : Z) (ptr : nat)
  (len : Z) (want_addr want_size : bool) :
  let b := blob w in
  let parent := fdt_parent_offset b node in
  let na := Z.to_nat (fdt_address_cells b parent) in
  let ns := Z.to_nat (fdt_size_cells b parent) in
  let mem := prop_mem b ptr in
  0 <= parent ->
  1 <= fdt_address_cells b parent ->
  0 <= fdt_size_cells b parent ->
  fdt_getprop b node "reg" = (Some ptr, len) ->
  fdt_get_node_addr_size x w node want_addr want_size
  = ((0,
      if want_addr
      then Some (ulong x (be_concat (cells_from mem 0 na) mod 2 ^ 64))
      else None,
      if want_size
      then Some (ulong x (be_concat (cells_from mem na ns) mod 2 ^ 64))
      else None), w).
Proof.
  intros b parent na ns mem Hp Ha Hs Hg.
  unfold fdt_get_node_addr_size. fold b. fold parent.
  destruct (Z.ltb_spec parent 0); [lia|].
  destruct (Z.ltb_spec (fdt_address_cells b parent) 1); [lia|].
  destruct (Z.ltb_spec (fdt_size_cells b parent) 0); [lia|].
  rewrite Hg. fold mem. fold na. fold ns.
  rewrite !read_cells_spec by lia.
  rewrite !Z.mul_0_l, !Z.add_0_l. reflexivity.
Qed.

End Resolver.

Section ResolverClaims.

(** C6: the address/size resolver fails exactly when the node has no parent,
    or the parent's address-cell count is below 1, or its size-cell count is
    negative, or the node has no [reg] property.  The failure is the
    parent-lookup failure in the first case and "no such device" in the
    others; otherwise the resolver returns 0.  In every case the blob, and
    the log of mutating calls, are as before. *)
Theorem resolver_fails_exactly (x : xlen) (w : world) (node : Z)
  (want_addr want_size : bool) :
  let b := blob w in
  let parent := fdt_parent_offset b node in
  let r := fdt_get_node_addr_size x w node want_addr want_size in
  let rc := fst (fst (fst r)) in
  (rc < 0 <->
   parent < 0 \/ fdt_address_cells b parent < 1
   \/ fdt_size_cells b parent < 0
   \/ fst (fdt_getprop b node "reg") = None)
  /\ (parent < 0 -> rc = parent)
  /\ (rc < 0 -> 0 <= parent -> rc = SBI_ENODEV)
  /\ (rc < 0 \/ rc = 0)
  /\ snd r = w.
Proof.
  intros b parent r rc. subst r rc.
  unfold fdt_get_node_addr_size. fold b. fold parent.
  destruct (Z.ltb_spec parent 0) as [Hp | Hp]; cbn [fst snd].
  { repeat split; auto; try lia. }
  destruct (Z.ltb_spec (fdt_address_cells b parent) 1) as [Ha | Ha];
    cbn [fst snd].
  { unfold SBI_ENODEV. repeat split; auto; try lia. }
  destruct (Z.ltb_spec (fdt_size_cells b parent) 0) as [Hs | Hs];
    cbn [fst snd].
  { unfold SBI_ENODEV. repeat split; auto; try lia. }
  destruct (fdt_getprop b node "reg") as [[ptr|] len]; cbn [fst snd].
  - repeat split; auto; try lia.
    intros [H | [H | [H | H]]]; try lia; discriminate.
  - unfold SBI_ENODEV. repeat split; auto; try lia.
Qed.

(** C10: once the node has a parent with at least one address cell and a
    non-negative size-cell count, and carries a [reg] property, the resolver
    returns 0 whatever the length [len] of that property: the address is
    decoded from the first [na] cells at the property pointer and the size
    from the [ns] cells after them, and where the value [v] of the property
    ends before that, the cells are those of the bytes [rest] that follow it
    in the blob. *)
Theorem resolver_ignores_reg_length (x : xlen) (w : world) (node : Z)
  (ptr : nat) (len : Z) :
  let b := blob w in
  let parent := fdt_parent_offset b node in
  let na := Z.to_nat (fdt_address_cells b parent) in
  let ns := Z.to_nat (fdt_size_cells b parent) in
  0 <= parent ->
  1 <= fdt_address_cells b parent ->
  0 <= fdt_size_cells b parent ->
  fdt_getprop b node "reg" = (Some ptr, len) ->
  exists v rest,
    nth_error (dt_struct b) ptr = Some (FDT_PROP "reg" v)
    /\ len = blen v
    /\ prop_mem b ptr = (v ++ rest)%list
    /\ fdt_get_node_addr_size x w node true true
       = ((0,
           Some (ulong x (be_concat (cells_from (v ++ rest) 0 na)
                          mod 2 ^ 64)),
           Some (ulong x (be_concat (cells_from (v ++ rest) na ns)
                          mod 2 ^ 64))), w)
    /\ (forall m k, List.length v = (4 * m)%nat ->
                    cell_at (v ++ rest) (m + k) = cell_at rest k).
Proof.
  intros b parent na ns Hp Ha Hs Hg.
  destruct (fdt_getprop_some _ _ _ _ _ Hg) as (v & Hn & Hl).
  destruct (prop_mem_value _ _ _ _ Hn) as (rest & Hm).
  exists v, rest. repeat split; auto.
  - rewrite <- Hm.
    exact (resolver_decodes x w node ptr len true true Hp Ha Hs Hg).
  - intros m k Hv. unfold cell_at. now rewrite load_u32_shift.
Qed.

End ResolverClaims.

Section RoundTrip.

Lemma reg_value_layout (na ns addr size : Z) (frame : list byte) :
  (na = 1 \/ na = 2) -> (ns = 1 \/ ns = 2) ->
  reg_value na ns addr size frame
  = flat_map be32 (reg_layout na ns addr size).
Proof.
  intros Hna Hns. unfold reg_value.
  pose proof (stage_reg_staged na ns (hi32 addr) (lo32 addr) (hi32 size)
                (lo32 size) frame) as (Hn & _ & Hv).
  assert (Hc : staged_cells na ns (hi32 addr) (lo32 addr) (hi32 size)
                 (lo32 size) = reg_layout na ns addr size)
    by (destruct Hna as [-> | ->], Hns as [-> | ->]; reflexivity).
  rewrite Hc in Hn, Hv. rewrite <- Hv, Hn. f_equal.
  destruct Hna as [-> | ->], Hns as [-> | ->]; reflexivity.
Qed.

Lemma ulong_small (x : xlen) (z : Z) :
  0 <= z < 2 ^ BITS_PER_LONG x -> ulong x z = z.
Proof. apply Z.mod_small. Qed.

Lemma concat_one (z : Z) :
  0 <= z < 2 ^ 32 -> be_concat (map u32 [lo32 z]) mod 2 ^ 64 = z.
Proof.
  intros H. unfold be_concat. cbn [map fold_left].
  unfold lo32. rewrite !u32_small by (try apply Z.mod_pos_bound; lia).
  rewrite Z.mod_small; lia.
Qed.

Lemma concat_two (z : Z) :
  0 <= z < 2 ^ 64 -> be_concat (map u32 [hi32 z; lo32 z]) mod 2 ^ 64 = z.
Proof.
  intros H. unfold be_concat. cbn [map fold_left].
  rewrite (u32_small (hi32 z)) by apply hi32_range.
  rewrite (u32_small (lo32 z)) by apply lo32_range.
  rewrite Z.mul_0_l, Z.add_0_l, hi_lo_recombine by exact H.
  now apply Z.mod_small.
Qed.

(** C1: for address and size cell counts in {1,2} x {1,2}, and an address and
    a size representable in these widths (and in an [unsigned long]), the
    [reg] value that the reserved-memory fixup encodes has the layout
    [address-high] (only with two address cells), address-low, [size-high]
    (only with two size cells), size-low, big-endian; and the resolver, on a
    node that carries this value under a parent declaring these counts,
    returns the address and the size exactly. *)
Theorem reg_roundtrip (x : xlen) (w : world) (node : Z) (na ns addr size : Z)
  (frame : list byte) (ptr : nat) (len : Z) :
  (na = 1 \/ na = 2) -> (ns = 1 \/ ns = 2) ->
  0 <= addr < 2 ^ (32 * na) -> addr < 2 ^ BITS_PER_LONG x ->
  0 <= size < 2 ^ (32 * ns) -> size < 2 ^ BITS_PER_LONG x ->
  0 <= fdt_parent_offset (blob w) node ->
  fdt_address_cells (blob w) (fdt_parent_offset (blob w) node) = na ->
  fdt_size_cells (blob w) (fdt_parent_offset (blob w) node) = ns ->
  fdt_getprop (blob w) node "reg" = (Some ptr, len) ->
  nth_error (dt_struct (blob w)) ptr
  = Some (FDT_PROP "reg" (reg_value na ns addr size frame)) ->
  reg_value na ns addr size frame
  = flat_map be32 (reg_layout na ns addr size)
  /\ fdt_get_node_addr_size x w node true true
     = ((0, Some addr, Some size), w).
Proof.
  intros Hna Hns Haddr Hax Hsize Hsx Hp Ha Hs Hg Hn.
  pose proof (reg_value_layout na ns addr size frame Hna Hns) as Hv.
  split; [exact Hv|].
  rewrite (resolver_decodes x w node ptr len true true)
    by (rewrite ?Ha, ?Hs; auto; lia).
  destruct (prop_mem_value _ _ _ _ Hn) as (rest & ->).
  rewrite Ha, Hs, Hv.
  rewrite !cells_from_cells
    by (destruct Hna as [-> | ->], Hns as [-> | ->]; cbn; lia).
  assert (H32 : 2 ^ (32 * 1) = 2 ^ 32) by reflexivity.
  assert (H64 : 2 ^ (32 * 2) = 2 ^ 64) by reflexivity.
  assert (Hw : 2 ^ 32 < 2 ^ 64) by reflexivity.
  destruct Hna as [-> | ->], Hns as [-> | ->];
    change (Z.to_nat 1) with 1%nat; change (Z.to_nat 2) with 2%nat;
    cbn [reg_layout Z.eqb Pos.eqb app Nat.add skipn firstn];
    rewrite ?concat_one, ?concat_two, ?ulong_small by lia; reflexivity.
Qed.

End RoundTrip.

(* ================================================================= *)
(** ** The interrupt-routing fixup *)

Section Plic.

Lemma nth_error_replace {A} (l : list A) (n : nat) (a : A) :
  (n < List.length l)%nat ->
  nth_error (firstn n l ++ a :: skipn (S n) l) n = Some a.
Proof.
  intros H. rewrite nth_error_app2 by (rewrite length_firstn; lia).
  rewrite length_firstn.
  replace (n - Nat.min n (List.length l))%nat with O by lia.
  reflexivity.
Qed.

Lemma firstn_replace {A} (l : list A) (n : nat) (a : A) :
  (n < List.length l)%nat ->
  firstn n (firstn n l ++ a :: skipn (S n) l) = firstn n l.
Proof.
  intros H. apply firstn_exact. rewrite length_firstn. lia.
Qed.

Lemma skipn_replace {A} (l : list A) (n : nat) (a : A) :
  (n < List.length l)%nat ->
  skipn (S n) (firstn n l ++ a :: skipn (S n) l) = skipn (S n) l.
Proof.
  intros H. rewrite skipn_app, length_firstn.
  replace (S n - Nat.min n (List.length l))%nat with 1%nat by lia.
  rewrite skipn_all2 by (rewrite length_firstn; lia). reflexivity.
Qed.

(** The blob of [w] with the value of the property at [cells] replaced. *)
Lemma replaced_prop (b : fdt) (cells : nat) (name : string)
  (v : list byte) :
  nth_error (dt_struct b) cells = Some (FDT_PROP name v) ->
  with_value b cells name v = b.
Proof.
  intros H. unfold with_value, set_struct.
  rewrite (firstn_skipn_middle _ _ H). now destruct b.
Qed.

Lemma with_value_nth (b : fdt) (cells : nat) (name : string)
  (v : list byte) :
  (cells < List.length (dt_struct b))%nat ->
  nth_error (dt_struct (with_value b cells name v)) cells
  = Some (FDT_PROP name v).
Proof. intros H. cbn. now apply nth_error_replace. Qed.

Lemma with_value_again (b : fdt) (cells : nat) (name : string)
  (v v' : list byte) :
  (cells < List.length (dt_struct b))%nat ->
  with_value (with_value b cells name v) cells name v'
  = with_value b cells name v'.
Proof.
  intros H. unfold with_value, set_struct. cbn [dt_struct fdt_magic
    fdt_totalsize fdt_rsvmap_size dt_strings].
  now rewrite firstn_replace, skipn_replace.
Qed.

Lemma ones_bytes :
  le_split 4 (cpu_to_fdt32 0xffffffff)
  = [Byte.xff; Byte.xff; Byte.xff; Byte.xff].
Proof. reflexivity. Qed.

Lemma same_cell (c k j : nat) :
  (j < 4)%nat ->
  ((4 * k <=? 4 * c + j) && (4 * c + j <? 4 * k + 4))%nat = (c =? k)%nat.
Proof.
  intros H. destruct (Nat.eqb_spec c k) as [-> | Hne].
  - destruct (Nat.leb_spec (4 * k) (4 * k + j)); [|lia].
    destruct (Nat.ltb_spec (4 * k + j) (4 * k + 4)); [reflexivity | lia].
  - destruct (Nat.leb_spec (4 * k) (4 * c + j)); [|reflexivity].
    destruct (Nat.ltb_spec (4 * c + j) (4 * k + 4)); [lia | reflexivity].
Qed.

(** One turn of the loop, on the array as it is after the turns before. *)
Lemma plic_fixup_pair_step (w : world) (cells : nat) (name : string)
  (v vi : list byte) (i : nat) :
  (cells < List.length (dt_struct (blob w)))%nat ->
  (4 * (2 * i + 1) + 4 <= List.length v)%nat ->
  rewritten v i vi ->
  exists vi',
    plic_fixup_pair cells
      (mk_world (with_value (blob w) cells name vi) (calls w)) i
    = mk_world (with_value (blob w) cells name vi') (calls w)
    /\ rewritten v (S i) vi'.
Proof.
  intros Hc Hi [Hlen Hbytes].
  unfold plic_fixup_pair. cbn [blob calls].
  set (k := (2 * i + 1)%nat) in *.
  pose proof (with_value_nth (blob w) cells name vi Hc) as Hnth.
  destruct (prop_mem_value _ _ _ _ Hnth) as (rest & ->).
  rewrite load_u32_app_l by lia.
  assert (Hsame : load_u32 vi k = load_u32 v k).
  { apply load_u32_ext. intros j Hj. rewrite Hbytes by exact Hj.
    destruct (Nat.ltb_spec k (2 * i)); [lia|]. now rewrite andb_false_r. }
  rewrite Hsame. fold (cell_at v k).
  assert (Hodd : Nat.odd k = true)
    by (unfold k; rewrite Nat.add_1_r, Nat.odd_succ; apply Nat.even_spec;
        now exists i).
  assert (Hin : (4 * Z.of_nat k + 4 <=? blen v) = true)
    by (apply Z.leb_le; unfold blen; lia).
  destruct (cell_at v k =? IRQ_M_EXT) eqn:Ecell.
  - exists (store_u32 vi k (cpu_to_fdt32 0xffffffff)). split.
    + f_equal. unfold prop_store_u32. rewrite Hnth.
      destruct (Z.leb_spec (4 * Z.of_nat k + 4) (blen vi)) as [_ | Hout];
        [|unfold blen in Hout; lia].
      fold (with_value (with_value (blob w) cells name vi) cells name
              (store_u32 vi k (cpu_to_fdt32 0xffffffff))).
      now apply with_value_again.
    + split; [rewrite length_store_u32; lia|].
      intros c j Hj. rewrite nth_error_store_u32 by lia.
      rewrite same_cell by exact Hj.
      destruct (Nat.eqb_spec c k) as [-> | Hne].
      * unfold routed_to_machine. rewrite Hodd, Hin, Ecell.
        destruct (Nat.ltb_spec k (2 * S i)); [|lia]. cbn [andb].
        replace (4 * k + j - 4 * k)%nat with j by lia.
        rewrite ones_bytes.
        destruct j as [|[|[|[|j]]]]; try reflexivity; lia.
      * rewrite Hbytes by exact Hj.
        destruct (Nat.ltb_spec c (2 * i)), (Nat.ltb_spec c (2 * S i));
          try reflexivity; try lia.
        assert (c = (2 * i)%nat) as -> by (unfold k in Hne; lia).
        unfold routed_to_machine.
        replace (Nat.odd (2 * i)) with false; [reflexivity|].
        symmetry. rewrite <- Nat.negb_even.
        replace (Nat.even (2 * i)) with true; [reflexivity|].
        symmetry. apply Nat.even_spec. now exists i.
  - exists vi. split; [reflexivity|]. split; [exact Hlen|].
    intros c j Hj. rewrite Hbytes by exact Hj.
    destruct (Nat.ltb_spec c (2 * i)), (Nat.ltb_spec c (2 * S i));
      try reflexivity; try lia.
    rewrite andb_false_r.
    destruct (Nat.eq_dec c k) as [-> | Hne].
    + unfold routed_to_machine. rewrite Ecell. now rewrite andb_false_r.
    + assert (c = (2 * i)%nat) as -> by (unfold k in Hne; lia).
      unfold routed_to_machine.
      replace (Nat.odd (2 * i)) with false; [reflexivity|].
      symmetry. rewrite <- Nat.negb_even.
      replace (Nat.even (2 * i)) with true; [reflexivity|].
      symmetry. apply Nat.even_spec. now exists i.
Qed.

(** The first [n] turns. *)
Lemma plic_fixup_loop (w : world) (cells : nat) (name : string)
  (v : list byte) (n : nat) :
  (cells < List.length (dt_struct (blob w)))%nat ->
  (4 * (2 * n) <= List.length v)%nat ->
  exists vn,
    fold_left (plic_fixup_pair cells) (seq 0 n)
      (mk_world (with_value (blob w) cells name v) (calls w))
    = mk_world (with_value (blob w) cells name vn) (calls w)
    /\ rewritten v n vn.
Proof.
  intros Hc. induction n as [|n IH]; intros Hn.
  - exists v. split; [reflexivity|]. split; [reflexivity|].
    intros c j _. destruct (Nat.ltb_spec c (2 * 0)); [lia|].
    now rewrite andb_false_r.
  - destruct IH as (vn & Hfold & Hrw); [lia|].
    rewrite seq_S, fold_left_app, Hfold. cbn [fold_left Nat.add].
    apply plic_fixup_pair_step; auto. lia.
Qed.

End Plic.

Section PlicClaim.

Lemma routed_in_pairs (v : list byte) (c : nat) :
  routed_to_machine v c = true ->
  (c <? 2 * Z.to_nat (blen v / 4 / 2))%nat = true.
Proof.
  unfold routed_to_machine. intros H.
  apply andb_prop in H as [H _]. apply andb_prop in H as [Hodd Hin].
  apply Nat.odd_spec in Hodd as [m ->]. apply Z.leb_le in Hin.
  apply Nat.ltb_lt. unfold blen in *.
  assert (Z.of_nat m + 1 <= Z.of_nat (List.length v) / 4 / 2).
  { rewrite Z.div_div by lia. apply Z.div_le_lower_bound; lia. }
  lia.
Qed.

Lemma pairs_in_array (v : list byte) :
  (4 * (2 * Z.to_nat (blen v / 4 / 2)) <= List.length v)%nat.
Proof.
  unfold blen. rewrite Z.div_div by lia.
  pose proof (Z.mul_div_le (Z.of_nat (List.length v)) (4 * 2)).
  assert (0 <= Z.of_nat (List.length v) / (4 * 2))
    by (apply Z.div_pos; lia).
  lia.
Qed.

(** C5: when no node matches, or the matching node has no
    [interrupts-extended] property, the fixup leaves the world as it is.
    Otherwise the world after the fixup is the world before it with only the
    value [v] of that property replaced by a value [v'] of the same length,
    and no mutating libfdt call issued.  Byte [j] of cell [c] of [v'] is all
    ones when cell [c] is the second cell of a whole (phandle, interrupt-id)
    pair and holds the machine-external-interrupt number, and is the byte of
    [v] otherwise; a rewritten cell then reads 0xFFFFFFFF.  The first cell of
    a pair, the lone last cell of an odd-length array, and the bytes after
    the last whole cell are never among the rewritten ones. *)
Theorem plic_fixup_frame (w : world) (compat : string) :
  let plic_off := fdt_node_offset_by_compatible (blob w) 0 compat in
  match fdt_getprop (blob w) plic_off "interrupts-extended" with
  | (None, _) => fdt_plic_fixup w compat = w
  | (Some cells, _) =>
      exists v v',
        nth_error (dt_struct (blob w)) cells
        = Some (FDT_PROP "interrupts-extended" v)
        /\ fdt_plic_fixup w compat
           = mk_world (with_value (blob w) cells "interrupts-extended" v')
                      (calls w)
        /\ List.length v' = List.length v
        /\ (forall c j, (j < 4)%nat ->
              nth_error v' (4 * c + j) =
              if routed_to_machine v c then Some Byte.xff
              else nth_error v (4 * c + j))
        /\ (forall c, routed_to_machine v c = true ->
              cell_at v' c = 0xffffffff)
        /\ (forall c, Nat.even c = true \/ blen v < 4 * Z.of_nat c + 4 ->
              routed_to_machine v c = false)
  end.
Proof.
  intros plic_off. unfold fdt_plic_fixup. fold plic_off.
  destruct (fdt_getprop (blob w) plic_off "interrupts-extended")
    as [[cells|] len] eqn:Hg.
  2:{ now destruct (plic_off <? 0). }
  destruct (fdt_getprop_some _ _ _ _ _ Hg) as (v & Hn & ->).
  assert (Hc : (cells < List.length (dt_struct (blob w)))%nat)
    by (apply nth_error_Some; congruence).
  assert (Hw : w = mk_world (with_value (blob w) cells "interrupts-extended"
                               v) (calls w))
    by (rewrite replaced_prop by exact Hn; now destruct w).
  assert (Hoff : 0 <= plic_off).
  { destruct (Z.ltb_spec plic_off 0) as [Hneg | Hpos]; [|exact Hpos].
    unfold fdt_getprop in Hg. rewrite node_at_negative in Hg by exact Hneg.
    discriminate. }
  destruct (Z.ltb_spec plic_off 0) as [Hneg | _]; [lia|].
  assert (Hfinal : forall vn,
    rewritten v (Z.to_nat (blen v / 4 / 2)) vn ->
    List.length vn = List.length v
    /\ (forall c j, (j < 4)%nat ->
          nth_error vn (4 * c + j) =
          if routed_to_machine v c then Some Byte.xff
          else nth_error v (4 * c + j))
    /\ (forall c, routed_to_machine v c = true -> cell_at vn c = 0xffffffff)
    /\ (forall c, Nat.even c = true \/ blen v < 4 * Z.of_nat c + 4 ->
          routed_to_machine v c = false)).
  { intros vn [Hlen Hbytes].
    assert (Hall : forall c j, (j < 4)%nat ->
              nth_error vn (4 * c + j) =
              if routed_to_machine v c then Some Byte.xff
              else nth_error v (4 * c + j)).
    { intros c j Hj. rewrite Hbytes by exact Hj.
      destruct (routed_to_machine v c) eqn:Hr; [|reflexivity].
      now rewrite (routed_in_pairs v c Hr). }
    split; [exact Hlen|]. split; [exact Hall|]. split.
    - intros c Hr. unfold cell_at.
      rewrite (load_u32_ext vn (repeat Byte.xff 4) c 0); [reflexivity|].
      intros j Hj. rewrite Hall, Hr by exact Hj.
      destruct j as [|[|[|[|j]]]]; try reflexivity; lia.
    - intros c [He | Hout]; unfold routed_to_machine.
      + now rewrite <- Nat.negb_even, He.
      + destruct (Z.leb_spec (4 * Z.of_nat c + 4) (blen v)); [lia|].
        now rewrite andb_false_r. }
  destruct (Z.eqb_spec (blen v / 4) 0) as [Hzero | Hnz].
  - exists v, v. split; [exact Hn|]. split; [exact Hw|].
    apply Hfinal. rewrite Hzero. change (Z.to_nat (0 / 2)) with 0%nat.
    split; [reflexivity|]. intros c j _.
    destruct (Nat.ltb_spec c (2 * 0)); [lia|]. now rewrite andb_false_r.
  - destruct (plic_fixup_loop w cells "interrupts-extended" v
                (Z.to_nat (blen v / 4 / 2)) Hc (pairs_in_array v))
      as (vn & Hfold & Hrw).
    exists v, vn. split; [exact Hn|]. split.
    + rewrite Hw at 1. exact Hfold.
    + apply Hfinal, Hrw.
Qed.

End PlicClaim.

(* ================================================================= *)
(** ** The CPU fixup *)

Section Cpu.

Lemma find_prop_replaced (name : string) (val : list byte)
  (ts : list token) :
  forall p idx old,
  find_prop name ts p = Some (idx, old) ->
  find_prop name (firstn (idx - p) ts
                    ++ FDT_PROP name val :: skipn (S (idx - p)) ts) p
  = Some (idx, val).
Proof.
  induction ts as [|t ts IH]; intros p idx old H; [discriminate|].
  pose proof (find_prop_sound _ _ _ _ _ H) as [Hle _].
  destruct t as [n | | n v0 |]; cbn [find_prop] in H; try discriminate.
  - destruct (String.eqb_spec n name) as [-> | Hne].
    + injection H as <- <-. rewrite Nat.sub_diag. cbn.
      now rewrite String.eqb_refl.
    + pose proof (find_prop_sound _ _ _ _ _ H) as [Hlt _].
      replace (idx - p)%nat with (S (idx - S p)) by lia.
      cbn [firstn skipn app find_prop].
      destruct (String.eqb_spec n name); [contradiction|].
      now apply (IH _ _ old).
  - pose proof (find_prop_sound _ _ _ _ _ H) as [Hlt _].
    replace (idx - p)%nat with (S (idx - S p)) by lia.
    cbn [firstn skipn app find_prop]. now apply (IH _ _ old).
Qed.

Lemma skip_after_replace {A} (l : list A) (p idx : nat) (a : A) :
  (p <= idx)%nat -> (idx < List.length l)%nat ->
  skipn p (firstn idx l ++ a :: skipn (S idx) l)
  = (firstn (idx - p) (skipn p l)
     ++ a :: skipn (S (idx - p)) (skipn p l))%list.
Proof.
  intros Hp Hi. apply nth_error_ext. intros n.
  rewrite nth_error_skipn, !nth_error_app, length_firstn.
  rewrite length_firstn, length_skipn.
  replace (Nat.min idx (List.length l)) with idx by lia.
  replace (Nat.min (idx - p) (List.length l - p)) with (idx - p)%nat by lia.
  destruct (Nat.ltb_spec (p + n) idx), (Nat.ltb_spec n (idx - p)); try lia.
  - rewrite !nth_error_firstn, nth_error_skipn.
    destruct (Nat.ltb_spec (p + n) idx), (Nat.ltb_spec n (idx - p));
      try lia; reflexivity.
  - replace (p + n - idx)%nat with (n - (idx - p))%nat by lia.
    destruct (n - (idx - p))%nat as [|k] eqn:Ek; [reflexivity|].
    cbn [nth_error]. rewrite !nth_error_skipn. f_equal. lia.
Qed.

Lemma node_at_inserted (b : fdt) (off : Z) (ts : list token) :
  0 <= off ->
  firstn (S (Z.to_nat off)) ts = firstn (S (Z.to_nat off)) (dt_struct b) ->
  node_at (set_struct b ts) off = node_at b off.
Proof.
  intros Hoff H. unfold node_at. cbn [dt_struct set_struct].
  destruct (off <? 0); [reflexivity|].
  assert (Hn : forall l : list token,
             nth_error l (Z.to_nat off)
             = nth_error (firstn (S (Z.to_nat off)) l) (Z.to_nat off)).
  { intros l. rewrite nth_error_firstn.
    destruct (Nat.ltb_spec (Z.to_nat off) (S (Z.to_nat off)));
      [reflexivity | lia]. }
  now rewrite (Hn ts), (Hn (dt_struct b)), H.
Qed.

(** The blob after a write that succeeded. *)
Lemma fdt_setprop_result (b b' : fdt) (off : Z) (name : string)
  (val : list byte) :
  fdt_setprop b off name val = (0, b') ->
  let p := S (Z.to_nat off) in
  0 <= off /\ (Z.to_nat off < List.length (dt_struct b))%nat
  /\ node_at b off <> None
  /\ ((exists idx old,
         find_prop name (skipn p (dt_struct b)) p = Some (idx, old)
         /\ b' = with_value b idx name val)
      \/ (find_prop name (skipn p (dt_struct b)) p = None
          /\ dt_struct b'
             = (firstn p (dt_struct b)
                ++ FDT_PROP name val :: skipn p (dt_struct b))%list)).
Proof.
  intros H p. unfold fdt_setprop in H.
  destruct (negb (probe b)); [discriminate|].
  destruct (node_at b off) as [n|] eqn:Hnode; [|discriminate].
  assert (Hoff : 0 <= off).
  { destruct (Z.ltb_spec off 0); [|assumption].
    now rewrite node_at_negative in Hnode. }
  assert (Hlen : (Z.to_nat off < List.length (dt_struct b))%nat).
  { unfold node_at in Hnode. destruct (off <? 0); [discriminate|].
    apply nth_error_Some. now destruct (nth_error _ _). }
  split; [exact Hoff|]. split; [exact Hlen|]. split; [congruence|].
  fold p in H.
  destruct (find_prop name (skipn p (dt_struct b)) p) as [[idx old]|] eqn:E.
  - destruct (_ <? _); [discriminate|]. left. exists idx, old.
    split; [reflexivity|]. now injection H as <-.
  - destruct (_ <? _); [discriminate|]. right.
    split; [reflexivity|]. now injection H as <-.
Qed.

(** A property that was written reads back. *)
Lemma fdt_setprop_getprop (b b' : fdt) (off : Z) (name : string)
  (val : list byte) :
  fdt_setprop b off name val = (0, b') ->
  exists ptr,
    fdt_getprop b' off name = (Some ptr, blen val)
    /\ nth_error (dt_struct b') ptr = Some (FDT_PROP name val).
Proof.
  intros H. apply fdt_setprop_result in H.
  destruct H as (Hoff & Hlen & Hnode & H).
  set (p := S (Z.to_nat off)) in *.
  unfold fdt_getprop.
  destruct H as [(idx & old & E & ->) | (E & Hts)].
  - pose proof (find_prop_sound _ _ _ _ _ E) as [Hle Hnth].
    pose proof (find_prop_nth _ _ _ _ _ E) as Hidx.
    assert (Hi : (idx < List.length (dt_struct b))%nat)
      by (apply nth_error_Some; congruence).
    exists idx. unfold with_value.
    rewrite node_at_inserted; [|exact Hoff|].
    2:{ assert (Hp : (S (Z.to_nat off) <= idx)%nat) by exact Hle.
        rewrite firstn_app, length_firstn, firstn_firstn.
        rewrite (Nat.min_l idx) by lia. rewrite Nat.min_l by lia.
        replace (S (Z.to_nat off) - idx)%nat with 0%nat by lia.
        cbn [firstn]. apply app_nil_r. }
    destruct (node_at b off); [|contradiction].
    unfold set_struct at 1. unfold dt_struct at 1. fold p.
    rewrite skip_after_replace by lia.
    rewrite (find_prop_replaced _ _ _ _ _ _ E).
    split; [reflexivity|]. now apply nth_error_replace.
  - exists p.
    assert (Hp : List.length (firstn p (dt_struct b)) = p)
      by (rewrite length_firstn; unfold p; lia).
    assert (Hnode' : node_at b' off = node_at b off).
    { unfold node_at. destruct (off <? 0); [reflexivity|].
      rewrite Hts, nth_error_app1 by (rewrite Hp; unfold p; lia).
      rewrite nth_error_firstn.
      destruct (Nat.ltb_spec (Z.to_nat off) p);
        [reflexivity | unfold p in *; lia]. }
    rewrite Hnode'. destruct (node_at b off); [|contradiction].
    fold p. rewrite Hts.
    rewrite skipn_app, Hp, Nat.sub_diag, skipn_all2 by lia.
    cbn [skipn app find_prop]. rewrite String.eqb_refl.
    split; [reflexivity|].
    rewrite nth_error_app2 by lia. rewrite Hp, Nat.sub_diag. reflexivity.
Qed.

End Cpu.

Section CpuClaim.

Lemma cpu_fixup_hart_invalid (plat : sbi_platform) (w : world) (i : Z) :
  sbi_platform_hart_invalid plat i = true ->
  let cpu_offset :=
    fdt_path_offset (blob w) ("/cpus/cpu@" ++ fmt_d (int32 i)) in
  cpu_fixup_hart plat w i
  = mk_world (snd (fdt_setprop (blob w) cpu_offset "status" disabled))
             (calls w ++ [Call_setprop cpu_offset "status" disabled]).
Proof. intros H. unfold cpu_fixup_hart. rewrite H. reflexivity. Qed.

(** C4, as the code has it: in the turn of the loop for hart index [i],
    whatever the world [w] the turn starts in,
    - a valid hart leaves the world as it is;
    - for an invalid hart the write of [status = "disabled"] is issued with
      the result [cpu_offset] of the lookup of [/cpus/cpu@<i>], found or
      not;
    - when the lookup failed the blob is left unchanged;
    - the blob changes only when the node was found and the hart is invalid,
      and the [status] property of that node then reads "disabled". *)
Theorem cpu_fixup_hart_effect (plat : sbi_platform) (w : world) (i : Z) :
  let cpu_offset :=
    fdt_path_offset (blob w) ("/cpus/cpu@" ++ fmt_d (int32 i)) in
  let w' := cpu_fixup_hart plat w i in
  (sbi_platform_hart_invalid plat i = false -> w' = w)
  /\ (sbi_platform_hart_invalid plat i = true ->
      calls w' = (calls w ++ [Call_setprop cpu_offset "status" disabled])%list)
  /\ (cpu_offset < 0 -> blob w' = blob w)
  /\ (blob w' <> blob w ->
      0 <= cpu_offset /\ sbi_platform_hart_invalid plat i = true
      /\ exists ptr,
           fdt_getprop (blob w') cpu_offset "status"
           = (Some ptr, blen disabled)
           /\ nth_error (dt_struct (blob w')) ptr
              = Some (FDT_PROP "status" disabled)).
Proof.
  intros cpu_offset w'. subst w'.
  destruct (sbi_platform_hart_invalid plat i) eqn:Hinv.
  - rewrite (cpu_fixup_hart_invalid plat w i Hinv). fold cpu_offset.
    cbn [blob calls].
    split; [discriminate|]. split; [reflexivity|]. split.
    + intros Hneg. now apply fdt_setprop_negative.
    + intros Hch.
      destruct (fdt_setprop (blob w) cpu_offset "status" disabled)
        as [rc b'] eqn:E. cbn [snd] in *.
      destruct (fdt_setprop_success (blob w) cpu_offset "status" disabled)
        as [Hfail | Hok]; rewrite E in *; cbn [fst] in *.
      * exfalso. apply Hch.
        pose proof (fdt_setprop_failure (blob w) cpu_offset "status"
                      disabled) as Hf.
        rewrite E in Hf. now apply Hf.
      * subst rc. split.
        { now destruct (fdt_setprop_result _ _ _ _ _ E) as (H & _). }
        split; [reflexivity|]. now apply (fdt_setprop_getprop (blob w)).
  - unfold cpu_fixup_hart. rewrite Hinv.
    split; [reflexivity|]. split; [discriminate|].
    split; [reflexivity|]. intros H. now exfalso.
Qed.

End CpuClaim.

(* ================================================================= *)
(** ** The reserved-memory fixup *)

Section Eligibility.

Lemma land_zero_iff (p m : Z) :
  Z.land p m = 0 <->
  forall i, 0 <= i -> Z.testbit m i = true -> Z.testbit p i = false.
Proof.
  split.
  - intros H i Hi Hm.
    pose proof (Z.land_spec p m i) as Hs. rewrite H, Z.bits_0, Hm in Hs.
    now rewrite andb_true_r in Hs.
  - intros H. apply Z.bits_inj'. intros i Hi.
    rewrite Z.land_spec, Z.bits_0.
    destruct (Z.testbit m i) eqn:Hm; [|apply andb_false_r].
    now rewrite (H i Hi Hm).
Qed.

Lemma small_bit_cases (m i : Z) :
  0 <= i -> 0 < m < 32 -> Z.testbit m i = true ->
  i = 0 \/ i = 1 \/ i = 2 \/ i = 3 \/ i = 4.
Proof.
  intros Hi Hm Ht.
  destruct (Z.ltb_spec i 5) as [Hlt | Hge]; [lia|].
  rewrite Z.bits_above_log2 in Ht; [discriminate | lia |].
  apply Z.log2_lt_pow2; [lia|].
  assert (2 ^ 5 <= 2 ^ i) by (apply Z.pow_le_mono_r; lia).
  change (2 ^ 5) with 32 in *. lia.
Qed.

(** The test of line 145 is the negation of "active". *)
Lemma inactive_test (prot : Z) :
  (Z.land prot PMP_A =? 0) = negb (region_active prot).
Proof.
  unfold region_active, PMP_A.
  destruct (Z.eqb_spec (Z.land prot 24) 0) as [H | H].
  - rewrite land_zero_iff in H.
    now rewrite (H 3), (H 4) by (reflexivity || lia).
  - destruct (Z.testbit prot 3) eqn:H3; [reflexivity|].
    destruct (Z.testbit prot 4) eqn:H4; [reflexivity|].
    exfalso. apply H, land_zero_iff. intros i Hi Hm.
    destruct (small_bit_cases 24 i Hi ltac:(lia) Hm)
      as [-> | [-> | [-> | [-> | ->]]]]; try discriminate; assumption.
Qed.

(** The test of line 147 holds when none of the three permissions is
    granted. *)
Lemma no_permission_test (prot : Z) :
  (Z.land prot (Z.lor (Z.lor PMP_R PMP_W) PMP_X) =? 0)
  = negb (grants_read prot) && negb (grants_write prot)
    && negb (grants_exec prot).
Proof.
  unfold grants_read, grants_write, grants_exec, PMP_R, PMP_W, PMP_X.
  change (Z.lor (Z.lor 1 2) 4) with 7.
  destruct (Z.eqb_spec (Z.land prot 7) 0) as [H | H].
  - rewrite land_zero_iff in H.
    now rewrite (H 0), (H 1), (H 2) by (reflexivity || lia).
  - destruct (Z.testbit prot 0) eqn:H0; [reflexivity|].
    destruct (Z.testbit prot 1) eqn:H1; [reflexivity|].
    destruct (Z.testbit prot 2) eqn:H2; [reflexivity|].
    exfalso. apply H, land_zero_iff. intros i Hi Hm.
    destruct (small_bit_cases 7 i Hi ltac:(lia) Hm)
      as [-> | [-> | [-> | [-> | ->]]]]; try discriminate; assumption.
Qed.

Lemma eligible_test (prot : Z) :
  eligible prot
  = negb (Z.land prot PMP_A =? 0)
    && (Z.land prot (Z.lor (Z.lor PMP_R PMP_W) PMP_X) =? 0).
Proof.
  rewrite inactive_test, no_permission_test, negb_involutive.
  unfold eligible. now rewrite !andb_assoc.
Qed.

End Eligibility.

Section PmpLoop.

Lemma calls_issue (w w' : world) (c : fdt_call) (r : Z * fdt) (rc : Z) :
  Call.issue w c r = (rc, w') -> calls w' = (calls w ++ [c])%list /\ rc = fst r.
Proof. unfold Call.issue. intros H. injection H as <- <-. auto. Qed.

Lemma eligible_regions_cons (plat : sbi_platform) (i : nat)
  (idx : list nat) :
  eligible_regions plat (i :: idx)
  = if eligible (region_prot plat i) then i :: eligible_regions plat idx
    else eligible_regions plat idx.
Proof. reflexivity. Qed.

Variable plat : sbi_platform.
Variable frame : list byte.
Variables na ns parent : Z.

(** What a run of the loop over the table indices [idx] adds to the log:
    the calls for a prefix of the eligible regions, in table order and
    numbered from [j], followed -- when an operation failed -- by the calls
    of the child at which the loop stopped. *)
Lemma pmp_loop_calls (idx : list nat) :
  forall (j : Z) (w w' : world) (rc : Z),
  pmp_loop plat frame na ns parent idx j w = (rc, w') ->
  exists subs partial,
    calls w' = (calls w
                ++ children_calls plat frame na ns parent j
                     (eligible_regions plat idx) subs
                ++ partial)%list
    /\ (List.length subs <= List.length (eligible_regions plat idx))%nat
    /\ Forall (fun s => 0 <= s) subs
    /\ ((rc = 0
         /\ List.length subs = List.length (eligible_regions plat idx)
         /\ partial = [])
        \/ (rc < 0
            /\ exists i s m,
                 nth_error (eligible_regions plat idx) (List.length subs)
                 = Some i
                 /\ (1 <= m <= 3)%nat
                 /\ partial
                    = firstn m (child_calls plat frame na ns parent
                                  (j + Z.of_nat (List.length subs)) i s))).
Proof.
  induction idx as [|i rest IH]; intros j w w' rc Hrun.
  - cbn in Hrun. injection Hrun as <- <-.
    exists [], []. cbn. rewrite app_nil_r. repeat split; auto.
  - cbn [pmp_loop] in Hrun. rewrite eligible_regions_cons, eligible_test.
    unfold child_calls, region_addr, region_size, region_prot in *.
    destruct (pmp_get plat i) as [[prot addr] size] eqn:Hpmp.
    cbn [fst snd] in *.
    destruct (Z.land prot PMP_A =? 0); cbn [negb andb];
      [now apply IH|].
    destruct (Z.land prot (Z.lor (Z.lor PMP_R PMP_W) PMP_X) =? 0);
      [|now apply IH].
    fold (hi32 addr) (lo32 addr) (hi32 size) (lo32 size) in Hrun.
    set (name := pmp_node_name na j (hi32 addr) (lo32 addr)) in *.
    destruct (Call.fdt_add_subnode w parent name) as [subnode w1] eqn:E1.
    apply calls_issue in E1 as [C1 _].
    destruct (Z.ltb_spec subnode 0) as [Hneg | Hsub].
    { injection Hrun as <- <-. exists [], [Call_add_subnode parent name].
      cbn [children_calls app List.length].
      repeat split; auto; [cbn; lia|]. right. split; [exact Hneg|].
      exists i, 0, 1%nat. rewrite Hpmp. cbn [fst snd List.length Z.of_nat].
      rewrite Z.add_0_r. repeat split; auto. }
    destruct (Call.fdt_setprop_empty w1 subnode "no-map") as [err2 w2] eqn:E2.
    apply calls_issue in E2 as [C2 _]. cbn [firstn Z.to_nat] in C2.
    destruct (Z.ltb_spec err2 0) as [Hneg2 | _].
    { injection Hrun as <- <-.
      exists [], [Call_add_subnode parent name;
                  Call_setprop subnode "no-map" []].
      cbn [children_calls app List.length].
      rewrite C2, C1, <- app_assoc.
      repeat split; auto; [cbn; lia|]. right. split; [exact Hneg2|].
      exists i, subnode, 2%nat. rewrite Hpmp.
      cbn [fst snd List.length Z.of_nat].
      rewrite Z.add_0_r. repeat split; auto. }
    destruct (Call.fdt_setprop w2 subnode "reg" _ (reg_len na ns))
      as [err3 w3] eqn:E3.
    apply calls_issue in E3 as [C3 _].
    fold (reg_value na ns addr size frame) in C3.
    destruct (Z.ltb_spec err3 0) as [Hneg3 | _].
    { injection Hrun as <- <-.
      exists [], [Call_add_subnode parent name;
                  Call_setprop subnode "no-map" [];
                  Call_setprop subnode "reg"
                    (reg_value na ns addr size frame)].
      cbn [children_calls app List.length].
      rewrite C3, C2, C1, <- !app_assoc.
      repeat split; auto; [cbn; lia|]. right. split; [exact Hneg3|].
      exists i, subnode, 3%nat. rewrite Hpmp.
      cbn [fst snd List.length Z.of_nat].
      rewrite Z.add_0_r. repeat split; auto. }
    destruct (IH _ _ _ _ Hrun) as (subs & partial & Hc & Hlen & Hpos & Hend).
    exists (subnode :: subs), partial.
    cbn [children_calls child_calls List.length].
    unfold child_calls, region_addr, region_size. rewrite Hpmp.
    cbn [fst snd]. fold name.
    split.
    { rewrite Hc, C3, C2, C1, <- !app_assoc. reflexivity. }
    split; [lia|]. split; [now constructor|].
    destruct Hend as [(-> & Hl & ->) | (Hrc & i' & s & m & Hnth & Hm & ->)].
    + left. repeat split; auto.
    + right. split; [exact Hrc|]. exists i', s, m.
      cbn [nth_error]. split; [exact Hnth|]. split; [exact Hm|].
      unfold child_calls, region_addr, region_size.
      now replace (j + Z.of_nat (S (List.length subs)))
        with (j + 1 + Z.of_nat (List.length subs)) by lia.
Qed.

End PmpLoop.

Section ReservedMemory.

Lemma setprop_u32_value (v : Z) :
  firstn (Z.to_nat 4) (bytes_of_cells [cpu_to_fdt32 (u32 v)]) = be32 (u32 v).
Proof.
  unfold bytes_of_cells. cbn [flat_map]. rewrite app_nil_r.
  rewrite le_split_cpu_to_fdt32.
  apply firstn_all2. rewrite length_be32. reflexivity.
Qed.

(** Lines 106-132: either the container was found, or it was created with
    its three properties. *)
Lemma reserved_memory_node_calls (na ns : Z) (w w1 : world) (parent : Z) :
  reserved_memory_node na ns w = (parent, w1) -> 0 <= parent ->
  (parent = fdt_path_offset (blob w) "/reserved-memory" /\ w1 = w)
  \/ (fdt_path_offset (blob w) "/reserved-memory" < 0
      /\ calls w1 = (calls w ++ container_calls na ns parent)%list).
Proof.
  unfold reserved_memory_node. intros H Hp.
  destruct (Z.ltb_spec (fdt_path_offset (blob w) "/reserved-memory") 0)
    as [Hnf | Hf].
  2:{ injection H as <- <-. now left. }
  right. split; [exact Hnf|].
  destruct (Call.fdt_add_subnode w 0 "reserved-memory") as [p wa] eqn:E0.
  apply calls_issue in E0 as [C0 _].
  destruct (Z.ltb_spec p 0); [injection H as <- <-; lia|].
  destruct (Call.fdt_setprop_empty wa p "ranges") as [e1 wb] eqn:E1.
  apply calls_issue in E1 as [C1 _]. cbn [firstn Z.to_nat] in C1.
  destruct (Z.ltb_spec e1 0); [injection H as <- <-; lia|].
  destruct (Call.fdt_setprop_u32 wb p "#size-cells" ns) as [e2 wc] eqn:E2.
  apply calls_issue in E2 as [C2 _]. rewrite setprop_u32_value in C2.
  destruct (Z.ltb_spec e2 0); [injection H as <- <-; lia|].
  destruct (Call.fdt_setprop_u32 wc p "#address-cells" na) as [e3 wd] eqn:E3.
  apply calls_issue in E3 as [C3 _]. rewrite setprop_u32_value in C3.
  destruct (Z.ltb_spec e3 0); [injection H as <- <-; lia|].
  injection H as <- <-.
  rewrite C3, C2, C1, C0, <- !app_assoc. reflexivity.
Qed.

Lemma created_names_app (a b : list fdt_call) :
  created_names (a ++ b) = (created_names a ++ created_names b)%list.
Proof.
  induction a as [|c a IH]; [reflexivity|].
  destruct c; cbn [app created_names]; now rewrite IH.
Qed.

Lemma pmp_node_name_child_name (na j addr : Z) :
  pmp_node_name na j (hi32 addr) (lo32 addr) = child_name na j addr.
Proof.
  unfold pmp_node_name, child_name, long_name, short_name.
  now rewrite Z.gtb_ltb.
Qed.

Lemma created_names_children (plat : sbi_platform) (frame : list byte)
  (na ns parent : Z) (regs : list nat) :
  forall (j : Z) (subs : list Z),
  List.length subs = List.length regs ->
  created_names (children_calls plat frame na ns parent j regs subs)
  = child_names plat na j regs.
Proof.
  induction regs as [|i regs IH]; intros j [|s subs] H; try discriminate;
    [reflexivity|].
  cbn [children_calls child_calls app created_names child_names].
  rewrite pmp_node_name_child_name. f_equal. apply IH.
  now injection H.
Qed.

End ReservedMemory.

Section StructureBlock.

Lemma insert_at_app {A} (l x new : list A) (q : nat) :
  q = List.length l -> insert_at q new (l ++ x) = (l ++ new ++ x)%list.
Proof.
  intros ->. unfold insert_at.
  now rewrite firstn_exact, skipn_exact by reflexivity.
Qed.

Lemma count_props_app (p x : list token) :
  forallb is_prop p = true ->
  count_props (p ++ x) = (List.length p + count_props x)%nat.
Proof.
  induction p as [|t p IH]; intros H; [reflexivity|].
  cbn [forallb] in H. apply andb_prop in H as [Ht Hp].
  destruct t; try discriminate; cbn [app count_props List.length];
    now rewrite IH.
Qed.

(** The properties of a node, and what follows them. *)
Lemma count_props_split (x : list token) :
  forallb is_prop (firstn (count_props x) x) = true
  /\ count_props (skipn (count_props x) x) = 0%nat.
Proof.
  induction x as [|t x [IH1 IH2]]; [split; reflexivity|].
  destruct t; cbn [count_props firstn skipn forallb is_prop andb];
    auto.
Qed.

Lemma node_at_length (b : fdt) (off : Z) :
  node_at b off <> None ->
  0 <= off /\ (S (Z.to_nat off) <= List.length (dt_struct b))%nat.
Proof.
  unfold node_at. intros H.
  destruct (Z.ltb_spec off 0); [contradiction|]. split; [assumption|].
  destruct (nth_error (dt_struct b) (Z.to_nat off)) eqn:E;
    [|contradiction].
  apply Nat.le_succ_l, nth_error_Some. congruence.
Qed.

(** The blob after a child was created. *)
Lemma fdt_add_subnode_result (b b' : fdt) (parent q : Z) (name : string) :
  fdt_add_subnode b parent name = (q, b') -> 0 <= q ->
  node_at b parent <> None
  /\ q = Z.of_nat (children_position (dt_struct b) parent)
  /\ b' = set_struct b
            (insert_at (children_position (dt_struct b) parent)
               [FDT_BEGIN_NODE name; FDT_END_NODE] (dt_struct b)).
Proof.
  unfold fdt_add_subnode, children_position. intros H Hq.
  destruct (negb (probe b));
    [injection H as <- _; unfold FDT_ERR_BADMAGIC in Hq; lia|].
  destruct (Z.leb_spec 0 (fdt_subnode_offset b parent name));
    [injection H as <- _; unfold FDT_ERR_EXISTS in Hq; lia|].
  destruct (Z.eqb_spec (fdt_subnode_offset b parent name)
              (- FDT_ERR_NOTFOUND)) as [Hnf | Hne]; cbn [negb] in H;
    [|injection H as <- _; lia].
  destruct (_ <? _);
    [injection H as <- _; unfold FDT_ERR_NOSPACE in Hq; lia|].
  injection H as <- <-. split; [|split; reflexivity].
  unfold fdt_subnode_offset in Hnf.
  destruct (node_at b parent); [discriminate | discriminate].
Qed.

End StructureBlock.

Section StructureBlockLoop.

Lemma call_result (w w' : world) (c : fdt_call) (r : Z * fdt) (rc : Z) :
  Call.issue w c r = (rc, w') -> r = (rc, blob w').
Proof.
  unfold Call.issue. intros H. injection H as <- <-. now destruct r.
Qed.

Lemma split_at {A} (x y : list A) (p : nat) :
  p = List.length x -> firstn p (x ++ y) = x /\ skipn p (x ++ y) = y.
Proof.
  intros ->. split; [now apply firstn_exact | apply skipn_exact].
Qed.

(** A property written to a node that does not have it yet is placed first
    in the node. *)
Lemma fdt_setprop_fresh (b b' : fdt) (off : Z) (name : string)
  (val : list byte) (x y : list token) :
  fdt_setprop b off name val = (0, b') ->
  dt_struct b = (x ++ y)%list ->
  List.length x = S (Z.to_nat off) ->
  find_prop name y (S (Z.to_nat off)) = None ->
  dt_struct b' = (x ++ FDT_PROP name val :: y)%list.
Proof.
  intros H Hts Hx Hy. apply fdt_setprop_result in H.
  destruct H as (_ & _ & _ & H).
  destruct (split_at x y (S (Z.to_nat off)) (eq_sym Hx)) as [Hf Hs].
  rewrite Hts, Hf, Hs in H.
  destruct H as [(idx & old & E & _) | (_ & ->)]; [congruence|reflexivity].
Qed.

Lemma setprop_done (w w' : world) (off : Z) (name : string)
  (mem : list byte) (len err : Z) :
  Call.fdt_setprop w off name mem len = (err, w') -> ~ err < 0 ->
  fdt_setprop (blob w) off name (firstn (Z.to_nat len) mem) = (0, blob w').
Proof.
  intros H Herr. apply call_result in H.
  pose proof (fdt_setprop_success (blob w) off name
                (firstn (Z.to_nat len) mem)) as Hs.
  rewrite H in *. cbn [fst] in Hs. destruct Hs as [Hs | ->]; [lia|].
  reflexivity.
Qed.

Variable plat : sbi_platform.
Variable frame : list byte.
Variables na ns parent : Z.

(** What a run of the loop that returns 0 does to the structure block: with
    [a] the tokens up to the begin tag of the container, [p] the properties
    of the container and [c ++ r] what follows them, the children of the
    eligible regions are placed between [p] and [c], the later ones
    first. *)
Lemma pmp_loop_tokens (idx : list nat) :
  forall (j : Z) (w w' : world) (p c r : list token),
  pmp_loop plat frame na ns parent idx j w = (0, w') ->
  dt_struct (blob w)
  = (firstn (S (Z.to_nat parent)) (dt_struct (blob w)) ++ p ++ c ++ r)%list ->
  forallb is_prop p = true -> count_props (c ++ r) = 0%nat ->
  firstn (S (Z.to_nat parent)) (dt_struct (blob w'))
  = firstn (S (Z.to_nat parent)) (dt_struct (blob w))
  /\ dt_struct (blob w')
     = (firstn (S (Z.to_nat parent)) (dt_struct (blob w)) ++ p
        ++ children_tokens plat frame na ns j (eligible_regions plat idx) c
        ++ r)%list.
Proof.
  induction idx as [|i rest IH]; intros j w w' p c r Hrun Hts Hp Hc.
  - cbn in Hrun. injection Hrun as <-. split; [reflexivity | exact Hts].
  - cbn [pmp_loop] in Hrun. rewrite eligible_regions_cons, eligible_test.
    unfold region_prot.
    destruct (pmp_get plat i) as [[prot addr] size] eqn:Hpmp.
    cbn [fst snd] in *.
    destruct (Z.land prot PMP_A =? 0); cbn [negb andb];
      [now apply IH|].
    destruct (Z.land prot (Z.lor (Z.lor PMP_R PMP_W) PMP_X) =? 0);
      [|now apply IH].
    fold (hi32 addr) (lo32 addr) (hi32 size) (lo32 size) in Hrun.
    rewrite pmp_node_name_child_name in Hrun.
    set (name := child_name na j addr) in *.
    set (a := firstn (S (Z.to_nat parent)) (dt_struct (blob w))) in *.
    (* the child is created *)
    destruct (Call.fdt_add_subnode w parent name) as [subnode w1] eqn:E1.
    destruct (Z.ltb_spec subnode 0) as [Hneg | Hsub];
      [injection Hrun as Hrc _; lia|].
    apply call_result in E1.
    apply fdt_add_subnode_result in E1 as (Hnode & Hq & Hb1); [|exact Hsub].
    apply node_at_length in Hnode as [Hpar Hlen].
    assert (Ha : List.length a = S (Z.to_nat parent))
      by (unfold a; rewrite length_firstn; lia).
    assert (Hpos : children_position (dt_struct (blob w)) parent
                   = List.length (a ++ p)).
    { unfold children_position. rewrite Hts at 1.
      rewrite (proj2 (split_at a _ _ (eq_sym Ha))).
      rewrite count_props_app, Hc, length_app by exact Hp. lia. }
    rewrite Hpos in Hq, Hb1.
    assert (Ht1 : dt_struct (blob w1)
                  = ((a ++ p ++ [FDT_BEGIN_NODE name])
                     ++ FDT_END_NODE :: c ++ r)%list).
    { rewrite Hb1. cbn [dt_struct set_struct]. rewrite Hts at 1.
      rewrite (app_assoc a p), insert_at_app by reflexivity.
      rewrite <- !app_assoc. reflexivity. }
    assert (Hx : List.length (a ++ p ++ [FDT_BEGIN_NODE name])
                 = S (Z.to_nat subnode)).
    { rewrite Hq, Nat2Z.id, !length_app. cbn [List.length]. lia. }
    (* its no-map property *)
    destruct (Call.fdt_setprop_empty w1 subnode "no-map") as [err2 w2] eqn:E2.
    destruct (Z.ltb_spec err2 0) as [Hneg2 | Hok2];
      [injection Hrun as Hrc _; lia|].
    apply setprop_done in E2; [|lia]. cbn [firstn Z.to_nat] in E2.
    pose proof (fdt_setprop_fresh _ _ _ _ _ _ _ E2 Ht1 Hx eq_refl) as Ht2.
    (* its reg property *)
    destruct (Call.fdt_setprop w2 subnode "reg" _ (reg_len na ns))
      as [err3 w3] eqn:E3.
    destruct (Z.ltb_spec err3 0) as [Hneg3 | Hok3];
      [injection Hrun as Hrc _; lia|].
    apply setprop_done in E3; [|lia].
    fold (reg_value na ns addr size frame) in E3.
    pose proof (fdt_setprop_fresh _ _ _ _ _ _ _ E3 Ht2 Hx eq_refl) as Ht3.
    (* the regions that remain *)
    assert (Hfirst : firstn (S (Z.to_nat parent)) (dt_struct (blob w3)) = a).
    { rewrite Ht3, <- !app_assoc. now apply firstn_exact. }
    destruct (IH (j + 1) w3 w' p
                (child_tokens plat frame na ns j i ++ c)%list r Hrun)
      as [IH1 IH2].
    + rewrite Hfirst, Ht3. unfold child_tokens, region_addr, region_size.
      rewrite Hpmp. cbn [fst snd]. fold name.
      rewrite <- !app_assoc. reflexivity.
    + exact Hp.
    + reflexivity.
    + rewrite Hfirst in IH1, IH2. split; assumption.
Qed.

End StructureBlockLoop.

Section StructureBlockRun.

Lemma firstn_add {A} (a b : nat) (l : list A) :
  firstn (a + b) l = (firstn a l ++ firstn b (skipn a l))%list.
Proof.
  revert l. induction a as [|a IH]; intros l; [reflexivity|].
  destruct l as [|h l]; [cbn; now rewrite firstn_nil|].
  cbn [Nat.add firstn skipn app]. now rewrite IH.
Qed.

Lemma count_props_le (x : list token) :
  (count_props x <= List.length x)%nat.
Proof.
  induction x as [|t x IH]; [reflexivity|].
  destruct t; cbn [count_props List.length]; lia.
Qed.

(** Inserting at the place of the children of [parent]. *)
Lemma insert_children (ts new : list token) (parent : Z) :
  let p := S (Z.to_nat parent) in
  let cp := count_props (skipn p ts) in
  insert_at (children_position ts parent) new ts
  = (firstn p ts ++ firstn cp (skipn p ts) ++ new
     ++ skipn cp (skipn p ts))%list.
Proof.
  intros p cp. unfold insert_at, children_position. fold p cp.
  rewrite firstn_add, skipn_skipn, (Nat.add_comm cp p), <- app_assoc.
  reflexivity.
Qed.

(** Lines 106-132 on the structure block. *)
Lemma reserved_memory_node_tokens (na ns : Z) (w w1 : world) (parent : Z) :
  reserved_memory_node na ns w = (parent, w1) -> 0 <= parent ->
  (parent = fdt_path_offset (blob w) "/reserved-memory" /\ w1 = w)
  \/ (fdt_path_offset (blob w) "/reserved-memory" < 0
      /\ parent = Z.of_nat (children_position (dt_struct (blob w)) 0)
      /\ dt_struct (blob w1)
         = insert_at (children_position (dt_struct (blob w)) 0)
             (container_tokens na ns) (dt_struct (blob w))).
Proof.
  unfold reserved_memory_node. intros H Hp.
  destruct (Z.ltb_spec (fdt_path_offset (blob w) "/reserved-memory") 0)
    as [Hnf | Hf].
  2:{ injection H as <- <-. now left. }
  right. split; [exact Hnf|].
  destruct (Call.fdt_add_subnode w 0 "reserved-memory") as [p wa] eqn:E0.
  destruct (Z.ltb_spec p 0); [injection H as <- <-; lia|].
  apply call_result in E0.
  apply fdt_add_subnode_result in E0 as (Hroot & Hq & Hba); [|lia].
  apply node_at_length in Hroot as [_ Hroot].
  set (q := children_position (dt_struct (blob w)) 0) in *.
  set (l := firstn q (dt_struct (blob w))).
  set (r := skipn q (dt_struct (blob w))).
  assert (Hq' : (q <= List.length (dt_struct (blob w)))%nat).
  { unfold q, children_position.
    pose proof (count_props_le (skipn (S (Z.to_nat 0))
                                  (dt_struct (blob w)))) as Hcp.
    rewrite length_skipn in Hcp. lia. }
  assert (Hl : List.length l = q) by (unfold l; rewrite length_firstn; lia).
  assert (Hta : dt_struct (blob wa)
                = ((l ++ [FDT_BEGIN_NODE "reserved-memory"])
                   ++ FDT_END_NODE :: r)%list).
  { rewrite Hba. cbn [dt_struct set_struct]. unfold insert_at. fold l r.
    rewrite <- app_assoc. reflexivity. }
  assert (Hx : List.length (l ++ [FDT_BEGIN_NODE "reserved-memory"])
               = S (Z.to_nat p)).
  { rewrite Hq, Nat2Z.id, length_app. cbn [List.length]. lia. }
  destruct (Call.fdt_setprop_empty wa p "ranges") as [e1 wb] eqn:E1.
  destruct (Z.ltb_spec e1 0); [injection H as <- <-; lia|].
  apply setprop_done in E1; [|lia]. cbn [firstn Z.to_nat] in E1.
  pose proof (fdt_setprop_fresh _ _ _ _ _ _ _ E1 Hta Hx eq_refl) as Htb.
  destruct (Call.fdt_setprop_u32 wb p "#size-cells" ns) as [e2 wc] eqn:E2.
  destruct (Z.ltb_spec e2 0); [injection H as <- <-; lia|].
  apply setprop_done in E2; [|lia]. rewrite setprop_u32_value in E2.
  pose proof (fdt_setprop_fresh _ _ _ _ _ _ _ E2 Htb Hx eq_refl) as Htc.
  destruct (Call.fdt_setprop_u32 wc p "#address-cells" na) as [e3 wd] eqn:E3.
  destruct (Z.ltb_spec e3 0); [injection H as <- <-; lia|].
  apply setprop_done in E3; [|lia]. rewrite setprop_u32_value in E3.
  pose proof (fdt_setprop_fresh _ _ _ _ _ _ _ E3 Htc Hx eq_refl) as Htd.
  injection H as <- <-. split; [exact Hq|].
  rewrite Htd. unfold insert_at, container_tokens. fold l r.
  rewrite <- app_assoc. reflexivity.
Qed.

(** What a run of the whole fixup that returns 0 does: the calls it adds to
    the log, and the structure block it leaves. *)
Lemma reserved_memory_fixup_run (plat : sbi_platform) (frame : list byte)
  (w w' : world) :
  sbi_platform_has_pmp plat = true ->
  fdt_reserved_memory_fixup plat frame w = (0, w') ->
  let na := fdt_address_cells (blob w) 0 in
  let ns := fdt_size_cells (blob w) 0 in
  let regs := eligible_regions plat (seq 0 PMP_COUNT) in
  let ts := dt_struct (blob w) in
  exists parent subs container ts1,
    0 <= parent
    /\ ((fdt_path_offset (blob w) "/reserved-memory" = parent
         /\ container = [] /\ ts1 = ts)
        \/ (fdt_path_offset (blob w) "/reserved-memory" < 0
            /\ parent = Z.of_nat (children_position ts 0)
            /\ container = container_calls na ns parent
            /\ ts1 = insert_at (children_position ts 0)
                       (container_tokens na ns) ts))
    /\ calls w'
       = (calls w ++ [Call_open_into (open_size (blob w) 256)]
          ++ container
          ++ children_calls plat frame na ns parent 0 regs subs)%list
    /\ List.length subs = List.length regs
    /\ Forall (fun s => 0 <= s) subs
    /\ dt_struct (blob w')
       = insert_at (children_position ts1 parent)
           (children_tokens plat frame na ns 0 regs []) ts1.
Proof.
  intros Hpmp Hrun na ns regs ts. unfold fdt_reserved_memory_fixup in Hrun.
  rewrite Hpmp in Hrun. cbn [negb] in Hrun. fold na ns in Hrun.
  destruct (Call.fdt_open_into w (open_size (blob w) 256))
    as [err w0] eqn:E0.
  destruct (Z.ltb_spec err 0); [injection Hrun as Hrc _; lia|].
  pose proof (calls_issue _ _ _ _ _ E0) as [C0 _].
  apply call_result in E0.
  assert (Hb0 : dt_struct (blob w0) = ts
                /\ fdt_path_offset (blob w0) "/reserved-memory"
                   = fdt_path_offset (blob w) "/reserved-memory").
  { unfold fdt_open_into in E0.
    destruct (negb (probe (blob w))); [injection E0 as _ <-; now split|].
    destruct (_ <? _); injection E0 as _ <-; now split. }
  destruct Hb0 as [Hts0 Hpath0].
  destruct (reserved_memory_node na ns w0) as [parent w1] eqn:E1.
  destruct (Z.ltb_spec parent 0) as [|Hp]; [injection Hrun as Hrc _; lia|].
  pose proof (reserved_memory_node_calls _ _ _ _ _ E1 Hp) as Hcalls.
  pose proof (reserved_memory_node_tokens _ _ _ _ _ E1 Hp) as Htoks.
  rewrite Hpath0, Hts0 in Htoks. rewrite Hpath0 in Hcalls.
  destruct (pmp_loop_calls plat frame na ns parent _ _ _ _ _ Hrun)
    as (subs & partial & Hc & _ & Hpos & Hend).
  destruct Hend as [(_ & Hlen & ->) | (Hneg & _)]; [|lia].
  rewrite app_nil_r in Hc.
  set (ts1 := dt_struct (blob w1)).
  pose proof (count_props_split (skipn (S (Z.to_nat parent)) ts1))
    as [Hprops Hrest].
  destruct (pmp_loop_tokens plat frame na ns parent (seq 0 PMP_COUNT) 0
              w1 w'
              (firstn (count_props (skipn (S (Z.to_nat parent)) ts1))
                      (skipn (S (Z.to_nat parent)) ts1))
              []
              (skipn (count_props (skipn (S (Z.to_nat parent)) ts1))
                     (skipn (S (Z.to_nat parent)) ts1))
              Hrun) as [_ Hfinal].
  { fold ts1. cbn [app]. now rewrite !firstn_skipn. }
  { exact Hprops. }
  { exact Hrest. }
  fold ts1 regs in Hfinal. rewrite <- insert_children in Hfinal.
  exists parent, subs.
  destruct Htoks as [(Hpar & ->) | (Hnf & Hpar & Ht1)].
  - exists [], ts. split; [exact Hp|]. split; [left; auto|].
    destruct Hcalls as [(_ & _) | (Habs & _)]; [|lia].
    split; [rewrite Hc, C0, <- !app_assoc; reflexivity|].
    split; [exact Hlen|]. split; [exact Hpos|].
    unfold ts1 in Hfinal. now rewrite Hts0 in Hfinal.
  - exists (container_calls na ns parent),
      (insert_at (children_position ts 0) (container_tokens na ns) ts).
    split; [exact Hp|]. split; [right; auto|].
    destruct Hcalls as [(Habs & _) | (_ & C1)]; [lia|].
    split; [rewrite Hc, C1, C0, <- !app_assoc; reflexivity|].
    split; [exact Hlen|]. split; [exact Hpos|].
    unfold ts1 in Hfinal. now rewrite Ht1 in Hfinal.
Qed.

End StructureBlockRun.

Section ReservedMemoryClaims.

Lemma eligible_regions_sorted (plat : sbi_platform) (n : nat) :
  forall a, StronglySorted lt (eligible_regions plat (seq a n)).
Proof.
  induction n as [|n IH]; intros a; [constructor|].
  cbn [seq]. rewrite eligible_regions_cons.
  destruct (eligible (region_prot plat a)); [|apply IH].
  constructor; [apply IH|].
  apply Forall_forall. intros x Hx.
  apply filter_In in Hx as [Hx _]. apply in_seq in Hx. lia.
Qed.

Lemma eligible_spec (prot : Z) :
  eligible prot = true <->
  region_active prot = true /\ grants_read prot = false
  /\ grants_write prot = false /\ grants_exec prot = false.
Proof.
  unfold eligible.
  destruct (region_active prot), (grants_read prot), (grants_write prot),
    (grants_exec prot); cbn; intuition congruence.
Qed.

(** C2: in a run of the reserved-memory fixup that returns 0 (memory
    protection being on), with [regs] the table entries that are active and
    grant none of read, write and execute, in table order:
    - the calls added to the log are the growth of the blob, the creation of
      the container when it was absent, and then, for each region of [regs]
      in turn and for no other table entry, the three calls that emit its
      child;
    - the structure block left is the one found, with the container inserted
      after the properties of the root when it was absent, and with the
      children of the regions of [regs], and nothing else, inserted after
      the properties of the container (each child before those created
      earlier). *)
Theorem reserved_memory_children (plat : sbi_platform) (frame : list byte)
  (w w' : world) :
  sbi_platform_has_pmp plat = true ->
  fdt_reserved_memory_fixup plat frame w = (0, w') ->
  let na := fdt_address_cells (blob w) 0 in
  let ns := fdt_size_cells (blob w) 0 in
  let regs := eligible_regions plat (seq 0 PMP_COUNT) in
  let ts := dt_struct (blob w) in
  (forall i, In i regs <->
     (i < PMP_COUNT)%nat
     /\ region_active (region_prot plat i) = true
     /\ grants_read (region_prot plat i) = false
     /\ grants_write (region_prot plat i) = false
     /\ grants_exec (region_prot plat i) = false)
  /\ StronglySorted lt regs
  /\ exists parent subs container ts1,
       0 <= parent
       /\ ((fdt_path_offset (blob w) "/reserved-memory" = parent
            /\ container = [] /\ ts1 = ts)
           \/ (fdt_path_offset (blob w) "/reserved-memory" < 0
               /\ parent = Z.of_nat (children_position ts 0)
               /\ container = container_calls na ns parent
               /\ ts1 = insert_at (children_position ts 0)
                          (container_tokens na ns) ts))
       /\ calls w'
          = (calls w ++ [Call_open_into (open_size (blob w) 256)]
             ++ container
             ++ children_calls plat frame na ns parent 0 regs subs)%list
       /\ List.length subs = List.length regs
       /\ Forall (fun s => 0 <= s) subs
       /\ dt_struct (blob w')
          = insert_at (children_position ts1 parent)
              (children_tokens plat frame na ns 0 regs []) ts1.
Proof.
  intros Hpmp Hrun na ns regs ts. split; [|split].
  - intros i. unfold regs, eligible_regions.
    rewrite filter_In, in_seq, eligible_spec. cbn [Nat.add]. intuition lia.
  - apply eligible_regions_sorted.
  - exact (reserved_memory_fixup_run plat frame w w' Hpmp Hrun).
Qed.

Lemma nth_child_names (plat : sbi_platform) (na : Z) (regs : list nat) :
  forall (j : Z) (k i : nat),
  nth_error regs k = Some i ->
  nth_error (child_names plat na j regs) k
  = Some (child_name na (j + Z.of_nat k) (region_addr plat i)).
Proof.
  induction regs as [|r regs IH]; intros j [|k] i H; try discriminate.
  - injection H as ->. cbn. now rewrite Z.add_0_r.
  - cbn [nth_error child_names]. rewrite (IH (j + 1) k i H).
    do 2 f_equal. lia.
Qed.

Lemma length_child_names (plat : sbi_platform) (na : Z) (regs : list nat) :
  forall j, List.length (child_names plat na j regs) = List.length regs.
Proof.
  induction regs as [|r regs IH]; intros j; [reflexivity|].
  cbn [child_names List.length]. now rewrite IH.
Qed.

(** The names of the nodes that a run returning 0 creates: the container
    (when it was absent), and then one child per eligible region, the
    [k]-th of them being named as the code names the [k]-th child. *)
Lemma created_child_names (plat : sbi_platform) (frame : list byte)
  (w w' : world) :
  sbi_platform_has_pmp plat = true ->
  fdt_reserved_memory_fixup plat frame w = (0, w') ->
  let na := fdt_address_cells (blob w) 0 in
  let regs := eligible_regions plat (seq 0 PMP_COUNT) in
  exists container names,
    created_names (skipn (List.length (calls w)) (calls w'))
    = (container ++ names)%list
    /\ (container = [] \/ container = ["reserved-memory"])
    /\ List.length names = List.length regs
    /\ forall k i, nth_error regs k = Some i ->
         nth_error names k
         = Some (child_name na (Z.of_nat k) (region_addr plat i)).
Proof.
  intros Hpmp Hrun na regs.
  destruct (reserved_memory_fixup_run plat frame w w' Hpmp Hrun)
    as (parent & subs & container & ts1 & _ & Hcont & Hc & Hlen & _).
  fold na regs in Hc, Hlen, Hcont.
  exists (created_names container), (child_names plat na 0 regs).
  rewrite Hc, skipn_exact. cbn [app created_names].
  rewrite created_names_app, created_names_children by exact Hlen.
  split; [reflexivity|]. split.
  { destruct Hcont as [(_ & -> & _) | (_ & _ & -> & _)];
      [left | right]; reflexivity. }
  split; [apply length_child_names|].
  intros k i Hk. now rewrite (nth_child_names plat na regs 0 k i Hk).
Qed.

End ReservedMemoryClaims.

(* ================================================================= *)
(** ** The staging buffer of the reserved-memory fixup *)

Section Staging.

Lemma reg_len_small (na ns : Z) :
  0 <= na + ns <= 8 -> reg_len na ns = 4 * (na + ns).
Proof.
  intros H. unfold reg_len, int32, wrap.
  rewrite Z.mod_small by lia.
  destruct (Z.ltb_spec ((na + ns) * 4) (2 ^ 31)); lia.
Qed.

(** C9, as the code has it: for the cell counts libfdt can return (one to
    four address cells, zero to four size cells), the fixup stages at most
    four cells and leaves the memory above the four cells of [reg[]] as it
    found it; the declared length of the property is [(na + ns) * 4].  With
    at most two address cells and one or two size cells, the number of
    cells staged is [na + ns], the declared length is the number of bytes
    staged and is at most 16, and the declared bytes are the staged cells.
    When [na + ns] exceeds 4 the declared length exceeds both the bytes
    staged and the 16 bytes of the buffer. *)
Theorem reg_staging_bounds (na ns ah al sh sl : Z) (frame : list byte) :
  1 <= na <= 4 -> 0 <= ns <= 4 ->
  let written := snd (stage_reg na ns ah al sh sl frame) in
  let reg := fst (stage_reg na ns ah al sh sl frame) in
  (written <= 4)%nat
  /\ ((16 <= List.length frame)%nat ->
      skipn 16 reg = skipn 16 frame /\ List.length reg = List.length frame)
  /\ reg_len na ns = (na + ns) * 4
  /\ (na <= 2 -> 1 <= ns <= 2 ->
      Z.of_nat written = na + ns
      /\ reg_len na ns = 4 * Z.of_nat written
      /\ reg_len na ns <= 16
      /\ firstn (Z.to_nat (reg_len na ns)) reg
         = flat_map be32 (staged_cells na ns ah al sh sl))
  /\ (4 < na + ns ->
      4 * Z.of_nat written < reg_len na ns /\ 16 < reg_len na ns).
Proof.
  intros Hna Hns written reg.
  pose proof (stage_reg_staged na ns ah al sh sl frame) as (Hw & _ & Hv).
  fold written reg in Hw, Hv.
  assert (Hcount : Z.of_nat written
                   = (if na >? 1 then 2 else 1) + (if ns >? 1 then 2 else 1)).
  { rewrite Hw. unfold staged_cells.
    destruct (na >? 1), (ns >? 1); reflexivity. }
  assert (Hlen : reg_len na ns = 4 * (na + ns)) by (apply reg_len_small; lia).
  split; [|split; [|split; [|split]]].
  - destruct (na >? 1), (ns >? 1); lia.
  - intros Hf. now apply stage_reg_frame.
  - lia.
  - intros Hna2 Hns1.
    assert (Hsum : Z.of_nat written = na + ns).
    { rewrite Hcount.
      destruct (Z.gtb_spec na 1), (Z.gtb_spec ns 1); lia. }
    repeat split; try lia.
    rewrite <- Hv. f_equal. lia.
  - intros Hsum. rewrite Hcount.
    destruct (na >? 1), (ns >? 1); lia.
Qed.

Lemma reg_staging_bounds_witness :
  (1 <= 2 <= 4 /\ 0 <= 2 <= 4 /\ 2 <= 2 /\ 1 <= 2 <= 2
   /\ 1 <= 3 <= 4 /\ 4 < 3 + 2)
  /\ (Z.of_nat (snd (stage_reg 2 2 1 0x80000000 0 0x1000 Examples.frame))
      = 2 + 2
      /\ reg_len 2 2 = 16)
  /\ (Z.of_nat (snd (stage_reg 3 2 1 0x80000000 0 0x1000 Examples.frame))
      = 4
      /\ reg_len 3 2 = 20).
Proof.
  split; [lia|]. split.
  - destruct (reg_staging_bounds 2 2 1 0x80000000 0 0x1000 Examples.frame)
      as (_ & _ & _ & H & _); [lia | lia |].
    destruct H as (H1 & H2 & _); [lia | lia |].
    split; [exact H1 | rewrite H2, H1; reflexivity].
  - destruct (reg_staging_bounds 3 2 1 0x80000000 0 0x1000 Examples.frame)
      as (_ & _ & H & _ & _); [lia | lia |].
    split; [reflexivity | exact H].
Defined.

(** Counterexample to C9 as stated: with one address cell and no size cell
    (counts "each at most 2", address cells at least 1) two cells are staged,
    not [na + ns = 1], and the declared length, 4 bytes, is not the 8 bytes
    staged. *)
Lemma reg_staging_without_size_cells :
  snd (stage_reg 1 0 0 0x80000000 0 0x200000 Examples.frame) = 2%nat
  /\ Z.of_nat (snd (stage_reg 1 0 0 0x80000000 0 0x200000 Examples.frame))
     <> 1 + 0
  /\ reg_len 1 0 = 4
  /\ reg_len 1 0
     <> 4 * Z.of_nat (snd (stage_reg 1 0 0 0x80000000 0 0x200000
                                     Examples.frame)).
Proof. repeat split; vm_compute; congruence. Qed.

End Staging.

(* ================================================================= *)
(** ** The convenience entry *)

Section Fixups.

(** C8, as the code has it: [fdt_fixups] is a [void] function.  It runs the
    interrupt-routing fixup for "riscv,plic0" and then the reserved-memory
    fixup on the result, hands back the world the latter left, and returns
    nothing: the status of the reserved-memory fixup is dropped. *)
Theorem fdt_fixups_returns_nothing (plat : sbi_platform)
  (frame : list byte) (w : world) :
  fdt_fixups plat frame w
  = (tt, snd (fdt_reserved_memory_fixup plat frame
                (fdt_plic_fixup w "riscv,plic0"))).
Proof.
  unfold fdt_fixups.
  now destruct (fdt_reserved_memory_fixup plat frame
                  (fdt_plic_fixup w "riscv,plic0")).
Qed.

(** Counterexample to C8 as stated: on the board without free space, with
    sixteen guard regions, the reserved-memory fixup inside [fdt_fixups]
    runs out of space (a capacity failure); run a second time on a blob it
    has already fixed, it finds its first child present (a write failure);
    on the roomy board it succeeds.  [fdt_fixups] returns the same thing to
    its caller in the three cases. *)
Lemma fdt_fixups_discards_failure :
  fst (fdt_reserved_memory_fixup Examples.guarded_platform Examples.frame
         (fdt_plic_fixup Examples.w22 "riscv,plic0"))
  = - FDT_ERR_NOSPACE
  /\ fst (fdt_reserved_memory_fixup Examples.platform Examples.frame
            (fdt_plic_fixup Examples.w22_reserved "riscv,plic0"))
     = - FDT_ERR_EXISTS
  /\ fst (fdt_reserved_memory_fixup Examples.guarded_platform Examples.frame
            (fdt_plic_fixup Examples.w22_roomy "riscv,plic0"))
     = 0
  /\ fst (fdt_fixups Examples.guarded_platform Examples.frame Examples.w22)
     = fst (fdt_fixups Examples.guarded_platform Examples.frame
              Examples.w22_roomy)
  /\ fst (fdt_fixups Examples.platform Examples.frame
            Examples.w22_reserved)
     = fst (fdt_fixups Examples.guarded_platform Examples.frame
              Examples.w22_roomy).
Proof. repeat split; vm_compute; reflexivity. Qed.

End Fixups.

(* ================================================================= *)
(** ** The device descriptor parsers *)

Section Parsers.

Lemma resolver_world (x : xlen) (w : world) (node : Z)
  (want_addr want_size : bool) :
  snd (fdt_get_node_addr_size x w node want_addr want_size) = w.
Proof.
  unfold fdt_get_node_addr_size.
  destruct (_ <? 0); [reflexivity|].
  destruct (_ <? 1); [reflexivity|].
  destruct (_ <? 0); [reflexivity|].
  now destruct (fdt_getprop (blob w) node "reg") as [[ptr|] len].
Qed.

(** Lines 259-261: the UART parser fails with "no such device", and leaves
    the descriptor alone, when the resolution fails or resolves a zero
    address or a zero size. *)
Lemma fdt_parse_uart8250_no_device (x : xlen) (w : world)
  (uart : platform_uart_data) (compatible : string) :
  let node := fdt_node_offset_by_compatible (blob w) (-1) compatible in
  let r := fst (fdt_get_node_addr_size x w node true true) in
  0 <= node ->
  fst (fst r) < 0 \/ snd (fst r) = Some 0 \/ snd r = Some 0 ->
  fdt_parse_uart8250 x w uart compatible = ((SBI_ENODEV, uart), w).
Proof.
  intros node r Hnode H. unfold fdt_parse_uart8250. fold node.
  destruct (Z.ltb_spec node 0); [lia|].
  pose proof (resolver_world x w node true true) as Hw. subst r.
  destruct (fdt_get_node_addr_size x w node true true)
    as [[[rc a] s] w1]. cbn [fst snd] in *. subst w1.
  destruct H as [H | [-> | ->]].
  - destruct (Z.ltb_spec rc 0); [reflexivity | lia].
  - cbn [is_zero Z.eqb]. now rewrite orb_true_r.
  - cbn [is_zero Z.eqb]. now rewrite orb_true_r.
Qed.

(** Lines 290-292: so does the PLIC parser. *)
Lemma fdt_parse_plic_no_device (x : xlen) (w : world)
  (plic : platform_plic_data) (compatible : string) :
  let node := fdt_node_offset_by_compatible (blob w) (-1) compatible in
  let r := fst (fdt_get_node_addr_size x w node true true) in
  0 <= node ->
  fst (fst r) < 0 \/ snd (fst r) = Some 0 \/ snd r = Some 0 ->
  fdt_parse_plic x w plic compatible = ((SBI_ENODEV, plic), w).
Proof.
  intros node r Hnode H. unfold fdt_parse_plic. fold node.
  destruct (Z.ltb_spec node 0); [lia|].
  pose proof (resolver_world x w node true true) as Hw. subst r.
  destruct (fdt_get_node_addr_size x w node true true)
    as [[[rc a] s] w1]. cbn [fst snd] in *. subst w1.
  destruct H as [H | [-> | ->]].
  - destruct (Z.ltb_spec rc 0); [reflexivity | lia].
  - cbn [is_zero Z.eqb]. now rewrite orb_true_r.
  - cbn [is_zero Z.eqb]. now rewrite orb_true_r.
Qed.

(** Lines 311-313: the CLINT parser fails with "no such device" when the
    resolution fails, or when it was handed a NULL pointer. *)
Lemma fdt_parse_clint_no_device (x : xlen) (w : world)
  (clint_addr_ptr : bool) (compatible : string) :
  let node := fdt_node_offset_by_compatible (blob w) (-1) compatible in
  let r := fst (fdt_get_node_addr_size x w node clint_addr_ptr false) in
  0 <= node ->
  fst (fst r) < 0 \/ clint_addr_ptr = false ->
  fst (fst (fdt_parse_clint x w clint_addr_ptr compatible)) = SBI_ENODEV.
Proof.
  intros node r Hnode H. unfold fdt_parse_clint. fold node.
  destruct (Z.ltb_spec node 0); [lia|]. subst r.
  destruct (fdt_get_node_addr_size x w node clint_addr_ptr false)
    as [[[rc a] s] w1]. cbn [fst snd] in *.
  destruct H as [H | ->].
  - destruct (Z.ltb_spec rc 0); [reflexivity | lia].
  - now rewrite orb_true_r.
Qed.

(** ... but the value stored through the pointer is not looked at: where
    the resolution succeeds, the CLINT parser returns 0 whatever address
    was resolved. *)
Lemma fdt_parse_clint_any_address (x : xlen) (w : world)
  (compatible : string) :
  let node := fdt_node_offset_by_compatible (blob w) (-1) compatible in
  let r := fst (fdt_get_node_addr_size x w node true false) in
  0 <= node -> fst (fst r) = 0 ->
  fdt_parse_clint x w true compatible = ((0, snd (fst r)), w).
Proof.
  intros node r Hnode H. unfold fdt_parse_clint. fold node.
  destruct (Z.ltb_spec node 0); [lia|].
  pose proof (resolver_world x w node true false) as Hw. subst r.
  destruct (fdt_get_node_addr_size x w node true false)
    as [[[rc a] s] w1]. cbn [fst snd] in *. subst w1 rc. reflexivity.
Qed.

(** C3, at the failing input: a CLINT node whose [reg] resolves to address
    0.  The resolution succeeds with address 0, and the CLINT parser
    returns 0 and stores the zero address, where the UART parser, on the
    same node, returns "no such device". *)
Theorem fdt_parse_clint_accepts_zero_address :
  fst (fdt_get_node_addr_size RV64 Examples.w22_clint_at_zero
         (fdt_node_offset_by_compatible
            (blob Examples.w22_clint_at_zero) (-1) "riscv,clint0")
         true false)
  = (0, Some 0, None)
  /\ fdt_parse_clint RV64 Examples.w22_clint_at_zero true "riscv,clint0"
     = ((0, Some 0), Examples.w22_clint_at_zero)
  /\ fdt_parse_uart8250 RV64 Examples.w22_clint_at_zero (mk_uart 1 2 3)
       "riscv,clint0"
     = ((SBI_ENODEV, mk_uart 1 2 3), Examples.w22_clint_at_zero).
Proof. repeat split; vm_compute; reflexivity. Qed.

End Parsers.

(* ================================================================= *)
(** ** The theorems at work on the example board *)

Section Witnesses.

Ltac closed := vm_compute; repeat split; congruence.

Lemma resolver_fails_exactly_witness :
  fdt_parent_offset (blob Examples.w22) 0 < 0
  /\ fst (fst (fst (fdt_get_node_addr_size RV64 Examples.w22 0 true true)))
     = - FDT_ERR_NOTFOUND.
Proof.
  assert (H : fdt_parent_offset (blob Examples.w22) 0 < 0)
    by (vm_compute; reflexivity).
  split; [exact H|].
  destruct (resolver_fails_exactly RV64 Examples.w22 0 true true)
    as (_ & Hp & _).
  rewrite (Hp H). vm_compute. reflexivity.
Defined.

Lemma resolver_ignores_reg_length_witness :
  (0 <= fdt_parent_offset (blob Examples.w22) 27
   /\ 1 <= fdt_address_cells (blob Examples.w22)
             (fdt_parent_offset (blob Examples.w22) 27)
   /\ 0 <= fdt_size_cells (blob Examples.w22)
             (fdt_parent_offset (blob Examples.w22) 27)
   /\ fdt_getprop (blob Examples.w22) 27 "reg" = (Some 28%nat, 4))
  /\ fdt_get_node_addr_size RV64 Examples.w22 27 true true
     = ((0, Some 0x300000000002, Some 0x200000002), Examples.w22).
Proof.
  assert (H : 0 <= fdt_parent_offset (blob Examples.w22) 27
   /\ 1 <= fdt_address_cells (blob Examples.w22)
             (fdt_parent_offset (blob Examples.w22) 27)
   /\ 0 <= fdt_size_cells (blob Examples.w22)
             (fdt_parent_offset (blob Examples.w22) 27)
   /\ fdt_getprop (blob Examples.w22) 27 "reg" = (Some 28%nat, 4))
    by closed.
  split; [exact H|]. destruct H as (Hp & Ha & Hs & Hg).
  destruct (resolver_ignores_reg_length RV64 Examples.w22 27 28 4
              Hp Ha Hs Hg) as (v & rest & _ & _ & Hm & Hr & _).
  rewrite Hr, <- Hm. vm_compute. reflexivity.
Defined.

Lemma reg_roundtrip_witness :
  ((2 = 1 \/ 2 = 2) /\ (2 = 1 \/ 2 = 2)
   /\ 0 <= 0x180000000 < 2 ^ (32 * 2)
   /\ 0x180000000 < 2 ^ BITS_PER_LONG RV64
   /\ 0 <= 0x1000 < 2 ^ (32 * 2)
   /\ 0x1000 < 2 ^ BITS_PER_LONG RV64
   /\ 0 <= fdt_parent_offset (blob Examples.w22_reserved) 7
   /\ fdt_address_cells (blob Examples.w22_reserved)
        (fdt_parent_offset (blob Examples.w22_reserved) 7) = 2
   /\ fdt_size_cells (blob Examples.w22_reserved)
        (fdt_parent_offset (blob Examples.w22_reserved) 7) = 2
   /\ fdt_getprop (blob Examples.w22_reserved) 7 "reg" = (Some 8%nat, 16)
   /\ nth_error (dt_struct (blob Examples.w22_reserved)) 8
      = Some (FDT_PROP "reg"
                (reg_value 2 2 0x180000000 0x1000 Examples.frame)))
  /\ fdt_get_node_addr_size RV64 Examples.w22_reserved 7 true true
     = ((0, Some 0x180000000, Some 0x1000), Examples.w22_reserved).
Proof.
  assert (H : (2 = 1 \/ 2 = 2) /\ (2 = 1 \/ 2 = 2)
   /\ 0 <= 0x180000000 < 2 ^ (32 * 2)
   /\ 0x180000000 < 2 ^ BITS_PER_LONG RV64
   /\ 0 <= 0x1000 < 2 ^ (32 * 2)
   /\ 0x1000 < 2 ^ BITS_PER_LONG RV64
   /\ 0 <= fdt_parent_offset (blob Examples.w22_reserved) 7
   /\ fdt_address_cells (blob Examples.w22_reserved)
        (fdt_parent_offset (blob Examples.w22_reserved) 7) = 2
   /\ fdt_size_cells (blob Examples.w22_reserved)
        (fdt_parent_offset (blob Examples.w22_reserved) 7) = 2
   /\ fdt_getprop (blob Examples.w22_reserved) 7 "reg" = (Some 8%nat, 16)
   /\ nth_error (dt_struct (blob Examples.w22_reserved)) 8
      = Some (FDT_PROP "reg"
                (reg_value 2 2 0x180000000 0x1000 Examples.frame))).
  { split; [now right|]. split; [now right|]. closed. }
  split; [exact H|].
  destruct H as (H1 & H2 & H3 & H4 & H5 & H6 & H7 & H8 & H9 & H10 & H11).
  exact (proj2 (reg_roundtrip RV64 Examples.w22_reserved 7 2 2 0x180000000
                  0x1000 Examples.frame 8 16
                  H1 H2 H3 H4 H5 H6 H7 H8 H9 H10 H11)).
Defined.

Lemma reserved_memory_children_witness :
  (sbi_platform_has_pmp Examples.platform = true
   /\ fdt_reserved_memory_fixup Examples.platform Examples.frame
        Examples.w22
      = (0, Examples.w22_reserved))
  /\ (In 2%nat (eligible_regions Examples.platform (seq 0 PMP_COUNT))
      <-> (2 < PMP_COUNT)%nat
          /\ region_active (region_prot Examples.platform 2) = true
          /\ grants_read (region_prot Examples.platform 2) = false
          /\ grants_write (region_prot Examples.platform 2) = false
          /\ grants_exec (region_prot Examples.platform 2) = false).
Proof.
  assert (H : sbi_platform_has_pmp Examples.platform = true
   /\ fdt_reserved_memory_fixup Examples.platform Examples.frame
        Examples.w22
      = (0, Examples.w22_reserved)) by (split; vm_compute; reflexivity).
  split; [exact H|]. destruct H as [H1 H2].
  exact (proj1 (reserved_memory_children Examples.platform
                  Examples.frame Examples.w22 Examples.w22_reserved H1 H2)
               2%nat).
Defined.

Lemma cpu_fixup_hart_effect_witness :
  (fdt_path_offset (blob Examples.w22) "/cpus/cpu@2" < 0
   /\ sbi_platform_hart_invalid Examples.platform 2 = true)
  /\ blob (cpu_fixup_hart Examples.platform Examples.w22 2)
     = blob Examples.w22
  /\ calls (cpu_fixup_hart Examples.platform Examples.w22 2)
     = [Call_setprop (fdt_path_offset (blob Examples.w22) "/cpus/cpu@2")
          "status" disabled].
Proof.
  assert (H : fdt_path_offset (blob Examples.w22) "/cpus/cpu@2" < 0
   /\ sbi_platform_hart_invalid Examples.platform 2 = true)
    by (split; vm_compute; reflexivity).
  split; [exact H|]. destruct H as [H1 H2].
  destruct (cpu_fixup_hart_effect Examples.platform Examples.w22 2)
    as (_ & Hc & Hb & _).
  split; [exact (Hb H1) | exact (Hc H2)].
Defined.

(** Counterexample to C4 as stated: harts 2 and 3 are invalid and have no
    node; the lookups of their paths fail, and the fixup issues the
    property write for each of them all the same, with the negative result
    of the lookup as the node offset. *)
Lemma cpu_fixup_writes_after_failed_lookup :
  sbi_platform_hart_invalid Examples.platform 2 = true
  /\ fdt_path_offset (blob Examples.w22) "/cpus/cpu@2" = - FDT_ERR_NOTFOUND
  /\ fdt_path_offset (blob (fdt_cpu_fixup Examples.platform
                              Examples.w22)) "/cpus/cpu@2"
     = - FDT_ERR_NOTFOUND
  /\ writes_at_failed_lookup
       (calls (fdt_cpu_fixup Examples.platform Examples.w22))
     = [Call_setprop (-1) "status" disabled;
        Call_setprop (-1) "status" disabled].
Proof. repeat split; vm_compute; reflexivity. Qed.

Lemma plic_fixup_frame_witness :
  nth_error (dt_struct (blob (fdt_plic_fixup Examples.w22 "riscv,plic0"))) 15
  = Some (FDT_PROP "interrupts-extended"
            (Examples.cells [1; 0xffffffff; 1; 9; 2; 0xffffffff; 2; 9; 11]))
  /\ calls (fdt_plic_fixup Examples.w22 "riscv,plic0") = calls Examples.w22.
Proof.
  split; [vm_compute; reflexivity|].
  pose proof (plic_fixup_frame Examples.w22 "riscv,plic0") as H.
  cbv zeta in H.
  destruct (fdt_getprop (blob Examples.w22)
              (fdt_node_offset_by_compatible (blob Examples.w22) 0
                 "riscv,plic0") "interrupts-extended")
    as [[cells|] len].
  - destruct H as (v & v' & _ & Hrun & _). now rewrite Hrun.
  - now rewrite H.
Defined.

(** The example of the specification: two address and two size cells, an
    eligible region at 0x80000000 of size 0x200000.  The child is named
    [mmode_pmp0@80000000], its [reg] decodes back to the region, and it has
    an empty [no-map] property; the region that only grants read access has
    no child. *)
Example reserved_memory_example :
  fdt_path_offset (blob Examples.w22_reserved)
    "/reserved-memory/mmode_pmp0@80000000" = 11
  /\ fst (fdt_get_node_addr_size RV64 Examples.w22_reserved 11 true true)
     = (0, Some 0x80000000, Some 0x200000)
  /\ fdt_getprop (blob Examples.w22_reserved) 11 "no-map" = (Some 13%nat, 0)
  /\ region_prot Examples.platform 3 = 0x19
  /\ eligible (region_prot Examples.platform 3) = false
  /\ fdt_path_offset (blob Examples.w22_reserved)
       "/reserved-memory/mmode_pmp2@20000000" = - FDT_ERR_NOTFOUND.
Proof. repeat split; vm_compute; reflexivity. Qed.

End Witnesses.

(* ================================================================= *)
(** ** Lookups in a blob that a write changed *)

Section Lookup.

Lemma find_subnode_ge (name : string) (l : list token) :
  forall idx d i, find_subnode name l idx d = Some i -> (idx <= i)%nat.
Proof.
  induction l as [|t l IH]; intros idx d i H; [discriminate|].
  destruct t; cbn [find_subnode] in H.
  - destruct (_ && _); [injection H as <-; lia|].
    apply IH in H. lia.
  - destruct d; [discriminate|]. apply IH in H. lia.
  - apply IH in H. lia.
  - apply IH in H. lia.
Qed.

Lemma find_subnode_S (name : string) (l : list token) :
  forall idx d,
  find_subnode name l (S idx) d = option_map S (find_subnode name l idx d).
Proof.
  induction l as [|t l IH]; intros idx d; [reflexivity|].
  destruct t; cbn [find_subnode].
  - destruct (_ && _); [reflexivity|]. apply IH.
  - destruct d; [reflexivity|]. apply IH.
  - apply IH.
  - apply IH.
Qed.

(** A property tag that is inserted moves the children found after it by
    one place, and no other. *)
Lemma find_subnode_insert (name : string) (x : token) (l2 : list token) :
  is_prop x = true ->
  forall l1 idx d,
  find_subnode name (l1 ++ x :: l2) idx d
  = option_map (fun i => if (i <? idx + List.length l1)%nat then i else S i)
      (find_subnode name (l1 ++ l2) idx d).
Proof.
  intros Hx. induction l1 as [|t l1 IH]; intros idx d.
  - cbn [app List.length]. 
    assert (E : find_subnode name (x :: l2) idx d
                = find_subnode name l2 (S idx) d)
      by (destruct x; try discriminate; reflexivity).
    rewrite E, find_subnode_S.
    destruct (find_subnode name l2 idx d) as [i|] eqn:F; [|reflexivity].
    apply find_subnode_ge in F. cbn [option_map].
    destruct (Nat.ltb_spec i (idx + 0)); [lia | reflexivity].
  - assert (Hf : forall o : option nat,
               (forall i, o = Some i -> (S idx <= i)%nat) ->
               option_map (fun i => if (i <? S idx + List.length l1)%nat
                                    then i else S i) o
               = option_map (fun i => if (i <? idx + S (List.length l1))%nat
                                      then i else S i) o).
    { intros [i|] _; [|reflexivity]. cbn [option_map].
      now rewrite Nat.add_succ_r. }
    destruct t; cbn [app find_subnode List.length].
    + destruct (_ && _).
      * cbn [option_map].
        destruct (Nat.ltb_spec idx (idx + S (List.length l1)));
          [reflexivity | lia].
      * rewrite IH. apply Hf. intros i. apply find_subnode_ge.
    + destruct d.
      * reflexivity.
      * rewrite IH. apply Hf. intros i. apply find_subnode_ge.
    + rewrite IH. apply Hf. intros i. apply find_subnode_ge.
    + rewrite IH. apply Hf. intros i. apply find_subnode_ge.
Qed.

(** The children of a node do not depend on the properties. *)
Lemma find_subnode_replace (name : string) (x y : token) (l2 : list token) :
  is_prop x = true -> is_prop y = true ->
  forall l1 idx d,
  find_subnode name (l1 ++ x :: l2) idx d
  = find_subnode name (l1 ++ y :: l2) idx d.
Proof.
  intros Hx Hy. induction l1 as [|t l1 IH]; intros idx d.
  - destruct x, y; try discriminate; reflexivity.
  - destruct t; cbn [app find_subnode]; rewrite ?IH; try reflexivity.
    destruct d; [reflexivity | apply IH].
Qed.

Lemma find_prop_value (name : string) (l : list token) (idx idx' : nat) :
  option_map snd (find_prop name l idx)
  = option_map snd (find_prop name l idx').
Proof.
  revert idx idx'. induction l as [|t l IH]; intros idx idx'; [reflexivity|].
  destruct t; cbn [find_prop]; try reflexivity.
  - destruct (String.eqb _ _); [reflexivity|]. apply IH.
  - apply IH.
Qed.

(** The properties of a node end at the first tag that is not one. *)
Lemma find_prop_prefix (name : string) (x y : list token) :
  forall l idx,
  forallb is_prop l = false ->
  find_prop name (l ++ x) idx = find_prop name (l ++ y) idx.
Proof.
  induction l as [|t l IH]; intros idx H; [discriminate|].
  destruct t; cbn [app find_prop]; try reflexivity.
  - destruct (String.eqb _ _); [reflexivity|]. now apply IH.
  - now apply IH.
Qed.

(** The value of the first property of a name, after one property of that
    name was given the value [val]. *)
Lemma find_prop_rewritten (name : string) (old val : list byte)
  (l2 : list token) :
  forall l1 idx,
  option_map snd (find_prop name (l1 ++ FDT_PROP name val :: l2) idx)
  = match find_prop name (l1 ++ FDT_PROP name old :: l2) idx with
    | Some (k, v) =>
        Some (if (k =? idx + List.length l1)%nat then val else v)
    | None => None
    end.
Proof.
  induction l1 as [|t l1 IH]; intros idx.
  - cbn. rewrite String.eqb_refl. cbn. now rewrite Nat.add_0_r, Nat.eqb_refl.
  - assert (Hs : forall o : option (nat * list byte),
               (forall k v, o = Some (k, v) -> (S idx <= k)%nat) ->
               match o with
               | Some (k, v) =>
                   Some (if (k =? S idx + List.length l1)%nat then val else v)
               | None => None
               end
               = match o with
                 | Some (k, v) =>
                     Some (if (k =? idx + S (List.length l1))%nat
                           then val else v)
                 | None => None
                 end).
    { intros [[k v]|] _; [|reflexivity]. now rewrite Nat.add_succ_r. }
    destruct t; cbn [app find_prop List.length]; try reflexivity.
    + destruct (String.eqb _ _).
      * cbn. destruct (Nat.eqb_spec idx (idx + S (List.length l1)));
          [lia | reflexivity].
      * rewrite IH. apply Hs. intros k v H.
        now apply find_prop_sound in H.
    + rewrite IH. apply Hs. intros k v H. now apply find_prop_sound in H.
Qed.

Lemma nth_error_insert {A} (l : list A) (p : nat) (x : A) (n : nat) :
  (p <= List.length l)%nat ->
  nth_error (firstn p l ++ x :: skipn p l) (if (n <? p)%nat then n else S n)
  = nth_error l n.
Proof.
  intros Hp.
  assert (Hl : List.length (firstn p l) = p) by (rewrite length_firstn; lia).
  destruct (Nat.ltb_spec n p).
  - rewrite nth_error_app1 by lia. rewrite nth_error_firstn.
    destruct (Nat.ltb_spec n p); [reflexivity | lia].
  - rewrite nth_error_app2 by lia. rewrite Hl.
    replace (S n - p)%nat with (S (n - p)) by lia. cbn [nth_error].
    rewrite nth_error_skipn. f_equal. lia.
Qed.

Lemma skipn_insert_after {A} (l : list A) (p : nat) (x : A) (n : nat) :
  (p <= List.length l)%nat -> (p <= n)%nat ->
  skipn (S n) (firstn p l ++ x :: skipn p l) = skipn n l.
Proof.
  intros Hp Hn.
  assert (Hl : List.length (firstn p l) = p) by (rewrite length_firstn; lia).
  rewrite skipn_app, Hl, skipn_all2 by lia.
  replace (S n - p)%nat with (S (n - p)) by lia. cbn [app skipn].
  rewrite skipn_skipn. f_equal. lia.
Qed.

Lemma skipn_insert_before {A} (l : list A) (p : nat) (x : A) (n : nat) :
  (p <= List.length l)%nat -> (n <= p)%nat ->
  exists l1,
    skipn n (firstn p l ++ x :: skipn p l) = (l1 ++ x :: skipn p l)%list
    /\ skipn n l = (l1 ++ skipn p l)%list
    /\ List.length l1 = (p - n)%nat.
Proof.
  intros Hp Hn.
  assert (Hl : List.length (firstn p l) = p) by (rewrite length_firstn; lia).
  exists (firstn (p - n) (skipn n l)). split; [|split].
  - rewrite skipn_app, Hl. replace (n - p)%nat with 0%nat by lia.
    cbn [skipn]. f_equal. rewrite skipn_firstn_comm. reflexivity.
  - rewrite <- (firstn_skipn (p - n) (skipn n l)) at 1.
    rewrite skipn_skipn. do 2 f_equal. lia.
  - rewrite length_firstn, length_skipn. lia.
Qed.

Lemma shift_negative (p : nat) (n : Z) : n < 0 -> shift p n = n.
Proof. intros H. unfold shift. destruct (Z.ltb_spec n (Z.of_nat p)); lia. Qed.

Lemma shift_sign (p : nat) (n : Z) : (shift p n <? 0) = (n <? 0).
Proof.
  unfold shift. destruct (Z.ltb_spec n (Z.of_nat p)); [reflexivity|].
  destruct (Z.ltb_spec (n + 1) 0), (Z.ltb_spec n 0); lia || reflexivity.
Qed.

Lemma shift_nat (p : nat) (n : Z) :
  0 <= n ->
  Z.to_nat (shift p n)
  = if (Z.to_nat n <? p)%nat then Z.to_nat n else S (Z.to_nat n).
Proof.
  intros Hn. unfold shift.
  destruct (Z.ltb_spec n (Z.of_nat p)), (Nat.ltb_spec (Z.to_nat n) p); lia.
Qed.

End Lookup.

Section PathStability.

Variables b b' : fdt.
Variable p : nat.
Variable x : token.
Hypothesis Hmagic : fdt_magic b' = fdt_magic b.
Hypothesis Hx : is_prop x = true.
Hypothesis Hp : (1 <= p <= List.length (dt_struct b))%nat.
Hypothesis Hts :
  dt_struct b' = (firstn p (dt_struct b) ++ x :: skipn p (dt_struct b))%list.

Lemma node_at_insert (n : Z) : node_at b' (shift p n) = node_at b n.
Proof.
  unfold node_at. rewrite shift_sign.
  destruct (Z.ltb_spec n 0); [reflexivity|].
  rewrite shift_nat, Hts by assumption.
  now rewrite nth_error_insert by lia.
Qed.

Lemma subnode_offset_insert (n : Z) (c : string) :
  0 <= n ->
  fdt_subnode_offset b' (shift p n) c = shift p (fdt_subnode_offset b n c).
Proof.
  intros Hn. unfold fdt_subnode_offset. rewrite node_at_insert.
  destruct (node_at b n); [|now rewrite shift_negative by reflexivity].
  rewrite shift_nat, Hts by assumption.
  destruct (Nat.ltb_spec (Z.to_nat n) p) as [Hlt | Hge].
  - destruct (skipn_insert_before (dt_struct b) p x (S (Z.to_nat n)))
      as (l1 & E1 & E2 & E3); [lia | lia |].
    rewrite E1, E2, find_subnode_insert by assumption.
    rewrite E3.
    destruct (find_subnode c _ _ 0) as [i|]; cbn [option_map];
      [|now rewrite shift_negative by reflexivity].
    unfold shift.
    replace (S (Z.to_nat n) + (p - S (Z.to_nat n)))%nat with p by lia.
    destruct (Nat.ltb_spec i p), (Z.ltb_spec (Z.of_nat i) (Z.of_nat p)); lia.
  - rewrite skipn_insert_after by lia. rewrite find_subnode_S.
    destruct (find_subnode c _ _ 0) as [i|] eqn:F; cbn [option_map];
      [|now rewrite shift_negative by reflexivity].
    apply find_subnode_ge in F. unfold shift.
    destruct (Z.ltb_spec (Z.of_nat i) (Z.of_nat p)); lia.
Qed.

Lemma path_fold_insert (cs : list string) :
  forall n,
  fold_left (fun off c => if off <? 0 then off
                          else fdt_subnode_offset b' off c) cs (shift p n)
  = shift p (fold_left (fun off c => if off <? 0 then off
                                     else fdt_subnode_offset b off c) cs n).
Proof.
  induction cs as [|c cs IH]; intros n; [reflexivity|].
  cbn [fold_left]. rewrite shift_sign.
  destruct (Z.ltb_spec n 0); [apply IH|].
  rewrite subnode_offset_insert by assumption. apply IH.
Qed.

(** A path leads to the same node after a property tag was inserted. *)
Lemma path_offset_insert (path : string) :
  fdt_path_offset b' path = shift p (fdt_path_offset b path).
Proof.
  unfold fdt_path_offset, probe. rewrite Hmagic.
  destruct (negb _); [now rewrite shift_negative by reflexivity|].
  destruct path as [|c path]; [now rewrite shift_negative by reflexivity|].
  destruct (Ascii.eqb_spec c "/") as [-> | Hne].
  - assert (E0 : shift p 0 = 0)
      by (unfold shift; destruct (Z.ltb_spec 0 (Z.of_nat p)); lia).
    rewrite <- E0 at 1. apply path_fold_insert.
  - destruct c as [[] [] [] [] [] [] [] []];
      try (now rewrite shift_negative by reflexivity).
    now contradiction Hne.
Qed.

End PathStability.

Section Replaced.

Lemma same_list {A} (l : list A) (idx : nat) (a : A) :
  nth_error l idx = Some a -> (firstn idx l ++ a :: skipn (S idx) l)%list = l.
Proof.
  intros H. rewrite <- (skipn_cons_nth _ _ _ H). apply firstn_skipn.
Qed.

Lemma skipn_replaced_before {A} (l : list A) (idx n : nat) (a old : A) :
  nth_error l idx = Some old -> (n <= idx)%nat ->
  exists l1,
    skipn n (firstn idx l ++ a :: skipn (S idx) l)
    = (l1 ++ a :: skipn (S idx) l)%list
    /\ skipn n l = (l1 ++ old :: skipn (S idx) l)%list
    /\ List.length l1 = (idx - n)%nat.
Proof.
  intros H Hn.
  assert (Hi : (idx < List.length l)%nat) by (apply nth_error_Some; congruence).
  assert (Hs : skipn (S (idx - n)) (skipn n l) = skipn (S idx) l)
    by (rewrite skipn_skipn; f_equal; lia).
  exists (firstn (idx - n) (skipn n l)). split; [|split].
  - rewrite skip_after_replace by lia. now rewrite Hs.
  - rewrite <- (same_list l idx old H) at 1.
    rewrite skip_after_replace by lia. now rewrite Hs.
  - rewrite length_firstn, length_skipn. lia.
Qed.

Lemma skipn_replaced_after {A} (l : list A) (idx n : nat) (a : A) :
  (idx < n)%nat -> (idx < List.length l)%nat ->
  skipn n (firstn idx l ++ a :: skipn (S idx) l) = skipn n l.
Proof.
  intros Hn Hi.
  assert (Hl : List.length (firstn idx l) = idx)
    by (rewrite length_firstn; lia).
  rewrite skipn_app, Hl, skipn_all2 by lia.
  replace (n - idx)%nat with (S (n - S idx)) by lia. cbn [app].
  rewrite skipn_cons, skipn_skipn. f_equal. lia.
Qed.

Lemma nth_error_replaced_other {A} (l : list A) (idx k : nat) (a : A) :
  (idx < List.length l)%nat -> k <> idx ->
  nth_error (firstn idx l ++ a :: skipn (S idx) l) k = nth_error l k.
Proof.
  intros Hi Hk.
  assert (Hl : List.length (firstn idx l) = idx)
    by (rewrite length_firstn; lia).
  destruct (Nat.ltb_spec k idx).
  - rewrite nth_error_app1 by lia. rewrite nth_error_firstn.
    destruct (Nat.ltb_spec k idx); [reflexivity | lia].
  - rewrite nth_error_app2 by lia. rewrite Hl.
    replace (k - idx)%nat with (S (k - S idx)) by lia. cbn [nth_error].
    rewrite nth_error_skipn. f_equal. lia.
Qed.

Variable b : fdt.
Variable idx : nat.
Variable nm : string.
Variables old val : list byte.
Hypothesis Hold : nth_error (dt_struct b) idx = Some (FDT_PROP nm old).

Lemma idx_in_struct : (idx < List.length (dt_struct b))%nat.
Proof. apply nth_error_Some. congruence. Qed.

Lemma node_at_with_value (n : Z) :
  node_at (with_value b idx nm val) n = node_at b n.
Proof.
  unfold node_at, with_value. cbn [dt_struct set_struct].
  destruct (n <? 0); [reflexivity|].
  destruct (Nat.eq_dec (Z.to_nat n) idx) as [-> | Hne].
  - rewrite nth_error_replace by apply idx_in_struct. now rewrite Hold.
  - now rewrite nth_error_replaced_other by (apply idx_in_struct || exact Hne).
Qed.

Lemma subnode_offset_with_value (n : Z) (c : string) :
  fdt_subnode_offset (with_value b idx nm val) n c = fdt_subnode_offset b n c.
Proof.
  unfold fdt_subnode_offset. rewrite node_at_with_value.
  destruct (node_at b n); [|reflexivity].
  unfold with_value. cbn [dt_struct set_struct].
  destruct (Nat.ltb_spec idx (S (Z.to_nat n))).
  - now rewrite skipn_replaced_after by (lia || apply idx_in_struct).
  - destruct (skipn_replaced_before (dt_struct b) idx (S (Z.to_nat n))
                (FDT_PROP nm val) _ Hold) as (l1 & E1 & E2 & _); [lia|].
    rewrite E1, E2.
    now rewrite (find_subnode_replace c (FDT_PROP nm val) (FDT_PROP nm old)).
Qed.

(** A path leads to the same node after a property was given another
    value. *)
Lemma path_offset_with_value (path : string) :
  fdt_path_offset (with_value b idx nm val) path = fdt_path_offset b path.
Proof.
  unfold fdt_path_offset. change (probe (with_value b idx nm val))
    with (probe b).
  destruct (negb _); [reflexivity|].
  destruct path as [|c path]; [reflexivity|].
  destruct c as [[] [] [] [] [] [] [] []]; try reflexivity.
  assert (H : forall cs n,
             fold_left (fun off c =>
                          if off <? 0 then off
                          else fdt_subnode_offset (with_value b idx nm val)
                                 off c) cs n
             = fold_left (fun off c => if off <? 0 then off
                                       else fdt_subnode_offset b off c) cs n).
  { induction cs as [|c cs IH]; intros n; [reflexivity|].
    cbn [fold_left]. destruct (n <? 0); [apply IH|].
    rewrite subnode_offset_with_value. apply IH. }
  apply H.
Qed.

Lemma node_prop_with_value (n : Z) :
  node_prop b n nm = Some val ->
  node_prop (with_value b idx nm val) n nm = Some val.
Proof.
  unfold node_prop. rewrite node_at_with_value.
  destruct (node_at b n); [|discriminate].
  unfold with_value. cbn [dt_struct set_struct].
  destruct (Nat.ltb_spec idx (S (Z.to_nat n))).
  - now rewrite skipn_replaced_after by (lia || apply idx_in_struct).
  - destruct (skipn_replaced_before (dt_struct b) idx (S (Z.to_nat n))
                (FDT_PROP nm val) _ Hold) as (l1 & E1 & E2 & _); [lia|].
    rewrite E1, E2. rewrite (find_prop_rewritten nm old val).
    destruct (find_prop nm _ _) as [[k v]|]; [|discriminate].
    cbn [option_map snd]. intros [= ->]. now destruct (_ =? _)%nat.
Qed.

End Replaced.

Section Inserted.

Variables b b' : fdt.
Variable p : nat.
Variables nm parent : string.
Variable val : list byte.
Hypothesis Hmagic : fdt_magic b' = fdt_magic b.
Hypothesis Hp : (1 <= p <= List.length (dt_struct b))%nat.
Hypothesis Hnode :
  nth_error (dt_struct b) (p - 1) = Some (FDT_BEGIN_NODE parent).
Hypothesis Hts :
  dt_struct b'
  = (firstn p (dt_struct b) ++ FDT_PROP nm val :: skipn p (dt_struct b))%list.

Lemma not_all_props (l : list token) (k : nat) (t : token) :
  nth_error l k = Some t -> is_prop t = false -> forallb is_prop l = false.
Proof.
  revert k. induction l as [|h l IH]; intros k H Ht; [now destruct k|].
  destruct k as [|k]; cbn [nth_error] in H; cbn [forallb].
  - injection H as ->. now rewrite Ht.
  - rewrite (IH _ H Ht). apply andb_false_r.
Qed.

Lemma node_prop_insert (n : Z) :
  node_prop b n nm = Some val -> node_prop b' (shift p n) nm = Some val.
Proof.
  unfold node_prop.
  rewrite (node_at_insert b b' p (FDT_PROP nm val) Hp Hts).
  destruct (node_at b n) eqn:Hn; [|discriminate].
  assert (H0 : 0 <= n).
  { destruct (Z.ltb_spec n 0); [|assumption].
    now rewrite node_at_negative in Hn. }
  rewrite shift_nat, Hts by assumption.
  destruct (Nat.ltb_spec (Z.to_nat n) p) as [Hlt | Hge].
  - destruct (skipn_insert_before (dt_struct b) p (FDT_PROP nm val)
                (S (Z.to_nat n))) as (l1 & E1 & E2 & E3); [lia | lia |].
    rewrite E1, E2.
    destruct (Nat.eq_dec (S (Z.to_nat n)) p) as [Heq | Hne].
    + destruct l1; [|cbn in E3; lia]. cbn [app find_prop].
      now rewrite String.eqb_refl.
    + assert (Hl1 : forallb is_prop l1 = false).
      { apply (not_all_props l1 (p - 1 - S (Z.to_nat n))
                 (FDT_BEGIN_NODE parent)); [|reflexivity].
        rewrite <- Hnode.
        transitivity (nth_error (skipn (S (Z.to_nat n)) (dt_struct b))
                        (p - 1 - S (Z.to_nat n))).
        - rewrite E2, nth_error_app1 by lia. reflexivity.
        - rewrite nth_error_skipn. f_equal. lia. }
      now rewrite (find_prop_prefix nm
                     (FDT_PROP nm val :: skipn p (dt_struct b))
                     (skipn p (dt_struct b)) l1 _ Hl1).
  - rewrite (skipn_insert_after (dt_struct b) p _ (S (Z.to_nat n))) by lia.
    now rewrite (find_prop_value nm _ (S (S (Z.to_nat n))) (S (Z.to_nat n))).
Qed.

End Inserted.

Section Status.

Lemma setprop_header (b : fdt) (off : Z) (name : string) (val : list byte) :
  let b' := snd (fdt_setprop b off name val) in
  fdt_magic b' = fdt_magic b /\ fdt_totalsize b' = fdt_totalsize b
  /\ fdt_rsvmap_size b' = fdt_rsvmap_size b.
Proof.
  unfold fdt_setprop.
  repeat match goal with
         | |- context [if ?c then _ else _] => destruct c
         | |- context [match ?c with _ => _ end] => destruct c
         end; cbn; auto.
Qed.


Lemma getprop_node_prop (b : fdt) (n : Z) (name : string) (ptr : nat)
  (len : Z) (v : list byte) :
  fdt_getprop b n name = (Some ptr, len) ->
  nth_error (dt_struct b) ptr = Some (FDT_PROP name v) ->
  node_prop b n name = Some v.
Proof.
  unfold fdt_getprop, node_prop. destruct (node_at b n); [|discriminate].
  destruct (find_prop name _ _) as [[k v']|] eqn:E; [|discriminate].
  intros [= <- _] H. apply find_prop_nth in E. cbn. congruence.
Qed.

Lemma node_prop_getprop (b : fdt) (n : Z) (name : string) (v : list byte) :
  node_prop b n name = Some v ->
  exists ptr,
    fdt_getprop b n name = (Some ptr, blen v)
    /\ nth_error (dt_struct b) ptr = Some (FDT_PROP name v).
Proof.
  unfold fdt_getprop, node_prop. destruct (node_at b n); [|discriminate].
  destruct (find_prop name _ _) as [[k v']|] eqn:E; [|discriminate].
  cbn. intros [= ->]. exists k. split; [reflexivity|].
  now apply find_prop_nth in E.
Qed.

(** How a write that succeeded moves the nodes. *)
Lemma setprop_moves (b b' : fdt) (off : Z) (name : string) (val : list byte) :
  fdt_setprop b off name val = (0, b') ->
  (forall path, fdt_path_offset b' path = fdt_path_offset b path)
  /\ (forall n, node_prop b n name = Some val ->
                node_prop b' n name = Some val)
  \/ (forall path,
        fdt_path_offset b' path
        = shift (S (Z.to_nat off)) (fdt_path_offset b path))
     /\ (forall n, node_prop b n name = Some val ->
                   node_prop b' (shift (S (Z.to_nat off)) n) name = Some val).
Proof.
  intros H. pose proof (setprop_header b off name val) as Hh.
  rewrite H in Hh. cbn [snd] in Hh. destruct Hh as (Hm & _).
  destruct (fdt_setprop_result _ _ _ _ _ H)
    as (Hoff & Hlen & Hnode & [(idx & old & Hfind & ->) | (_ & Hts)]).
  - apply find_prop_nth in Hfind. left. split.
    + intros path. now apply path_offset_with_value with (old := old).
    + intros n. now apply node_prop_with_value with (old := old).
  - right.
    assert (Hb : exists parent,
               nth_error (dt_struct b) (S (Z.to_nat off) - 1)
               = Some (FDT_BEGIN_NODE parent)).
    { unfold node_at in Hnode. destruct (off <? 0); [contradiction|].
      replace (S (Z.to_nat off) - 1)%nat with (Z.to_nat off) by lia.
      destruct (nth_error _ _) as [[nn| | |]|]; try contradiction.
      now exists nn. }
    destruct Hb as (parent & Hb). split.
    + intros path.
      apply (path_offset_insert b b' _ (FDT_PROP name val)); auto. lia.
    + intros n.
      apply (node_prop_insert b b' _ name parent val); auto. lia.
Qed.

End Status.

(* ================================================================= *)
(** ** The CPU fixup as a whole *)

Section CpuFixup.

Lemma upto_succ (n : nat) :
  upto (Z.of_nat (S n)) = (upto (Z.of_nat n) ++ [Z.of_nat n])%list.
Proof.
  unfold upto. rewrite !Nat2Z.id, seq_S, map_app. reflexivity.
Qed.

Lemma upto_nat (n : Z) : upto n = upto (Z.of_nat (Z.to_nat n)).
Proof. unfold upto. now rewrite Nat2Z.id. Qed.

Lemma cpu_fixup_hart_calls (plat : sbi_platform) (w : world) (i : Z) :
  calls (cpu_fixup_hart plat w i)
  = (calls w
     ++ if sbi_platform_hart_invalid plat i
        then [Call_setprop (fdt_path_offset (blob w) (cpu_node_path i))
                "status" disabled]
        else [])%list.
Proof.
  destruct (sbi_platform_hart_invalid plat i) eqn:H.
  - now rewrite (cpu_fixup_hart_invalid plat w i H).
  - unfold cpu_fixup_hart. rewrite H. now rewrite app_nil_r.
Qed.

Lemma cpu_fixup_loop_calls (plat : sbi_platform) (w0 : world) (n : nat) :
  calls (cpu_fixup_upto plat w0 (Z.of_nat n))
  = (calls w0 ++ flat_map (status_write plat w0) (upto (Z.of_nat n)))%list.
Proof.
  induction n as [|n IH].
  - cbn. now rewrite app_nil_r.
  - unfold cpu_fixup_upto in *. rewrite upto_succ, fold_left_app.
    cbn [fold_left]. rewrite cpu_fixup_hart_calls, IH.
    rewrite flat_map_app, <- app_assoc. f_equal. f_equal.
    cbn [flat_map]. rewrite app_nil_r. reflexivity.
Qed.

Lemma cpu_fixup_hart_header (plat : sbi_platform) (w : world) (i : Z) :
  let b' := blob (cpu_fixup_hart plat w i) in
  fdt_magic b' = fdt_magic (blob w)
  /\ fdt_totalsize b' = fdt_totalsize (blob w)
  /\ fdt_rsvmap_size b' = fdt_rsvmap_size (blob w).
Proof.
  destruct (sbi_platform_hart_invalid plat i) eqn:H.
  - rewrite (cpu_fixup_hart_invalid plat w i H). cbn [blob].
    apply setprop_header.
  - unfold cpu_fixup_hart. rewrite H. auto.
Qed.

Lemma cpu_fixup_loop_header (plat : sbi_platform) (harts : list Z) :
  forall w,
  let b' := blob (fold_left (cpu_fixup_hart plat) harts w) in
  fdt_magic b' = fdt_magic (blob w)
  /\ fdt_totalsize b' = fdt_totalsize (blob w)
  /\ fdt_rsvmap_size b' = fdt_rsvmap_size (blob w).
Proof.
  induction harts as [|i harts IH]; intros w; [cbn; auto|].
  cbn [fold_left]. destruct (IH (cpu_fixup_hart plat w i)) as (A & B & C).
  destruct (cpu_fixup_hart_header plat w i) as (A' & B' & C').
  cbn zeta in *. repeat split; congruence.
Qed.

Lemma other_tokens_replace (ts : list token) (idx : nat) (old val : list byte) :
  nth_error ts idx = Some (FDT_PROP "status" old) ->
  other_tokens (firstn idx ts ++ FDT_PROP "status" val :: skipn (S idx) ts)
  = other_tokens ts.
Proof.
  intros H. rewrite <- (firstn_skipn idx ts) at 3.
  rewrite (skipn_cons_nth _ _ _ H). unfold other_tokens.
  rewrite !filter_app. reflexivity.
Qed.

Lemma other_tokens_insert (ts : list token) (p : nat) (val : list byte) :
  other_tokens (firstn p ts ++ FDT_PROP "status" val :: skipn p ts)
  = other_tokens ts.
Proof.
  rewrite <- (firstn_skipn p ts) at 3. unfold other_tokens.
  rewrite !filter_app. reflexivity.
Qed.

Lemma setprop_status_others (b : fdt) (off : Z) (val : list byte) :
  other_tokens (dt_struct (snd (fdt_setprop b off "status" val)))
  = other_tokens (dt_struct b).
Proof.
  destruct (fdt_setprop b off "status" val) as [rc b'] eqn:E. cbn [snd].
  destruct (fdt_setprop_success b off "status" val) as [Hf | Hok];
    rewrite E in *; cbn [fst] in *.
  - pose proof (fdt_setprop_failure b off "status" val) as H.
    rewrite E in H. cbn in H. now rewrite (H Hf).
  - subst rc.
    destruct (fdt_setprop_result _ _ _ _ _ E)
      as (_ & _ & _ & [(idx & old & Hfind & ->) | (_ & ->)]).
    + apply find_prop_nth in Hfind. unfold with_value.
      cbn [dt_struct set_struct].
      now apply other_tokens_replace with (old := old).
    + apply other_tokens_insert.
Qed.

Lemma cpu_fixup_hart_others (plat : sbi_platform) (w : world) (i : Z) :
  other_tokens (dt_struct (blob (cpu_fixup_hart plat w i)))
  = other_tokens (dt_struct (blob w)).
Proof.
  destruct (sbi_platform_hart_invalid plat i) eqn:H.
  - rewrite (cpu_fixup_hart_invalid plat w i H). cbn [blob].
    apply setprop_status_others.
  - unfold cpu_fixup_hart. now rewrite H.
Qed.

Lemma cpu_fixup_loop_others (plat : sbi_platform) (harts : list Z) :
  forall w,
  other_tokens (dt_struct (blob (fold_left (cpu_fixup_hart plat) harts w)))
  = other_tokens (dt_struct (blob w)).
Proof.
  induction harts as [|i harts IH]; intros w; [reflexivity|].
  cbn [fold_left]. rewrite IH. apply cpu_fixup_hart_others.
Qed.

(** The request in the arithmetic of the code: the sum itself while it is
    below [2^31]; beyond that the [int] received is negative, or the sum has
    wrapped, and is below the capacity the blob has. *)
Lemma open_size_exact (b : fdt) (extra : Z) :
  0 <= fdt_totalsize b + extra < 2 ^ 31 ->
  open_size b extra = fdt_totalsize b + extra.
Proof.
  intros H. unfold open_size, int32, u32, wrap.
  rewrite Z.mod_mod by lia. rewrite Z.mod_small by lia.
  destruct (Z.ltb_spec (fdt_totalsize b + extra) (2 ^ 31)); lia.
Qed.

Lemma open_size_wraps (b : fdt) (extra : Z) :
  0 < extra <= 2 ^ 31 ->
  2 ^ 31 - extra <= fdt_totalsize b < 2 ^ 32 ->
  open_size b extra < fdt_totalsize b.
Proof.
  intros He H. unfold open_size, int32, u32, wrap.
  rewrite Z.mod_mod by lia.
  destruct (Z.lt_ge_cases (fdt_totalsize b + extra) (2 ^ 32)) as [Hs | Hs].
  - rewrite Z.mod_small by lia.
    destruct (Z.ltb_spec (fdt_totalsize b + extra) (2 ^ 31)); lia.
  - replace (fdt_totalsize b + extra)
      with (fdt_totalsize b + extra - 2 ^ 32 + 1 * 2 ^ 32) by lia.
    rewrite Z.mod_add by lia. rewrite Z.mod_small by lia.
    destruct (Z.ltb_spec (fdt_totalsize b + extra - 2 ^ 32) (2 ^ 31)); lia.
Qed.

Lemma open_size_granted (b : fdt) (extra : Z) :
  0 <= extra < 2 ^ 31 -> 0 <= fdt_totalsize b ->
  fdt_totalsize b <= open_size b extra ->
  open_size b extra = fdt_totalsize b + extra.
Proof.
  intros He Ht Hg.
  assert (Hr : - 2 ^ 31 <= open_size b extra < 2 ^ 31).
  { unfold open_size, int32, u32, wrap. rewrite Z.mod_mod by lia.
    pose proof (Z.mod_pos_bound (fdt_totalsize b + extra) (2 ^ 32)).
    destruct (Z.ltb_spec ((fdt_totalsize b + extra) mod 2 ^ 32) (2 ^ 31));
      lia. }
  apply open_size_exact. split; [lia|].
  destruct (Z.lt_ge_cases (fdt_totalsize b + extra) (2 ^ 31)) as [|Hs];
    [assumption|].
  pose proof (open_size_wraps b extra) as Hw.
  destruct (Z.eq_dec extra 0) as [-> | Hne].
  - lia.
  - specialize (Hw ltac:(lia) ltac:(lia)). lia.
Qed.

Lemma fdt_cpu_fixup_unfold (plat : sbi_platform) (w : world) :
  let size := open_size (blob w) 32 in
  fdt_cpu_fixup plat w
  = if (fdt_magic (blob w) =? FDT_MAGIC)
       && negb (size <? fdt_totalsize (blob w))
    then cpu_fixup_upto plat
           (mk_world (set_totalsize (blob w) size)
                     (calls w ++ [Call_open_into size]))
           (sbi_platform_hart_count plat)
    else mk_world (blob w) (calls w ++ [Call_open_into size]).
Proof.
  intros size. unfold fdt_cpu_fixup, Call.fdt_open_into, Call.issue,
    Libfdt.fdt_open_into, probe. fold size.
  destruct (fdt_magic (blob w) =? FDT_MAGIC); cbn [negb andb fst snd];
    [|reflexivity].
  destruct (size <? fdt_totalsize (blob w)); reflexivity.
Qed.

(** X1: the whole run of the CPU fixup.  The blob is first asked to take the
    size [size] that line 25 computes: the capacity plus 32 as a sum of
    [uint32_t], received as an [int].  When libfdt refuses (bad magic, or
    [size] below the capacity) the blob is as before and that request is
    the only call added.  Otherwise the capacity becomes [size], and the
    calls added to the log are that growth and then, for the invalid harts
    only and in hart order, one write of [status = "disabled"] at the offset
    that the lookup of [/cpus/cpu@<i>] returns in the blob as the earlier
    turns left it: a write that fails does not stop the loop.  For a
    capacity below [2^31 - 32], [size] is the capacity plus 32 and is not
    refused for its size; for any greater capacity of 32 bits it is below
    the capacity, and refused. *)
Theorem cpu_fixup_trace (plat : sbi_platform) (w : world) :
  let total := fdt_totalsize (blob w) in
  let size := open_size (blob w) 32 in
  let w0 := mk_world (set_totalsize (blob w) size)
                     (calls w ++ [Call_open_into size]) in
  let w' := fdt_cpu_fixup plat w in
  (fdt_magic (blob w) <> FDT_MAGIC \/ size < total ->
   w' = mk_world (blob w) (calls w ++ [Call_open_into size]))
  /\ (fdt_magic (blob w) = FDT_MAGIC -> total <= size ->
      calls w'
      = (calls w ++ Call_open_into size
           :: flat_map (status_write plat w0)
                (upto (sbi_platform_hart_count plat)))%list
      /\ fdt_totalsize (blob w') = size)
  /\ (0 <= total < 2 ^ 31 - 32 -> size = total + 32)
  /\ (2 ^ 31 - 32 <= total < 2 ^ 32 -> size < total).
Proof.
  intros total size w0 w'. subst w'. rewrite fdt_cpu_fixup_unfold.
  fold size total. split; [|split; [|split]].
  - intros [Hm | Hs].
    + apply Z.eqb_neq in Hm. now rewrite Hm.
    + apply Z.ltb_lt in Hs. rewrite Hs. now rewrite andb_false_r.
  - intros Hm Hs. apply Z.eqb_eq in Hm. apply Z.ltb_ge in Hs.
    rewrite Hm, Hs. cbn [andb negb]. fold w0. split.
    + unfold cpu_fixup_upto at 1. rewrite upto_nat.
      change (fold_left (cpu_fixup_hart plat) (upto (Z.of_nat ?n)) w0)
        with (cpu_fixup_upto plat w0 (Z.of_nat n)).
      rewrite cpu_fixup_loop_calls. cbn [calls w0]. rewrite <- app_assoc.
      rewrite <- upto_nat. reflexivity.
    + unfold cpu_fixup_upto.
      now destruct (cpu_fixup_loop_header plat
                      (upto (sbi_platform_hart_count plat)) w0) as (_ & -> & _).
  - intros H. apply open_size_exact. fold total. lia.
  - intros H. apply open_size_wraps; fold total; lia.
Qed.

(** X2: the CPU fixup touches nothing but [status] properties: the nodes and
    every other property of the structure block are, in the same order, what
    they were. *)
Theorem cpu_fixup_keeps_tree (plat : sbi_platform) (w : world) :
  other_tokens (dt_struct (blob (fdt_cpu_fixup plat w)))
  = other_tokens (dt_struct (blob w)).
Proof.
  rewrite fdt_cpu_fixup_unfold.
  destruct ((fdt_magic (blob w) =? FDT_MAGIC) && _); [|reflexivity].
  unfold cpu_fixup_upto. now rewrite cpu_fixup_loop_others.
Qed.

Lemma status_kept_by_write (b : fdt) (off : Z) (path : string) :
  node_prop b (fdt_path_offset b path) "status" = Some disabled ->
  let b' := snd (fdt_setprop b off "status" disabled) in
  node_prop b' (fdt_path_offset b' path) "status" = Some disabled.
Proof.
  intros H. destruct (fdt_setprop b off "status" disabled) as [rc b'] eqn:E.
  cbn [snd].
  destruct (fdt_setprop_success b off "status" disabled) as [Hf | Hok];
    rewrite E in *; cbn [fst] in *.
  - pose proof (fdt_setprop_failure b off "status" disabled) as Hb.
    rewrite E in Hb. cbn in Hb. now rewrite (Hb Hf).
  - subst rc. destruct (setprop_moves _ _ _ _ _ E) as [(Hp & Hn) | (Hp & Hn)];
      rewrite Hp; now apply Hn.
Qed.

Lemma status_set_by_write (b b' : fdt) (path : string) :
  fdt_setprop b (fdt_path_offset b path) "status" disabled = (0, b') ->
  node_prop b' (fdt_path_offset b' path) "status" = Some disabled.
Proof.
  intros E. set (off := fdt_path_offset b path) in *.
  destruct (fdt_setprop_getprop _ _ _ _ _ E) as (ptr & Hg & Hn).
  pose proof (getprop_node_prop _ _ _ _ _ _ Hg Hn) as Hnp.
  destruct (fdt_setprop_result _ _ _ _ _ E) as (Hoff & _).
  destruct (setprop_moves _ _ _ _ _ E) as [(Hp & _) | (Hp & _)];
    rewrite Hp; fold off; [exact Hnp|].
  replace (shift (S (Z.to_nat off)) off) with off; [exact Hnp|].
  unfold shift. destruct (Z.ltb_spec off (Z.of_nat (S (Z.to_nat off)))); lia.
Qed.

Lemma cpu_fixup_hart_keeps (plat : sbi_platform) (w : world) (k : Z)
  (path : string) :
  node_prop (blob w) (fdt_path_offset (blob w) path) "status" = Some disabled ->
  let b' := blob (cpu_fixup_hart plat w k) in
  node_prop b' (fdt_path_offset b' path) "status" = Some disabled.
Proof.
  intros H. destruct (sbi_platform_hart_invalid plat k) eqn:Hk.
  - rewrite (cpu_fixup_hart_invalid plat w k Hk). cbn [blob].
    now apply status_kept_by_write.
  - unfold cpu_fixup_hart. now rewrite Hk.
Qed.

Lemma cpu_fixup_loop_keeps (plat : sbi_platform) (path : string)
  (harts : list Z) :
  forall w,
  node_prop (blob w) (fdt_path_offset (blob w) path) "status" = Some disabled ->
  let b' := blob (fold_left (cpu_fixup_hart plat) harts w) in
  node_prop b' (fdt_path_offset b' path) "status" = Some disabled.
Proof.
  induction harts as [|k harts IH]; intros w H; [exact H|].
  cbn [fold_left]. apply IH. now apply cpu_fixup_hart_keeps.
Qed.

Lemma upto_split (n i : Z) :
  0 <= i < n -> exists rest, upto n = (upto i ++ i :: rest)%list.
Proof.
  intros H. unfold upto.
  replace (Z.to_nat n) with (Z.to_nat i + S (Z.to_nat n - S (Z.to_nat i)))%nat
    by lia.
  rewrite seq_app, map_app. cbn [seq map Nat.add]. rewrite Z2Nat.id by lia.
  eexists. reflexivity.
Qed.

(** X3: when the growth was granted and the write for the invalid hart [i]
    succeeds in its turn of the loop, the blob that the CPU fixup leaves has
    [status = "disabled"] at [/cpus/cpu@<i>]: the writes of the later turns
    neither move the node out of its path nor change its status. *)
Theorem cpu_fixup_disables (plat : sbi_platform) (w : world) (i : Z) :
  let size := open_size (blob w) 32 in
  let w0 := mk_world (set_totalsize (blob w) size)
                     (calls w ++ [Call_open_into size]) in
  let wi := cpu_fixup_upto plat w0 i in
  fdt_magic (blob w) = FDT_MAGIC ->
  fdt_totalsize (blob w) <= size ->
  0 <= i < sbi_platform_hart_count plat ->
  sbi_platform_hart_invalid plat i = true ->
  fst (fdt_setprop (blob wi) (fdt_path_offset (blob wi) (cpu_node_path i))
         "status" disabled) = 0 ->
  let b' := blob (fdt_cpu_fixup plat w) in
  exists ptr,
    fdt_getprop b' (fdt_path_offset b' (cpu_node_path i)) "status"
    = (Some ptr, blen disabled)
    /\ nth_error (dt_struct b') ptr = Some (FDT_PROP "status" disabled).
Proof.
  intros size w0 wi Hm Hs Hi Hinv Hok b'. apply node_prop_getprop.
  subst b'. rewrite fdt_cpu_fixup_unfold. fold size.
  apply Z.eqb_eq in Hm. apply Z.ltb_ge in Hs. rewrite Hm, Hs.
  cbn [andb negb]. fold w0.
  unfold cpu_fixup_upto. destruct (upto_split _ _ Hi) as (rest & ->).
  rewrite fold_left_app. cbn [fold_left].
  change (fold_left (cpu_fixup_hart plat) (upto i) w0) with wi.
  apply cpu_fixup_loop_keeps.
  rewrite (cpu_fixup_hart_invalid plat wi i Hinv). cbn [blob].
  change ("/cpus/cpu@" ++ fmt_d (int32 i)) with (cpu_node_path i).
  destruct (fdt_setprop (blob wi) _ "status" disabled) as [rc b1] eqn:E.
  cbn [fst snd] in *. subst rc.
  now apply status_set_by_write with (b := blob wi).
Qed.

End CpuFixup.

(* ================================================================= *)
(** ** The PLIC fixup, run again *)

Section PlicFixup.

Lemma find_prop_other_value (name nm : string) (v v' : list byte)
  (l2 : list token) :
  String.eqb nm name = false ->
  forall l1 idx,
  find_prop name (l1 ++ FDT_PROP nm v :: l2) idx
  = find_prop name (l1 ++ FDT_PROP nm v' :: l2) idx.
Proof.
  intros Hnm. induction l1 as [|t l1 IH]; intros idx.
  - cbn [app find_prop]. now rewrite Hnm.
  - destruct t as [| |n0 v0|]; cbn [app find_prop]; try reflexivity.
    + destruct (String.eqb n0 name); [reflexivity | apply IH].
    + apply IH.
Qed.

Lemma find_compatible_other_value (compat nm : string) (v v' : list byte)
  (l2 : list token) :
  String.eqb nm "compatible" = false ->
  forall l1 idx,
  find_compatible compat (l1 ++ FDT_PROP nm v :: l2) idx
  = find_compatible compat (l1 ++ FDT_PROP nm v' :: l2) idx.
Proof.
  intros Hnm. induction l1 as [|t l1 IH]; intros idx; [reflexivity|].
  destruct t; cbn [app find_compatible]; try apply IH.
  rewrite (find_prop_other_value "compatible" nm v v' l2 Hnm l1 (S idx)).
  now rewrite IH.
Qed.

Lemma compatible_with_value (b : fdt) (cells : nat) (nm : string)
  (v v' : list byte) (start : Z) (compat : string) :
  nth_error (dt_struct b) cells = Some (FDT_PROP nm v) ->
  String.eqb nm "compatible" = false ->
  fdt_node_offset_by_compatible (with_value b cells nm v') start compat
  = fdt_node_offset_by_compatible b start compat.
Proof.
  intros Hn Hnm. unfold fdt_node_offset_by_compatible.
  change (probe (with_value b cells nm v')) with (probe b).
  destruct (negb _); [reflexivity|].
  rewrite (node_at_with_value b cells nm v v' Hn).
  assert (Hc : (cells < List.length (dt_struct b))%nat)
    by (apply nth_error_Some; congruence).
  assert (H : forall p,
             find_compatible compat
               (skipn p (dt_struct (with_value b cells nm v'))) p
             = find_compatible compat (skipn p (dt_struct b)) p).
  { intros p. unfold with_value. cbn [dt_struct set_struct].
    destruct (Nat.ltb_spec cells p).
    - now rewrite skipn_replaced_after by lia.
    - destruct (skipn_replaced_before (dt_struct b) cells p
                  (FDT_PROP nm v') _ Hn) as (l1 & E1 & E2 & _); [lia|].
      rewrite E1, E2. symmetry.
      now apply find_compatible_other_value. }
  destruct (start <? 0); [now rewrite H|].
  destruct (node_at b start); [now rewrite H | reflexivity].
Qed.

Lemma getprop_with_value (b : fdt) (off : Z) (cells : nat) (nm : string)
  (len : Z) (v' : list byte) :
  fdt_getprop b off nm = (Some cells, len) ->
  fdt_getprop (with_value b cells nm v') off nm = (Some cells, blen v').
Proof.
  intros Hg. destruct (fdt_getprop_some _ _ _ _ _ Hg) as (v & Hn & _).
  unfold fdt_getprop in *. rewrite (node_at_with_value b cells nm v v' Hn).
  destruct (node_at b off); [|discriminate].
  destruct (find_prop nm _ _) as [[k v0]|] eqn:E; [|discriminate].
  injection Hg as -> _.
  pose proof (find_prop_sound _ _ _ _ _ E) as [Hle _].
  assert (Hc : (cells < List.length (dt_struct b))%nat)
    by (apply nth_error_Some; congruence).
  unfold with_value. cbn [dt_struct set_struct].
  rewrite skip_after_replace by lia.
  now rewrite (find_prop_replaced _ _ _ _ _ _ E).
Qed.

(** What the fixup does to the interrupt array it finds. *)
Lemma plic_fixup_result (w : world) (compat : string) (cells : nat) (len : Z) :
  fdt_getprop (blob w)
    (fdt_node_offset_by_compatible (blob w) 0 compat) "interrupts-extended"
  = (Some cells, len) ->
  exists v vn,
    nth_error (dt_struct (blob w)) cells
    = Some (FDT_PROP "interrupts-extended" v)
    /\ fdt_plic_fixup w compat
       = mk_world (with_value (blob w) cells "interrupts-extended" vn)
                  (calls w)
    /\ rewritten v (Z.to_nat (blen v / 4 / 2)) vn.
Proof.
  intros Hg. unfold fdt_plic_fixup.
  set (plic_off := fdt_node_offset_by_compatible (blob w) 0 compat) in *.
  rewrite Hg.
  destruct (fdt_getprop_some _ _ _ _ _ Hg) as (v & Hn & ->).
  assert (Hc : (cells < List.length (dt_struct (blob w)))%nat)
    by (apply nth_error_Some; congruence).
  assert (Hw : w = mk_world (with_value (blob w) cells "interrupts-extended"
                               v) (calls w))
    by (rewrite replaced_prop by exact Hn; now destruct w).
  assert (Hoff : 0 <= plic_off).
  { destruct (Z.ltb_spec plic_off 0) as [Hneg | Hpos]; [|exact Hpos].
    unfold fdt_getprop in Hg. rewrite node_at_negative in Hg by exact Hneg.
    discriminate. }
  destruct (Z.ltb_spec plic_off 0) as [Hneg | _]; [lia|].
  destruct (Z.eqb_spec (blen v / 4) 0) as [Hzero | Hnz].
  - exists v, v. split; [exact Hn|]. split; [exact Hw|].
    rewrite Hzero. change (Z.to_nat (0 / 2)) with 0%nat.
    split; [reflexivity|]. intros c j _.
    destruct (Nat.ltb_spec c (2 * 0)); [lia|]. now rewrite andb_false_r.
  - destruct (plic_fixup_loop w cells "interrupts-extended" v
                (Z.to_nat (blen v / 4 / 2)) Hc (pairs_in_array v))
      as (vn & Hfold & Hrw).
    exists v, vn. split; [exact Hn|]. split; [|exact Hrw].
    rewrite Hw at 1. exact Hfold.
Qed.

(** No cell of a rewritten array is left to rewrite. *)
Lemma rewritten_done (v vn : list byte) (c : nat) :
  rewritten v (Z.to_nat (blen v / 4 / 2)) vn ->
  routed_to_machine vn c = false.
Proof.
  intros [Hlen Hbytes].
  destruct (routed_to_machine vn c) eqn:Hr; [|reflexivity]. exfalso.
  unfold routed_to_machine in Hr.
  apply andb_prop in Hr as [Hr Hcell]. apply andb_prop in Hr as [Hodd Hin].
  apply Z.eqb_eq in Hcell. unfold blen in Hin. rewrite Hlen in Hin.
  destruct (routed_to_machine v c) eqn:Hv.
  - assert (E : cell_at vn c = 0xffffffff).
    { unfold cell_at.
      rewrite (load_u32_ext vn (repeat Byte.xff 4) c 0); [reflexivity|].
      intros j Hj. rewrite Hbytes, Hv, (routed_in_pairs v c Hv) by exact Hj.
      destruct j as [|[|[|[|j]]]]; try reflexivity; lia. }
    rewrite E in Hcell. discriminate.
  - assert (E : cell_at vn c = cell_at v c).
    { unfold cell_at. apply f_equal, load_u32_ext.
      intros j Hj. now rewrite Hbytes, Hv by exact Hj. }
    unfold routed_to_machine in Hv. fold (blen v) in Hin.
    rewrite Hodd, Hin, <- E, Hcell in Hv. discriminate.
Qed.

Lemma rewritten_same (v vn : list byte) (n : nat) :
  (forall c, routed_to_machine v c = false) -> rewritten v n vn -> vn = v.
Proof.
  intros Hno [Hlen Hbytes]. apply nth_error_ext. intros k.
  rewrite (Nat.div_mod_eq k 4).
  rewrite Hbytes by (apply Nat.mod_upper_bound; lia). now rewrite Hno.
Qed.

(** X4: the PLIC fixup is idempotent: a second run on the world that a first
    run left changes nothing. *)
Theorem plic_fixup_idempotent (w : world) (compat : string) :
  fdt_plic_fixup (fdt_plic_fixup w compat) compat = fdt_plic_fixup w compat.
Proof.
  set (plic_off := fdt_node_offset_by_compatible (blob w) 0 compat).
  destruct (fdt_getprop (blob w) plic_off "interrupts-extended")
    as [[cells|] len] eqn:Hg.
  2:{ assert (E : fdt_plic_fixup w compat = w).
      { unfold fdt_plic_fixup. fold plic_off. rewrite Hg.
        now destruct (plic_off <? 0). }
      now rewrite !E. }
  destruct (plic_fixup_result w compat cells len Hg) as (v & vn & Hn & E & Hrw).
  rewrite E.
  set (w1 := mk_world (with_value (blob w) cells "interrupts-extended" vn)
                      (calls w)).
  assert (Hc : (cells < List.length (dt_struct (blob w)))%nat)
    by (apply nth_error_Some; congruence).
  assert (Hg1 : fdt_getprop (blob w1)
                  (fdt_node_offset_by_compatible (blob w1) 0 compat)
                  "interrupts-extended" = (Some cells, blen vn)).
  { cbn [blob w1].
    rewrite (compatible_with_value _ _ _ v) by (exact Hn || reflexivity).
    now apply getprop_with_value with (len := len). }
  destruct (plic_fixup_result w1 compat cells _ Hg1)
    as (v1 & vn1 & Hn1 & E1 & Hrw1).
  cbn [blob w1] in Hn1. rewrite with_value_nth in Hn1 by exact Hc.
  injection Hn1 as <-.
  rewrite E1. cbn [blob calls w1]. rewrite with_value_again by exact Hc.
  unfold w1. f_equal. f_equal.
  apply (rewritten_same vn vn1 _ (fun c => rewritten_done v vn c Hrw) Hrw1).
Qed.

End PlicFixup.

(* ================================================================= *)
(** ** What the resolver and the parsers read *)

Section LowCells.

Lemma be_concat_app (l1 l2 : list Z) :
  be_concat (l1 ++ l2)
  = be_concat l1 * 2 ^ (32 * Z.of_nat (List.length l2)) + be_concat l2.
Proof.
  unfold be_concat at 1. rewrite fold_left_app.
  now rewrite fold_be_concat.
Qed.

Lemma be_concat_range (cs : list Z) :
  Forall (fun c => 0 <= c < 2 ^ 32) cs ->
  0 <= be_concat cs < 2 ^ (32 * Z.of_nat (List.length cs)).
Proof.
  induction 1 as [|c cs Hc _ IH]; [cbn; lia|].
  rewrite be_concat_cons. cbn [List.length].
  replace (32 * Z.of_nat (S (List.length cs)))
    with (32 + 32 * Z.of_nat (List.length cs)) by lia.
  rewrite Z.pow_add_r by lia.
  set (m := 2 ^ (32 * Z.of_nat (List.length cs))) in *. nia.
Qed.

Lemma cells_from_range (mem : list byte) (start n : nat) :
  Forall (fun c => 0 <= c < 2 ^ 32) (cells_from mem start n).
Proof.
  unfold cells_from. apply Forall_map, Forall_forall. intros k _.
  apply cell_at_range.
Qed.

Lemma length_cells_from (mem : list byte) (start n : nat) :
  List.length (cells_from mem start n) = n.
Proof. unfold cells_from. now rewrite length_map, length_seq. Qed.

Lemma cells_from_split (mem : list byte) (start n m : nat) :
  (m <= n)%nat ->
  cells_from mem start n
  = (cells_from mem start (n - m) ++ cells_from mem (start + (n - m)) m)%list.
Proof.
  intros H. unfold cells_from. rewrite <- map_app, <- seq_app.
  do 2 f_equal. lia.
Qed.

(** An [unsigned long] keeps the last cells of what the loops of lines
    228-229 and 235-236 accumulate. *)
Lemma ulong_last_cells (x : xlen) (mem : list byte) (start n : nat) :
  ulong x (be_concat (cells_from mem start n) mod 2 ^ 64)
  = be_concat (last_cells mem start n (cells_per_long x)).
Proof.
  unfold last_cells. set (k := cells_per_long x).
  assert (Hk : BITS_PER_LONG x = 32 * Z.of_nat k) by (now destruct x).
  assert (Hk2 : (1 <= k <= 2)%nat) by (destruct x; cbn; lia).
  unfold ulong, wrap. rewrite Hk.
  destruct (Nat.le_gt_cases k n) as [Hle | Hgt].
  - rewrite Nat.min_r by exact Hle.
    rewrite (cells_from_split mem start n k) by exact Hle.
    rewrite be_concat_app, length_cells_from.
    pose proof (be_concat_range _ (cells_from_range mem (start + (n - k)) k))
      as Hb. rewrite length_cells_from in Hb.
    rewrite Z.mod_mod_divide.
    + rewrite Z.add_comm, Z.mod_add by (apply Z.pow_nonzero; lia).
      apply Z.mod_small. exact Hb.
    + exists (2 ^ (64 - 32 * Z.of_nat k)).
      rewrite <- Z.pow_add_r by lia. f_equal. lia.
  - rewrite Nat.min_l by lia.
    replace (start + (n - k))%nat with start by lia.
    pose proof (be_concat_range _ (cells_from_range mem start n)) as Hb.
    rewrite length_cells_from in Hb.
    assert (Hp : 2 ^ (32 * Z.of_nat n) <= 2 ^ (32 * Z.of_nat k))
      by (apply Z.pow_le_mono_r; lia).
    assert (Hq : 2 ^ (32 * Z.of_nat k) <= 2 ^ 64)
      by (apply Z.pow_le_mono_r; lia).
    rewrite (Z.mod_small _ (2 ^ 64)) by lia. apply Z.mod_small. lia.
Qed.

End LowCells.

Section ResolverLowCells.

(** X5: whatever the cell counts of the parent, the resolver returns the
    big-endian value of the last cells only, as many as an [unsigned long]
    holds (one on RV32, two on RV64), of the address cells and of the size
    cells: the cells before them are shifted out of the 64-bit accumulator
    or cut by the store. *)
Theorem resolver_keeps_low_cells (x : xlen) (w : world) (node : Z)
  (ptr : nat) (len : Z) :
  let b := blob w in
  let parent := fdt_parent_offset b node in
  let na := Z.to_nat (fdt_address_cells b parent) in
  let ns := Z.to_nat (fdt_size_cells b parent) in
  let mem := prop_mem b ptr in
  let k := cells_per_long x in
  0 <= parent ->
  1 <= fdt_address_cells b parent ->
  0 <= fdt_size_cells b parent ->
  fdt_getprop b node "reg" = (Some ptr, len) ->
  fdt_get_node_addr_size x w node true true
  = ((0, Some (be_concat (last_cells mem 0 na k)),
         Some (be_concat (last_cells mem na ns k))), w).
Proof.
  intros b parent na ns mem k Hp Ha Hs Hg.
  rewrite (resolver_decodes x w node ptr len true true Hp Ha Hs Hg).
  fold b parent na ns mem. now rewrite !ulong_last_cells.
Qed.

End ResolverLowCells.

Section ParserEdges.

Lemma parent_of_root (b : fdt) : fdt_parent_offset b 0 < 0.
Proof.
  unfold fdt_parent_offset. destruct (negb (probe b)); [reflexivity|].
  cbn. destruct (dt_struct b) as [|[] ts]; reflexivity.
Qed.

Lemma resolver_size_without_cells (x : xlen) (w : world) (node : Z)
  (want_addr : bool) :
  fdt_size_cells (blob w) (fdt_parent_offset (blob w) node) = 0 ->
  let r := fst (fdt_get_node_addr_size x w node want_addr true) in
  fst (fst r) < 0 \/ snd r = Some 0.
Proof.
  intros Hs. unfold fdt_get_node_addr_size. rewrite Hs.
  destruct (Z.ltb_spec (fdt_parent_offset (blob w) node) 0);
    [left; cbn; lia|].
  destruct (_ <? 1); [left; reflexivity|].
  cbn [Z.ltb Z.compare].
  destruct (fdt_getprop _ _ _) as [[ptr|] len]; [|left; reflexivity].
  right. reflexivity.
Qed.

(** X6: a device under a bus that declares [#size-cells = 0] is refused by
    the UART and the PLIC parsers with "no such device", its address being
    what it may: the size read is 0.  The caller's structure and the world
    are as before. *)
Theorem parsers_reject_sizeless_bus (x : xlen) (w : world)
  (uart : platform_uart_data) (plic : platform_plic_data)
  (compatible : string) :
  let node := fdt_node_offset_by_compatible (blob w) (-1) compatible in
  0 <= node ->
  fdt_size_cells (blob w) (fdt_parent_offset (blob w) node) = 0 ->
  fdt_parse_uart8250 x w uart compatible = ((SBI_ENODEV, uart), w)
  /\ fdt_parse_plic x w plic compatible = ((SBI_ENODEV, plic), w).
Proof.
  intros node Hn Hs.
  pose proof (resolver_size_without_cells x w node true Hs) as H.
  cbn zeta in H. split.
  - apply fdt_parse_uart8250_no_device; [exact Hn|]. fold node.
    destruct H; auto.
  - apply fdt_parse_plic_no_device; [exact Hn|]. fold node. destruct H; auto.
Qed.

Lemma resolver_of_root (x : xlen) (w : world) (want_addr want_size : bool) :
  fdt_get_node_addr_size x w 0 want_addr want_size
  = ((fdt_parent_offset (blob w) 0, None, None), w).
Proof.
  unfold fdt_get_node_addr_size. pose proof (parent_of_root (blob w)).
  destruct (Z.ltb_spec (fdt_parent_offset (blob w) 0) 0); [reflexivity | lia].
Qed.

(** X7: when the first compatible node is the root, which has no parent,
    the three parsers return "no such device" and write nothing. *)
Theorem parsers_reject_root (x : xlen) (w : world)
  (uart : platform_uart_data) (plic : platform_plic_data)
  (clint_addr_ptr : bool) (compatible : string) :
  fdt_node_offset_by_compatible (blob w) (-1) compatible = 0 ->
  fdt_parse_uart8250 x w uart compatible = ((SBI_ENODEV, uart), w)
  /\ fdt_parse_plic x w plic compatible = ((SBI_ENODEV, plic), w)
  /\ fdt_parse_clint x w clint_addr_ptr compatible = ((SBI_ENODEV, None), w).
Proof.
  intros Hn. pose proof (parent_of_root (blob w)) as Hp.
  unfold fdt_parse_uart8250, fdt_parse_plic, fdt_parse_clint.
  rewrite Hn, !resolver_of_root. cbn [Z.ltb Z.compare].
  destruct (Z.ltb_spec (fdt_parent_offset (blob w) 0) 0); [|lia].
  repeat split.
Qed.

End ParserEdges.

Section ParserReads.

Lemma tagalign_bounds (n : Z) :
  0 < n -> n <= FDT_TAGALIGN n /\ 4 <= FDT_TAGALIGN n.
Proof.
  intros H. unfold FDT_TAGALIGN.
  pose proof (Z.div_mod (n + 3) 4 ltac:(lia)).
  pose proof (Z.mod_pos_bound (n + 3) 4 ltac:(lia)). lia.
Qed.

Lemma length_padded (v : list byte) :
  v <> [] -> (4 <= List.length (v ++ padding (List.length v)))%nat.
Proof.
  intros Hv. rewrite length_app. unfold padding. rewrite repeat_length.
  assert (0 < Z.of_nat (List.length v)) by (destruct v; [easy | cbn; lia]).
  pose proof (tagalign_bounds _ H). lia.
Qed.

(** The three shapes of an optional property, as the parsers see it. *)
Lemma getprop_cases (b : fdt) (node : Z) (name : string) :
  (exists val v,
     fdt_getprop b node name = (Some val, blen v) /\ v <> []
     /\ node_prop b node name = Some v
     /\ fdt32_to_cpu (load_u32 (prop_mem b val) 0)
        = cell_at (v ++ padding (List.length v)) 0)
  \/ (exists val,
        fdt_getprop b node name = (Some val, 0)
        /\ node_prop b node name = Some [])
  \/ (exists len,
        fdt_getprop b node name = (None, len)
        /\ node_prop b node name = None).
Proof.
  destruct (fdt_getprop b node name) as [[val|] len] eqn:Hg.
  - destruct (fdt_getprop_some _ _ _ _ _ Hg) as (v & Hn & ->).
    pose proof (getprop_node_prop _ _ _ _ _ _ Hg Hn) as Hnp.
    destruct v as [|c v].
    + right; left. exists val. split; [reflexivity | exact Hnp].
    + left. exists val, (c :: v). split; [reflexivity|].
      split; [discriminate|]. split; [exact Hnp|].
      unfold cell_at, prop_mem. rewrite Hn. rewrite app_assoc.
      now rewrite load_u32_app_l by (apply length_padded; discriminate).
  - right; right. exists len. split; [reflexivity|].
    unfold fdt_getprop, node_prop in *. destruct (node_at b node); [|easy].
    now destruct (find_prop name _ _) as [[k v]|].
Qed.

(** The optional property, in the three shapes. *)
Lemma optional_cell_cases (b : fdt) (node : Z) (name : string) (old : Z) :
  (exists val len,
     fdt_getprop b node name = (Some val, len) /\ (len >? 0) = true
     /\ fdt32_to_cpu (load_u32 (prop_mem b val) 0)
        = optional_cell b node name old)
  \/ (exists o len,
        fdt_getprop b node name = (o, len) /\ (len >? 0) = false
        /\ old = optional_cell b node name old).
Proof.
  unfold optional_cell.
  destruct (getprop_cases b node name)
    as [(val & v & E & Hv & -> & C) | [(val & E & ->) | (len & E & ->)]].
  - left. exists val, (blen v). split; [exact E|].
    destruct v as [|c v]; [contradiction|]. split; [|exact C].
    rewrite Z.gtb_ltb. apply Z.ltb_lt. unfold blen. cbn [List.length]. lia.
  - right. exists (Some val), 0. now split.
  - right. exists None, len. split; [exact E|]. split; [|reflexivity].
    apply fdt_getprop_none_len in E. rewrite Z.gtb_ltb. apply Z.ltb_ge. lia.
Qed.

(** The resolver on a node whose [reg] starts with the cells of [addr], and,
    for the size, goes on with those of [size]. *)
Lemma resolver_reads_address (x : xlen) (w : world) (node : Z)
  (na addr : Z) (more : list byte) :
  let b := blob w in
  let parent := fdt_parent_offset b node in
  0 <= parent -> fdt_address_cells b parent = na -> (na = 1 \/ na = 2) ->
  0 <= fdt_size_cells b parent ->
  0 <= addr < 2 ^ (32 * na) -> addr < 2 ^ BITS_PER_LONG x ->
  node_prop b node "reg"
  = Some (flat_map be32 (addr_layout na addr) ++ more)%list ->
  forall want_addr,
  fdt_get_node_addr_size x w node want_addr false
  = ((0, if want_addr then Some addr else None, None), w).
Proof.
  cbv zeta. intros Hp Ha Hna Hs Haddr Hax Hreg want_addr.
  destruct (node_prop_getprop _ _ _ _ Hreg) as (ptr & Hg & Hn).
  assert (Ha1 : 1 <= fdt_address_cells (blob w)
                       (fdt_parent_offset (blob w) node)) by lia.
  rewrite (resolver_decodes x w node ptr _ want_addr false Hp Ha1 Hs Hg).
  destruct want_addr; [|reflexivity].
  destruct (prop_mem_value _ _ _ _ Hn) as (rest & ->).
  rewrite Ha, <- app_assoc.
  rewrite cells_from_cells by (destruct Hna as [-> | ->]; cbn; lia).
  assert (H32 : 2 ^ (32 * 1) = 2 ^ 32) by reflexivity.
  assert (H64 : 2 ^ (32 * 2) = 2 ^ 64) by reflexivity.
  assert (Hw : 2 ^ 32 < 2 ^ 64) by reflexivity.
  destruct Hna as [-> | ->];
    change (Z.to_nat 1) with 1%nat; change (Z.to_nat 2) with 2%nat;
    cbn [addr_layout Z.eqb Pos.eqb app Nat.add skipn firstn];
    rewrite ?concat_one, ?concat_two, ?ulong_small by lia; reflexivity.
Qed.

Lemma resolver_reads_layout (x : xlen) (w : world) (node : Z)
  (na ns addr size : Z) :
  let b := blob w in
  let parent := fdt_parent_offset b node in
  0 <= parent ->
  fdt_address_cells b parent = na -> fdt_size_cells b parent = ns ->
  (na = 1 \/ na = 2) -> (ns = 1 \/ ns = 2) ->
  0 <= addr < 2 ^ (32 * na) -> addr < 2 ^ BITS_PER_LONG x ->
  0 <= size < 2 ^ (32 * ns) -> size < 2 ^ BITS_PER_LONG x ->
  node_prop b node "reg" = Some (flat_map be32 (reg_layout na ns addr size)) ->
  fdt_get_node_addr_size x w node true true = ((0, Some addr, Some size), w).
Proof.
  cbv zeta. intros Hp Ha Hs Hna Hns Haddr Hax Hsize Hsx Hreg.
  destruct (node_prop_getprop _ _ _ _ Hreg) as (ptr & Hg & Hn).
  assert (Ha1 : 1 <= fdt_address_cells (blob w)
                       (fdt_parent_offset (blob w) node)) by lia.
  assert (Hs0 : 0 <= fdt_size_cells (blob w)
                       (fdt_parent_offset (blob w) node)) by lia.
  rewrite (resolver_decodes x w node ptr _ true true Hp Ha1 Hs0 Hg).
  destruct (prop_mem_value _ _ _ _ Hn) as (rest & ->).
  rewrite Ha, Hs.
  rewrite !cells_from_cells
    by (destruct Hna as [-> | ->], Hns as [-> | ->]; cbn; lia).
  assert (H32 : 2 ^ (32 * 1) = 2 ^ 32) by reflexivity.
  assert (H64 : 2 ^ (32 * 2) = 2 ^ 64) by reflexivity.
  assert (Hw : 2 ^ 32 < 2 ^ 64) by reflexivity.
  destruct Hna as [-> | ->], Hns as [-> | ->];
    change (Z.to_nat 1) with 1%nat; change (Z.to_nat 2) with 2%nat;
    cbn [reg_layout Z.eqb Pos.eqb app Nat.add skipn firstn];
    rewrite ?concat_one, ?concat_two, ?ulong_small by lia; reflexivity.
Qed.

(** X8: on a node whose [reg] holds a nonzero address and a nonzero size in
    the layout of its parent's cell counts (one or two cells each), the UART
    parser returns 0 with the address of [reg]; the frequency and the speed
    are the first cell of [clock-frequency] and of [current-speed] where the
    node has a nonempty one, and what the caller's structure held where it
    has not.  The world is as before. *)
Theorem fdt_parse_uart8250_reads (x : xlen) (w : world)
  (uart : platform_uart_data) (compatible : string) (na ns addr size : Z) :
  let b := blob w in
  let node := fdt_node_offset_by_compatible b (-1) compatible in
  let parent := fdt_parent_offset b node in
  0 <= node -> 0 <= parent ->
  fdt_address_cells b parent = na -> fdt_size_cells b parent = ns ->
  (na = 1 \/ na = 2) -> (ns = 1 \/ ns = 2) ->
  0 < addr < 2 ^ (32 * na) -> addr < 2 ^ BITS_PER_LONG x ->
  0 < size < 2 ^ (32 * ns) -> size < 2 ^ BITS_PER_LONG x ->
  node_prop b node "reg" = Some (flat_map be32 (reg_layout na ns addr size)) ->
  fdt_parse_uart8250 x w uart compatible
  = ((0, mk_uart addr
           (optional_cell b node "clock-frequency" (uart_freq uart))
           (optional_cell b node "current-speed" (uart_baud uart))), w).
Proof.
  cbv zeta. intros Hnode Hp Ha Hs Hna Hns Haddr Hax Hsize Hsx Hreg.
  unfold fdt_parse_uart8250.
  set (node := fdt_node_offset_by_compatible (blob w) (-1) compatible) in *.
  destruct (Z.ltb_spec node 0); [lia|].
  rewrite (resolver_reads_layout x w node na ns addr size)
    by (auto; lia).
  cbn [is_zero stored orb Z.ltb Z.compare].
  destruct (Z.eqb_spec addr 0); [lia|]. destruct (Z.eqb_spec size 0); [lia|].
  cbn [orb uart_addr uart_freq uart_baud].
  destruct (optional_cell_cases (blob w) node "clock-frequency"
              (uart_freq uart))
    as [(v1 & l1 & -> & -> & <-) | (o1 & l1 & -> & E1 & <-)];
    destruct (optional_cell_cases (blob w) node "current-speed"
                (uart_baud uart))
      as [(v2 & l2 & -> & -> & <-) | (o2 & l2 & -> & E2 & <-)];
    try reflexivity;
    repeat match goal with
           | o : option nat |- _ => destruct o
           end;
    rewrite ?E1, ?E2; reflexivity.
Qed.

(** X9: on such a node the PLIC parser returns 0 with the address of [reg];
    the number of sources is the first cell of [riscv,ndev] where the node
    has a nonempty one, and what the caller's structure held where it has
    not.  The world is as before. *)
Theorem fdt_parse_plic_reads (x : xlen) (w : world)
  (plic : platform_plic_data) (compatible : string) (na ns addr size : Z) :
  let b := blob w in
  let node := fdt_node_offset_by_compatible b (-1) compatible in
  let parent := fdt_parent_offset b node in
  0 <= node -> 0 <= parent ->
  fdt_address_cells b parent = na -> fdt_size_cells b parent = ns ->
  (na = 1 \/ na = 2) -> (ns = 1 \/ ns = 2) ->
  0 < addr < 2 ^ (32 * na) -> addr < 2 ^ BITS_PER_LONG x ->
  0 < size < 2 ^ (32 * ns) -> size < 2 ^ BITS_PER_LONG x ->
  node_prop b node "reg" = Some (flat_map be32 (reg_layout na ns addr size)) ->
  fdt_parse_plic x w plic compatible
  = ((0, mk_plic addr
           (optional_cell b node "riscv,ndev" (plic_num_src plic))), w).
Proof.
  cbv zeta. intros Hnode Hp Ha Hs Hna Hns Haddr Hax Hsize Hsx Hreg.
  unfold fdt_parse_plic.
  set (node := fdt_node_offset_by_compatible (blob w) (-1) compatible) in *.
  destruct (Z.ltb_spec node 0); [lia|].
  rewrite (resolver_reads_layout x w node na ns addr size)
    by (auto; lia).
  cbn [is_zero stored orb Z.ltb Z.compare].
  destruct (Z.eqb_spec addr 0); [lia|]. destruct (Z.eqb_spec size 0); [lia|].
  cbn [orb plic_addr plic_num_src].
  destruct (optional_cell_cases (blob w) node "riscv,ndev"
              (plic_num_src plic))
    as [(v1 & l1 & -> & -> & <-) | (o1 & l1 & -> & E1 & <-)];
    try reflexivity.
  destruct o1; rewrite ?E1; reflexivity.
Qed.

(** X10: the CLINT parser returns the address that [reg] starts with, zero
    included, whatever follows it in the property; called with a null
    pointer for the address it returns "no such device" on the same node. *)
Theorem fdt_parse_clint_reads (x : xlen) (w : world) (compatible : string)
  (na addr : Z) (more : list byte) :
  let b := blob w in
  let node := fdt_node_offset_by_compatible b (-1) compatible in
  let parent := fdt_parent_offset b node in
  0 <= node -> 0 <= parent ->
  fdt_address_cells b parent = na -> (na = 1 \/ na = 2) ->
  0 <= fdt_size_cells b parent ->
  0 <= addr < 2 ^ (32 * na) -> addr < 2 ^ BITS_PER_LONG x ->
  node_prop b node "reg"
  = Some (flat_map be32 (addr_layout na addr) ++ more)%list ->
  fdt_parse_clint x w true compatible = ((0, Some addr), w)
  /\ fdt_parse_clint x w false compatible = ((SBI_ENODEV, None), w).
Proof.
  cbv zeta. intros Hnode Hp Ha Hna Hs Haddr Hax Hreg.
  unfold fdt_parse_clint.
  set (node := fdt_node_offset_by_compatible (blob w) (-1) compatible) in *.
  destruct (Z.ltb_spec node 0); [lia|].
  rewrite !(resolver_reads_address x w node na addr more) by (auto; lia).
  split; reflexivity.
Qed.

End ParserReads.

Section ParserFailures.

(** The resolver stores through a pointer only when it returns 0, and
    never through a NULL one. *)
Lemma resolver_stores (x : xlen) (w : world) (node : Z)
  (want_addr want_size : bool) :
  let r := fst (fdt_get_node_addr_size x w node want_addr want_size) in
  (fst (fst r) < 0 \/ fst (fst r) = 0)
  /\ (fst (fst r) < 0 -> snd (fst r) = None /\ snd r = None)
  /\ (want_addr = false -> snd (fst r) = None)
  /\ (want_size = false -> snd r = None).
Proof.
  unfold fdt_get_node_addr_size.
  destruct (Z.ltb_spec (fdt_parent_offset (blob w) node) 0);
    [cbn; repeat split; auto|].
  destruct (_ <? 1); [cbn; repeat split; auto; left; reflexivity|].
  destruct (_ <? 0); [cbn; repeat split; auto; left; reflexivity|].
  destruct (fdt_getprop _ _ _) as [[ptr|] len];
    [|cbn; repeat split; auto; left; reflexivity].
  cbn [fst snd]. split; [now right|]. split; [lia|].
  split; intros ->; reflexivity.
Qed.

(** X11: the parsers never change the world, and never return a positive
    code.  A negative code is the failed lookup's or "no such device", and
    then the caller's structure is as it was (for the CLINT parser: no
    address is stored); the CLINT parser returns 0 only when it was given a
    pointer. *)
Theorem parsers_fail_clean (x : xlen) (w : world)
  (uart : platform_uart_data) (plic : platform_plic_data)
  (clint_addr_ptr : bool) (compatible : string) :
  let node := fdt_node_offset_by_compatible (blob w) (-1) compatible in
  let ru := fdt_parse_uart8250 x w uart compatible in
  let rp := fdt_parse_plic x w plic compatible in
  let rc := fdt_parse_clint x w clint_addr_ptr compatible in
  (snd ru = w
   /\ (fst (fst ru) = 0
       \/ fst (fst ru) < 0 /\ snd (fst ru) = uart
          /\ (fst (fst ru) = node \/ fst (fst ru) = SBI_ENODEV)))
  /\ (snd rp = w
      /\ (fst (fst rp) = 0
          \/ fst (fst rp) < 0 /\ snd (fst rp) = plic
             /\ (fst (fst rp) = node \/ fst (fst rp) = SBI_ENODEV)))
  /\ (snd rc = w
      /\ (fst (fst rc) = 0 /\ clint_addr_ptr = true
          \/ fst (fst rc) < 0 /\ snd (fst rc) = None
             /\ (fst (fst rc) = node \/ fst (fst rc) = SBI_ENODEV))).
Proof.
  intros node ru rp rc. subst ru rp rc.
  unfold fdt_parse_uart8250, fdt_parse_plic, fdt_parse_clint. fold node.
  destruct (Z.ltb_spec node 0) as [Hneg | Hpos].
  { cbn [fst snd]. repeat split; right; auto. }
  pose proof (resolver_world x w node true true) as Hw2.
  pose proof (resolver_world x w node clint_addr_ptr false) as Hw1.
  pose proof (resolver_stores x w node clint_addr_ptr false) as Hst.
  destruct (fdt_get_node_addr_size x w node true true)
    as [[[rc2 a2] s2] w2].
  destruct (fdt_get_node_addr_size x w node clint_addr_ptr false)
    as [[[rc1 a1] s1] w1].
  cbn [fst snd] in *. subst w1 w2.
  destruct Hst as (Hrc & Hfail & Hnull & _).
  split; [|split].
  - destruct ((rc2 <? 0) || is_zero a2 || is_zero s2).
    + cbn. split; [reflexivity|]. right. repeat split. now right.
    + cbn. split; [reflexivity|]. now left.
  - destruct ((rc2 <? 0) || is_zero a2 || is_zero s2).
    + cbn. split; [reflexivity|]. right. repeat split. now right.
    + cbn. split; [reflexivity|]. now left.
  - destruct (Z.ltb_spec rc1 0) as [Hlt | Hge].
    + cbn. split; [reflexivity|]. right. repeat split; [|now right].
      now apply Hfail.
    + destruct clint_addr_ptr; cbn.
      * split; [reflexivity|]. now left.
      * split; [reflexivity|]. right. repeat split; [|now right].
        now apply Hnull.
Qed.

End ParserFailures.

(* ================================================================= *)
(** ** The length of a child's name *)

Section NameFits.

Lemma substring_all (s : string) (n : nat) :
  (String.length s <= n)%nat -> String.substring 0 n s = s.
Proof.
  revert n. induction s as [|c s IH]; intros n H.
  - now destruct n.
  - destruct n as [|n]; [cbn in H; lia|]. cbn [String.substring].
    rewrite IH; [reflexivity | cbn in H; lia].
Qed.

Lemma length_append (s t : string) :
  String.length (s ++ t) = (String.length s + String.length t)%nat.
Proof. induction s as [|c s IH]; cbn; [reflexivity | now rewrite IH]. Qed.

Lemma length_hex_digits (d : Hexadecimal.uint) :
  String.length (HexadecimalString.NilEmpty.string_of_uint d)
  = Hexadecimal.nb_digits d.
Proof. induction d; cbn; congruence. Qed.

(** The digits of a positive number, sixteen at a time. *)
Lemma little_hex_step (q : positive) (r : N) :
  (r < 16)%N ->
  Hexadecimal.nb_digits
    (HexadecimalPos.Unsigned.to_lu (16 * N.pos q + r))
  = S (Hexadecimal.nb_digits (Pos.to_little_hex_uint q)).
Proof.
  intros Hr.
  assert (E0 : HexadecimalPos.Unsigned.to_lu (16 * N.pos q)
               = Hexadecimal.D0 (Pos.to_little_hex_uint q))
    by apply HexadecimalPos.Unsigned.to_lhex_tenfold.
  assert (Hsucc : forall (k : nat) (n : N),
             HexadecimalPos.Unsigned.to_lu (n + N.of_nat k)
             = Nat.iter k Hexadecimal.Little.succ
                 (HexadecimalPos.Unsigned.to_lu n)).
  { induction k as [|k IH]; intros n.
    - now rewrite N.add_0_r.
    - rewrite Nnat.Nat2N.inj_succ, N.add_succ_r,
        HexadecimalPos.Unsigned.to_lu_succ, IH. reflexivity. }
  replace r with (N.of_nat (N.to_nat r)) by apply Nnat.N2Nat.id.
  rewrite Hsucc, E0.
  assert (Hk : (N.to_nat r < 16)%nat) by lia.
  generalize (Pos.to_little_hex_uint q). intros d.
  generalize dependent (N.to_nat r). intros k Hk.
  do 16 (destruct k as [|k]; [reflexivity|]). lia.
Qed.

Lemma length_little_hex (k : nat) :
  forall p : positive,
  (N.pos p < 16 ^ N.of_nat k)%N ->
  (Hexadecimal.nb_digits (Pos.to_little_hex_uint p) <= k)%nat.
Proof.
  induction k as [|k IH]; intros p Hp; [cbn in Hp; lia|].
  pose proof (N.div_mod (N.pos p) 16 ltac:(lia)) as Hdm.
  pose proof (N.mod_lt (N.pos p) 16 ltac:(lia)) as Hm.
  destruct (N.pos p / 16)%N as [|q] eqn:Hq.
  - assert (Hs : (N.pos p < 16)%N) by lia.
    assert (Hc : (Pos.to_nat p < 16)%nat) by lia.
    rewrite <- (Pos2Nat.id p).
    generalize dependent (Pos.to_nat p). intros n Hc. clear - Hc.
    do 16 (destruct n as [|n]; [cbn; lia|]). lia.
  - change (Pos.to_little_hex_uint p)
      with (HexadecimalPos.Unsigned.to_lu (N.pos p)).
    rewrite Hdm at 1. rewrite little_hex_step by exact Hm.
    apply le_n_S, IH.
    rewrite Nnat.Nat2N.inj_succ, N.pow_succ_r' in Hp.
    clear Hq. generalize dependent (16 ^ N.of_nat k)%N.
    generalize dependent (N.pos p mod 16)%N. intros; lia.
Qed.

Lemma length_fmt_x (z : Z) :
  0 <= z < 2 ^ 32 -> (1 <= String.length (fmt_x z) <= 8)%nat.
Proof.
  intros H. unfold fmt_x. destruct z as [|p|p]; [cbn; lia| |lia].
  cbn [Z.to_N N.to_hex_uint]. unfold Pos.to_hex_uint.
  assert (Hd : (1 <= Hexadecimal.nb_digits
                       (Hexadecimal.rev (Pos.to_little_hex_uint p)) <= 8)%nat).
  { rewrite HexadecimalFacts.nb_digits_rev. split.
    - destruct p; cbn [Pos.to_little_hex_uint].
      + destruct (Pos.to_little_hex_uint p); cbn; lia.
      + assert (Hn : Pos.to_little_hex_uint p <> Hexadecimal.Nil).
        { clear. induction p; cbn [Pos.to_little_hex_uint];
            try discriminate.
          - destruct (Pos.to_little_hex_uint p); cbn; discriminate.
          - destruct (Pos.to_little_hex_uint p); cbn;
              try discriminate; contradiction. }
        destruct (Pos.to_little_hex_uint p); cbn; try lia. contradiction.
      + cbn. lia.
    - apply (length_little_hex 8). change (16 ^ N.of_nat 8)%N
        with (Z.to_N (2 ^ 32)). lia. }
  unfold HexadecimalString.NilZero.string_of_uint.
  destruct (Hexadecimal.rev (Pos.to_little_hex_uint p)) eqn:E;
    [cbn in Hd; lia | ..]; rewrite <- E, length_hex_digits in *; exact Hd.
Qed.

Lemma length_fmt_d (j : Z) :
  0 <= j < Z.of_nat PMP_COUNT -> (String.length (fmt_d j) <= 2)%nat.
Proof.
  intros H. change (Z.of_nat PMP_COUNT) with 16 in H.
  assert (Hj : j = Z.of_nat (Z.to_nat j)) by lia. rewrite Hj.
  assert (Hk : (Z.to_nat j < 16)%nat) by lia.
  generalize dependent (Z.to_nat j). intros n _ Hk.
  do 16 (destruct n as [|n]; [cbn; lia|]). lia.
Qed.

(** X12: for the indices of the PMP table and 32-bit halves of the address,
    the name of a child is never truncated: it is the formatted string
    itself, of at most 29 characters. *)
Theorem pmp_node_name_fits (na j addr_high addr_low : Z) :
  0 <= j < Z.of_nat PMP_COUNT ->
  0 <= addr_high < 2 ^ 32 -> 0 <= addr_low < 2 ^ 32 ->
  let full :=
    if (na >? 1) && negb (addr_high =? 0)
    then "mmode_pmp" ++ fmt_d j ++ "@" ++ fmt_x addr_high
                     ++ "," ++ fmt_x addr_low
    else "mmode_pmp" ++ fmt_d j ++ "@" ++ fmt_x addr_low in
  pmp_node_name na j addr_high addr_low = full
  /\ (String.length full <= 29)%nat.
Proof.
  intros Hj Hh Hl full.
  pose proof (length_fmt_d j Hj) as Ld.
  pose proof (length_fmt_x addr_high Hh) as Lh.
  pose proof (length_fmt_x addr_low Hl) as Ll.
  assert (Hfull : (String.length full <= 29)%nat).
  { unfold full. destruct (_ && _); rewrite !length_append; cbn; lia. }
  split; [|exact Hfull].
  unfold pmp_node_name, sbi_snprintf. subst full.
  change (32 - 1)%nat with 31%nat.
  destruct ((na >? 1) && negb (addr_high =? 0)); apply substring_all; lia.
Qed.

End NameFits.

(* ================================================================= *)
(** ** The names of the children *)

Section ChildNames.

Lemma hi32_zero (z : Z) : 0 <= z < 2 ^ 64 -> hi32 z = 0 -> z < 2 ^ 32.
Proof.
  intros Hz H. pose proof (hi_lo_recombine z Hz) as Hr.
  pose proof (lo32_range z). lia.
Qed.

Lemma length_eligible_regions (plat : sbi_platform) (idx : list nat) :
  (List.length (eligible_regions plat idx) <= List.length idx)%nat.
Proof.
  unfold eligible_regions. induction idx as [|i idx IH]; cbn [filter];
    [lia|].
  destruct (eligible _); cbn [List.length]; lia.
Qed.

(** Within the preconditions of the specification (one or two address
    cells, an address that fits them), the code names a child as the
    specification says. *)
Lemma child_name_as_specified (na j addr : Z) :
  na = 1 \/ na = 2 -> 0 <= j < Z.of_nat PMP_COUNT ->
  0 <= addr < 2 ^ (32 * na) ->
  child_name na j addr = spec_child_name na j addr.
Proof.
  intros Hna Hj Haddr.
  pose proof (length_fmt_d j Hj) as Ld.
  pose proof (length_fmt_x _ (hi32_range addr)) as Lh.
  pose proof (length_fmt_x _ (lo32_range addr)) as Ll.
  unfold child_name, spec_child_name, sbi_snprintf, long_name, short_name.
  change (32 - 1)%nat with 31%nat.
  destruct Hna as [-> | ->].
  - cbn [Z.ltb Z.eqb Z.compare Pos.compare andb Pos.eqb].
    unfold lo32. rewrite u32_small by (change (32 * 1) with 32 in Haddr; lia).
    apply substring_all. rewrite !length_append.
    unfold lo32 in Ll.
    rewrite u32_small in Ll by (change (32 * 1) with 32 in Haddr; lia).
    cbn. lia.
  - cbn [Z.ltb Z.eqb Z.compare Pos.compare andb Pos.eqb].
    change (32 * 2) with 64 in Haddr.
    destruct (Z.eqb_spec (hi32 addr) 0) as [Hz | Hnz]; cbn [negb].
    + pose proof (hi32_zero addr Haddr Hz) as Hs.
      unfold lo32 in *. rewrite u32_small in * by lia.
      apply substring_all. rewrite !length_append. cbn. lia.
    + apply substring_all. rewrite !length_append. cbn. lia.
Qed.

(** C7: in a run of the reserved-memory fixup that returns 0, the root
    declaring one or two address cells and the address of every eligible
    region fitting them, the nodes created are the container (when it was
    absent) and then one child per eligible region, the [k]-th of them
    (counting from 0 the eligible regions only) being named
    [mmode_pmp<k>@<addr>], with the address of the region in hexadecimal,
    or [mmode_pmp<k>@<high>,<low>], with both halves of the address, when
    the root declares two address cells and the upper 32 bits are not
    zero. *)
Theorem pmp_child_names (plat : sbi_platform) (frame : list byte)
  (w w' : world) :
  sbi_platform_has_pmp plat = true ->
  fdt_reserved_memory_fixup plat frame w = (0, w') ->
  let na := fdt_address_cells (blob w) 0 in
  let regs := eligible_regions plat (seq 0 PMP_COUNT) in
  na = 1 \/ na = 2 ->
  (forall i, In i regs -> 0 <= region_addr plat i < 2 ^ (32 * na)) ->
  exists container names,
    created_names (skipn (List.length (calls w)) (calls w'))
    = (container ++ names)%list
    /\ (container = [] \/ container = ["reserved-memory"])
    /\ List.length names = List.length regs
    /\ forall k i, nth_error regs k = Some i ->
         nth_error names k
         = Some (spec_child_name na (Z.of_nat k) (region_addr plat i)).
Proof.
  intros Hpmp Hrun na regs Hna Haddr.
  destruct (created_child_names plat frame w w' Hpmp Hrun)
    as (container & names & Hc & Hcont & Hlen & Hnames).
  fold na regs in Hlen, Hnames.
  exists container, names. repeat split; try assumption.
  intros k i Hk. rewrite (Hnames k i Hk). f_equal.
  apply child_name_as_specified; [exact Hna| |].
  - pose proof (length_eligible_regions plat (seq 0 PMP_COUNT)) as Hl.
    rewrite length_seq in Hl. fold regs in Hl.
    assert (k < List.length regs)%nat
      by (apply nth_error_Some; congruence).
    lia.
  - apply Haddr. exact (nth_error_In _ _ Hk).
Qed.

End ChildNames.

(* ================================================================= *)
(** ** The reserved-memory fixup: capacity and failed runs *)

Section ReservedMemoryAbort.

Lemma same_header_refl (b : fdt) : same_header b b.
Proof. repeat split. Qed.

Lemma same_header_trans (b1 b2 b3 : fdt) :
  same_header b1 b2 -> same_header b2 b3 -> same_header b1 b3.
Proof. unfold same_header. intuition congruence. Qed.

Lemma add_subnode_header (w w' : world) (parent : Z) (name : string)
  (rc : Z) :
  Call.fdt_add_subnode w parent name = (rc, w') ->
  same_header (blob w) (blob w').
Proof.
  intros H. apply call_result in H. unfold fdt_add_subnode in H.
  repeat match type of H with
         | (if ?c then _ else _) = _ => destruct c
         end; injection H as _ <-; unfold same_header; repeat split.
Qed.

Lemma call_setprop_header (w w' : world) (off : Z) (name : string)
  (mem : list byte) (len rc : Z) :
  Call.fdt_setprop w off name mem len = (rc, w') ->
  same_header (blob w) (blob w').
Proof.
  intros H. apply call_result in H.
  pose proof (setprop_header (blob w) off name (firstn (Z.to_nat len) mem))
    as Hh. rewrite H in Hh. exact Hh.
Qed.

Lemma pmp_loop_header (plat : sbi_platform) (frame : list byte)
  (na ns parent : Z) (idx : list nat) :
  forall j w w' rc,
  pmp_loop plat frame na ns parent idx j w = (rc, w') ->
  same_header (blob w) (blob w').
Proof.
  induction idx as [|i rest IH]; intros j w w' rc Hrun.
  - injection Hrun as _ <-. apply same_header_refl.
  - cbn [pmp_loop] in Hrun.
    destruct (pmp_get plat i) as [[prot addr] size].
    destruct (_ =? 0); [now apply IH in Hrun|].
    destruct (_ =? 0); [|now apply IH in Hrun].
    destruct (Call.fdt_add_subnode w parent _) as [subnode w1] eqn:E1.
    apply add_subnode_header in E1.
    destruct (subnode <? 0); [now injection Hrun as _ <-|].
    destruct (Call.fdt_setprop_empty w1 subnode "no-map") as [e2 w2] eqn:E2.
    apply call_setprop_header in E2.
    pose proof (same_header_trans _ _ _ E1 E2) as H2.
    destruct (e2 <? 0); [now injection Hrun as _ <-|].
    destruct (Call.fdt_setprop w2 subnode "reg" _ _) as [e3 w3] eqn:E3.
    apply call_setprop_header in E3.
    pose proof (same_header_trans _ _ _ H2 E3) as H3.
    destruct (e3 <? 0); [now injection Hrun as _ <-|].
    apply IH in Hrun. now apply same_header_trans with (b2 := blob w3).
Qed.

(** Lines 106-132, when they fail: the container was missing, and one of
    the four calls that create it failed. *)
Lemma reserved_memory_node_failure (na ns : Z) (w w1 : world) (rc : Z) :
  reserved_memory_node na ns w = (rc, w1) ->
  same_header (blob w) (blob w1)
  /\ (rc < 0 ->
      fdt_path_offset (blob w) "/reserved-memory" < 0
      /\ exists parent m,
           (1 <= m <= 4)%nat
           /\ calls w1
              = (calls w ++ firstn m (container_calls na ns parent))%list).
Proof.
  unfold reserved_memory_node. intros H.
  destruct (Z.ltb_spec (fdt_path_offset (blob w) "/reserved-memory") 0)
    as [Hnf | Hf].
  2:{ injection H as <- <-. split; [apply same_header_refl | lia]. }
  destruct (Call.fdt_add_subnode w 0 "reserved-memory") as [p wa] eqn:E0.
  pose proof (add_subnode_header _ _ _ _ _ E0) as Hh0.
  apply calls_issue in E0 as [C0 _].
  destruct (Z.ltb_spec p 0).
  { injection H as <- <-. split; [exact Hh0|]. intros _.
    split; [exact Hnf|]. exists 0, 1%nat. split; [lia | exact C0]. }
  destruct (Call.fdt_setprop_empty wa p "ranges") as [e1 wb] eqn:E1.
  pose proof (same_header_trans _ _ _ Hh0
                (call_setprop_header _ _ _ _ _ _ _ E1)) as Hh1.
  apply calls_issue in E1 as [C1 _]. cbn [firstn Z.to_nat] in C1.
  destruct (Z.ltb_spec e1 0).
  { injection H as <- <-. split; [exact Hh1|]. intros _.
    split; [exact Hnf|]. exists p, 2%nat. split; [lia|].
    rewrite C1, C0, <- app_assoc. reflexivity. }
  destruct (Call.fdt_setprop_u32 wb p "#size-cells" ns) as [e2 wc] eqn:E2.
  pose proof (same_header_trans _ _ _ Hh1
                (call_setprop_header _ _ _ _ _ _ _ E2)) as Hh2.
  apply calls_issue in E2 as [C2 _]. rewrite setprop_u32_value in C2.
  destruct (Z.ltb_spec e2 0).
  { injection H as <- <-. split; [exact Hh2|]. intros _.
    split; [exact Hnf|]. exists p, 3%nat. split; [lia|].
    rewrite C2, C1, C0, <- !app_assoc. reflexivity. }
  destruct (Call.fdt_setprop_u32 wc p "#address-cells" na) as [e3 wd] eqn:E3.
  pose proof (same_header_trans _ _ _ Hh2
                (call_setprop_header _ _ _ _ _ _ _ E3)) as Hh3.
  apply calls_issue in E3 as [C3 _]. rewrite setprop_u32_value in C3.
  destruct (Z.ltb_spec e3 0).
  { injection H as <- <-. split; [exact Hh3|]. intros _.
    split; [exact Hnf|]. exists p, 4%nat. split; [lia|].
    rewrite C3, C2, C1, C0, <- !app_assoc. reflexivity. }
  injection H as <- <-. split; [exact Hh3 | lia].
Qed.

Lemma open_into_done (w : world) (size : Z) :
  fdt_magic (blob w) = FDT_MAGIC -> fdt_totalsize (blob w) <= size ->
  Call.fdt_open_into w size
  = (0, mk_world (set_totalsize (blob w) size)
                 (calls w ++ [Call_open_into size])).
Proof.
  intros Hm Hs.
  unfold Call.fdt_open_into, Call.issue, fdt_open_into, probe.
  rewrite Hm, Z.eqb_refl. cbn [negb].
  destruct (Z.ltb_spec size (fdt_totalsize (blob w))); [lia | reflexivity].
Qed.

Lemma open_into_refused (w : world) (size : Z) :
  fdt_magic (blob w) = FDT_MAGIC -> size < fdt_totalsize (blob w) ->
  Call.fdt_open_into w size
  = (- FDT_ERR_NOSPACE, mk_world (blob w) (calls w ++ [Call_open_into size])).
Proof.
  intros Hm Hs.
  unfold Call.fdt_open_into, Call.issue, fdt_open_into, probe.
  rewrite Hm, Z.eqb_refl. cbn [negb].
  destruct (Z.ltb_spec size (fdt_totalsize (blob w))); [reflexivity | lia].
Qed.

(** A run that returned 0 was granted its growth. *)
Lemma run_granted (plat : sbi_platform) (frame : list byte) (w w' : world) :
  sbi_platform_has_pmp plat = true ->
  fdt_reserved_memory_fixup plat frame w = (0, w') ->
  fdt_magic (blob w) = FDT_MAGIC
  /\ fdt_totalsize (blob w) <= open_size (blob w) 256.
Proof.
  intros Hpmp Hrun. unfold fdt_reserved_memory_fixup in Hrun.
  rewrite Hpmp in Hrun. cbn [negb] in Hrun.
  unfold Call.fdt_open_into, Call.issue, fdt_open_into, probe in Hrun.
  destruct (Z.eqb_spec (fdt_magic (blob w)) FDT_MAGIC) as [Hm | Hne];
    cbn [negb fst snd] in Hrun; [|discriminate].
  destruct (Z.ltb_spec (open_size (blob w) 256) (fdt_totalsize (blob w)));
    cbn [fst snd] in Hrun; [discriminate|]. now split.
Qed.

(** X13: the result code and the capacity of the reserved-memory fixup.
    Without memory protection it returns 0 and the world is as before.
    Otherwise the blob is asked to take the size [size] that line 102
    computes: the capacity plus 256 as a sum of [uint32_t], received as an
    [int].  When libfdt refuses (bad magic, or [size] below the capacity)
    the fixup returns that failure, the blob is as before and the request is
    the only call added.  When it is granted the code is 0 or negative, and
    whether the run ends well or not the magic is kept, the capacity is
    [size], and the calls added start with the growth.  For a capacity
    below [2^31 - 256], [size] is the capacity plus 256 and is not refused
    for its size; for any greater capacity of 32 bits it is below the
    capacity, and refused. *)
Theorem reserved_memory_fixup_capacity (plat : sbi_platform)
  (frame : list byte) (w : world) :
  let r := fdt_reserved_memory_fixup plat frame w in
  let total := fdt_totalsize (blob w) in
  let size := open_size (blob w) 256 in
  let refused := mk_world (blob w) (calls w ++ [Call_open_into size]) in
  (sbi_platform_has_pmp plat = false -> r = (0, w))
  /\ (sbi_platform_has_pmp plat = true -> fdt_magic (blob w) <> FDT_MAGIC ->
      r = (- FDT_ERR_BADMAGIC, refused))
  /\ (sbi_platform_has_pmp plat = true -> fdt_magic (blob w) = FDT_MAGIC ->
      size < total -> r = (- FDT_ERR_NOSPACE, refused))
  /\ (sbi_platform_has_pmp plat = true -> fdt_magic (blob w) = FDT_MAGIC ->
      total <= size ->
      (fst r = 0 \/ fst r < 0)
      /\ fdt_magic (blob (snd r)) = FDT_MAGIC
      /\ fdt_totalsize (blob (snd r)) = size
      /\ exists rest,
           calls (snd r) = (calls w ++ Call_open_into size :: rest)%list)
  /\ (0 <= total < 2 ^ 31 - 256 -> size = total + 256)
  /\ (2 ^ 31 - 256 <= total < 2 ^ 32 -> size < total).
Proof.
  intros r total size refused. subst r. unfold fdt_reserved_memory_fixup.
  fold size.
  split; [intros ->; reflexivity|].
  split; [|split; [|split; [|split]]].
  - intros -> Hm. cbn [negb]. apply Z.eqb_neq in Hm.
    unfold Call.fdt_open_into, Call.issue, fdt_open_into, probe.
    rewrite Hm. reflexivity.
  - intros -> Hm Hs. cbn [negb].
    rewrite (open_into_refused w size Hm Hs). reflexivity.
  - intros -> Hm Hs. cbn [negb].
    rewrite (open_into_done w size Hm Hs).
    cbn [fst snd Z.ltb Z.compare].
    set (w0 := mk_world (set_totalsize (blob w) size)
                        (calls w ++ [Call_open_into size])).
    destruct (reserved_memory_node _ _ w0) as [parent w1] eqn:E1.
    destruct (reserved_memory_node_failure _ _ _ _ _ E1) as (H1 & Hf1).
    assert (Hc1 : exists rest, calls w1 = (calls w0 ++ rest)%list).
    { destruct (Z.ltb_spec parent 0) as [Hn | Hp].
      - destruct (Hf1 Hn) as (_ & p & m & _ & ->). eauto.
      - destruct (reserved_memory_node_calls _ _ _ _ _ E1 Hp)
          as [(_ & ->) | (_ & ->)];
          [exists []; now rewrite app_nil_r | eauto]. }
    destruct Hc1 as (rest1 & Hc1).
    destruct (Z.ltb_spec parent 0) as [Hn | Hp].
    + cbn [fst snd]. split; [now right|].
      destruct H1 as (-> & -> & _). cbn [blob w0].
      split; [exact Hm|]. split; [reflexivity|].
      exists rest1. rewrite Hc1. cbn [calls w0]. now rewrite <- app_assoc.
    + destruct (pmp_loop _ _ _ _ _ _ _ w1) as [rc w2] eqn:E2.
      pose proof (pmp_loop_header _ _ _ _ _ _ _ _ _ _ E2) as H2.
      destruct (pmp_loop_calls _ _ _ _ _ _ _ _ _ _ E2)
        as (subs & partial & Hc2 & _ & _ & Hend).
      cbn [fst snd]. split.
      { destruct Hend as [(-> & _) | (Hrc & _)]; auto. }
      destruct (same_header_trans _ _ _ H1 H2) as (-> & -> & _).
      cbn [blob w0]. split; [exact Hm|]. split; [reflexivity|].
      eexists. rewrite Hc2, Hc1. cbn [calls w0].
      rewrite <- !app_assoc. reflexivity.
  - intros H. apply open_size_exact. fold total. lia.
  - intros H. apply open_size_wraps; fold total; lia.
Qed.

(** X14: a run of the reserved-memory fixup that fails after the growth was
    granted stops at the libfdt call that failed.  Either the container was
    absent and the calls added after the growth are the first [m] (one to
    four) of the four that create it; or they are the creation of the
    container (when it was absent), the three calls of each of the first
    eligible regions, and the first [m] (one to three) of the three calls of
    the next one. *)
Theorem reserved_memory_fixup_abort (plat : sbi_platform)
  (frame : list byte) (w w' : world) (rc : Z) :
  sbi_platform_has_pmp plat = true -> fdt_magic (blob w) = FDT_MAGIC ->
  fdt_totalsize (blob w) <= open_size (blob w) 256 ->
  fdt_reserved_memory_fixup plat frame w = (rc, w') -> rc < 0 ->
  let na := fdt_address_cells (blob w) 0 in
  let ns := fdt_size_cells (blob w) 0 in
  let regs := eligible_regions plat (seq 0 PMP_COUNT) in
  let path := fdt_path_offset (blob w) "/reserved-memory" in
  let open := Call_open_into (open_size (blob w) 256) in
  (path < 0
   /\ exists parent m,
        (1 <= m <= 4)%nat
        /\ calls w'
           = (calls w ++ open :: firstn m (container_calls na ns parent))%list)
  \/ (exists parent container subs i s m,
        0 <= parent
        /\ (path = parent /\ container = []
            \/ path < 0 /\ container = container_calls na ns parent)
        /\ Forall (fun s => 0 <= s) subs
        /\ nth_error regs (List.length subs) = Some i
        /\ (1 <= m <= 3)%nat
        /\ calls w'
           = (calls w ++ open :: container
                ++ children_calls plat frame na ns parent 0 regs subs
                ++ firstn m (child_calls plat frame na ns parent
                               (Z.of_nat (List.length subs)) i s))%list).
Proof.
  intros Hpmp Hm Hs Hrun Hrc na ns regs path open.
  unfold fdt_reserved_memory_fixup in Hrun. rewrite Hpmp in Hrun.
  cbn [negb] in Hrun. fold na ns in Hrun.
  rewrite (open_into_done w _ Hm Hs) in Hrun.
  cbn [Z.ltb Z.compare] in Hrun.
  set (w0 := mk_world _ _) in Hrun.
  assert (Hpath0 : fdt_path_offset (blob w0) "/reserved-memory" = path)
    by reflexivity.
  destruct (reserved_memory_node na ns w0) as [parent w1] eqn:E1.
  destruct (Z.ltb_spec parent 0) as [Hn | Hp].
  - injection Hrun as <- <-. left.
    destruct (reserved_memory_node_failure _ _ _ _ _ E1) as (_ & Hf).
    destruct (Hf Hn) as (Hnf & p & m & Hmm & ->).
    rewrite Hpath0 in Hnf. split; [exact Hnf|]. exists p, m.
    split; [exact Hmm|]. cbn [calls w0]. now rewrite <- app_assoc.
  - right.
    destruct (pmp_loop_calls plat frame na ns parent _ _ _ _ _ Hrun)
      as (subs & partial & Hc & _ & Hpos & Hend).
    destruct Hend as [(-> & _) | (_ & i & s & m & Hnth & Hmm & ->)]; [lia|].
    pose proof (reserved_memory_node_calls _ _ _ _ _ E1 Hp) as Hcalls.
    rewrite Hpath0 in Hcalls. rewrite Z.add_0_l in Hc.
    destruct Hcalls as [(Hpar & ->) | (Hnf & C1)].
    + exists parent, [], subs, i, s, m. split; [exact Hp|].
      split; [left; auto|]. split; [exact Hpos|]. split; [exact Hnth|].
      split; [exact Hmm|]. rewrite Hc. cbn [calls w0 app].
      now rewrite <- app_assoc.
    + exists parent, (container_calls na ns parent), subs, i, s, m.
      split; [exact Hp|]. split; [right; auto|]. split; [exact Hpos|].
      split; [exact Hnth|]. split; [exact Hmm|]. rewrite Hc, C1.
      cbn [calls w0]. rewrite <- !app_assoc. reflexivity.
Qed.

End ReservedMemoryAbort.

(* ================================================================= *)
(** ** The reserved-memory fixup on its own output *)

Section SecondRun.

Lemma skipn_exact' {A} (l1 l2 : list A) (n : nat) :
  List.length l1 = n -> skipn n (l1 ++ l2) = l2.
Proof. intros <-. apply skipn_exact. Qed.

Lemma find_subnode_prefix (name : string) (l : list token) :
  forall l' idx d i,
  find_subnode name l idx d = Some i ->
  firstn (S (i - idx)) l' = firstn (S (i - idx)) l ->
  find_subnode name l' idx d = Some i.
Proof.
  induction l as [|t l IH]; intros l' idx d i H Hl; [discriminate|].
  pose proof (find_subnode_ge _ _ _ _ _ H) as Hge.
  destruct l' as [|t' l']; [discriminate|].
  cbn [firstn] in Hl. injection Hl as -> Hl.
  assert (Hrec : forall d',
             find_subnode name l (S idx) d' = Some i ->
             find_subnode name l' (S idx) d' = Some i).
  { intros d' H'. pose proof (find_subnode_ge _ _ _ _ _ H') as Hge'.
    apply IH; [exact H'|].
    replace (i - idx)%nat with (S (i - S idx)) in Hl by lia. exact Hl. }
  destruct t; cbn [find_subnode] in *.
  - destruct (_ && _); [exact H | now apply Hrec].
  - destruct d; [discriminate | now apply Hrec].
  - now apply Hrec.
  - now apply Hrec.
Qed.

Lemma find_subnode_skip_props (name : string) (l2 : list token) :
  forall l1 idx d,
  forallb is_prop l1 = true ->
  find_subnode name (l1 ++ l2) idx d
  = find_subnode name l2 (idx + List.length l1) d.
Proof.
  induction l1 as [|t l1 IH]; intros idx d H.
  - cbn. now rewrite Nat.add_0_r.
  - cbn [forallb] in H. apply andb_prop in H as [Ht H].
    cbn [List.length]. rewrite Nat.add_succ_r.
    destruct t; try discriminate; cbn [app find_subnode]; now apply IH.
Qed.

(** A child is found among the children that the loop created, when it is
    one of them or is found after them. *)
Lemma found_among_children (plat : sbi_platform) (frame : list byte)
  (na ns : Z) (name : string) (rest : list token) (regs : list nat) :
  forall j acc,
  (forall idx, find_subnode name (acc ++ rest) idx 0 <> None) ->
  forall idx,
  find_subnode name (children_tokens plat frame na ns j regs acc ++ rest)
    idx 0 <> None.
Proof.
  induction regs as [|i regs IH]; intros j acc Hacc idx; [apply Hacc|].
  cbn [children_tokens]. apply IH. intros idx'.
  unfold child_tokens. cbn [app find_subnode Nat.eqb andb].
  destruct (fdt_nodename_eq_ _ name); [discriminate|]. apply Hacc.
Qed.

Lemma first_child_found (plat : sbi_platform) (frame : list byte)
  (na ns : Z) (rest : list token) (i : nat) (regs : list nat) (idx : nat) :
  find_subnode (child_name na 0 (region_addr plat i))
    (children_tokens plat frame na ns 0 (i :: regs) [] ++ rest) idx 0
  <> None.
Proof.
  cbn [children_tokens]. apply found_among_children. intros idx'.
  unfold child_tokens. cbn [app find_subnode Nat.eqb andb].
  unfold fdt_nodename_eq_. now rewrite String.eqb_refl.
Qed.

Lemma find_prop_run (name : string) (x y : list token) :
  count_props x = 0%nat -> count_props y = 0%nat ->
  forall l idx,
  find_prop name (l ++ x) idx = find_prop name (l ++ y) idx.
Proof.
  intros Hx Hy. induction l as [|t l IH]; intros idx.
  - cbn [app].
    destruct x as [|[] x], y as [|[] y]; try discriminate; reflexivity.
  - destruct t; cbn [app find_prop]; try reflexivity.
    + destruct (String.eqb _ _); [reflexivity | apply IH].
    + apply IH.
Qed.

Lemma count_props_at (l : list token) (q : nat) (t : token) :
  nth_error l q = Some t -> is_prop t = false ->
  count_props (skipn q l) = 0%nat.
Proof.
  intros H Ht. rewrite (skipn_cons_nth _ _ _ H).
  now destruct t.
Qed.

Lemma count_props_head (l : list token) (q : nat) (t : token) :
  count_props (skipn q l) = 0%nat -> nth_error l q = Some t ->
  is_prop t = false.
Proof.
  intros H Hn. rewrite (skipn_cons_nth _ _ _ Hn) in H.
  now destruct t.
Qed.

(** The cell counts of a node depend on its properties only. *)
Lemma fdt_cells_kept (b b' : fdt) (off : Z) (name : string) (q : nat) :
  0 <= off ->
  (S (Z.to_nat off) <= q <= List.length (dt_struct b))%nat ->
  firstn q (dt_struct b') = firstn q (dt_struct b) ->
  count_props (skipn q (dt_struct b)) = 0%nat ->
  count_props (skipn q (dt_struct b')) = 0%nat ->
  fdt_cells b' off name = fdt_cells b off name.
Proof.
  intros Hoff Hq Hpre Hx Hy.
  set (A := firstn q (dt_struct b)).
  assert (HA : List.length A = q) by (unfold A; rewrite length_firstn; lia).
  assert (Ets : dt_struct b = (A ++ skipn q (dt_struct b))%list)
    by (unfold A; now rewrite firstn_skipn).
  assert (Ets' : dt_struct b' = (A ++ skipn q (dt_struct b'))%list)
    by (unfold A; rewrite <- Hpre; now rewrite firstn_skipn).
  assert (Hnode : node_at b' off = node_at b off).
  { unfold node_at. rewrite Ets, Ets'.
    now rewrite !nth_error_app1 by lia. }
  assert (Hfind : find_prop name (skipn (S (Z.to_nat off)) (dt_struct b'))
                    (S (Z.to_nat off))
                  = find_prop name (skipn (S (Z.to_nat off)) (dt_struct b))
                      (S (Z.to_nat off))).
  { rewrite Ets, Ets' at 1. rewrite !skipn_app.
    replace (S (Z.to_nat off) - List.length A)%nat with 0%nat by lia.
    cbn [skipn]. now apply find_prop_run. }
  unfold fdt_cells, fdt_getprop. rewrite Hnode, Hfind.
  destruct (node_at b off); [|reflexivity].
  destruct (find_prop name (skipn (S (Z.to_nat off)) (dt_struct b)) _)
    as [[idx v]|] eqn:E; [|reflexivity].
  destruct (Z.eqb_spec (blen v) 4) as [H4 | ]; [|reflexivity].
  cbn [negb].
  apply find_prop_nth in E. apply find_prop_nth in Hfind.
  unfold prop_mem. rewrite E, Hfind.
  rewrite !load_u32_app_l by (unfold blen in H4; lia). reflexivity.
Qed.

Lemma forallb_nth {A} (f : A -> bool) (l : list A) (n : nat) (a : A) :
  forallb f l = true -> nth_error l n = Some a -> f a = true.
Proof.
  intros H Hn. rewrite forallb_forall in H. apply H.
  now apply nth_error_In with (n := n).
Qed.

(** The children of the root come after its properties. *)
Lemma children_position_le (ts : list token) (n : nat) (name : string) :
  nth_error ts n = Some (FDT_BEGIN_NODE name) -> (1 <= n)%nat ->
  (children_position ts 0 <= n)%nat.
Proof.
  intros Hn H1. unfold children_position. change (Z.to_nat 0) with 0%nat.
  destruct (Nat.le_gt_cases (1 + count_props (skipn 1 ts)) n) as [|Hlt];
    [assumption|].
  destruct (count_props_split (skipn 1 ts)) as [Hall _].
  assert (Hk : nth_error (firstn (count_props (skipn 1 ts)) (skipn 1 ts))
                 (n - 1) = Some (FDT_BEGIN_NODE name)).
  { rewrite nth_error_firstn.
    destruct (Nat.ltb_spec (n - 1) (count_props (skipn 1 ts))); [|lia].
    rewrite nth_error_skipn. now replace (1 + (n - 1))%nat with n by lia. }
  pose proof (forallb_nth _ _ _ _ Hall Hk). discriminate.
Qed.

Lemma path_reserved_memory (b : fdt) :
  fdt_path_offset b "/reserved-memory"
  = if negb (probe b) then - FDT_ERR_BADMAGIC
    else fdt_subnode_offset b 0 "reserved-memory".
Proof. reflexivity. Qed.

(** A child that is found is found again in a structure block that starts
    the same way up to that child. *)
Lemma subnode_lookup_prefix (b b' : fdt) (off : Z) (name : string) (i : nat) :
  0 <= off ->
  fdt_subnode_offset b off name = Z.of_nat i ->
  firstn (S i) (dt_struct b') = firstn (S i) (dt_struct b) ->
  fdt_subnode_offset b' off name = Z.of_nat i
  /\ (Z.to_nat off < i)%nat.
Proof.
  intros Hoff H Hpre. unfold fdt_subnode_offset in *.
  destruct (node_at b off) as [n|] eqn:Hn;
    [|exfalso; unfold FDT_ERR_BADOFFSET in H; lia].
  destruct (find_subnode name _ _ 0) as [k|] eqn:F;
    [|exfalso; unfold FDT_ERR_NOTFOUND in H; lia].
  apply Nat2Z.inj in H. subst k.
  pose proof (find_subnode_ge _ _ _ _ _ F) as Hge.
  assert (Hnth : forall m, (m < S i)%nat ->
             nth_error (dt_struct b') m = nth_error (dt_struct b) m).
  { intros m Hm.
    transitivity (nth_error (firstn (S i) (dt_struct b')) m).
    - rewrite nth_error_firstn.
      destruct (Nat.ltb_spec m (S i)); [reflexivity | lia].
    - rewrite Hpre, nth_error_firstn.
      destruct (Nat.ltb_spec m (S i)); [reflexivity | lia]. }
  assert (Hn' : node_at b' off = Some n).
  { unfold node_at in *. destruct (off <? 0); [discriminate|].
    now rewrite Hnth by lia. }
  rewrite Hn'. split; [|lia].
  rewrite (find_subnode_prefix name _ _ _ _ _ F); [reflexivity|].
  rewrite !firstn_skipn_comm.
  replace (S (Z.to_nat off) + S (i - S (Z.to_nat off)))%nat with (S i) by lia.
  now rewrite Hpre.
Qed.

Lemma fdt_add_subnode_exists (b : fdt) (parent : Z) (name : string) :
  probe b = true -> 0 <= fdt_subnode_offset b parent name ->
  fdt_add_subnode b parent name = (- FDT_ERR_EXISTS, b).
Proof.
  intros Hp H. unfold fdt_add_subnode. rewrite Hp. cbn [negb].
  destruct (Z.leb_spec 0 (fdt_subnode_offset b parent name));
    [reflexivity | lia].
Qed.

Lemma pmp_loop_stops (plat : sbi_platform) (frame : list byte)
  (na ns parent : Z) (i0 : nat) (regs : list nat) (idx : list nat) :
  forall j w,
  eligible_regions plat idx = i0 :: regs ->
  fst (fdt_add_subnode (blob w) parent
         (child_name na j (region_addr plat i0))) < 0 ->
  pmp_loop plat frame na ns parent idx j w
  = Call.fdt_add_subnode w parent (child_name na j (region_addr plat i0)).
Proof.
  induction idx as [|i rest IH]; intros j w Hreg Hfail; [discriminate|].
  rewrite eligible_regions_cons, eligible_test in Hreg.
  cbn [pmp_loop]. unfold region_prot, region_addr in *.
  destruct (pmp_get plat i) as [[prot addr] size] eqn:Hpmp.
  cbn [fst snd] in *.
  destruct (Z.land prot PMP_A =? 0); cbn [negb andb] in Hreg;
    [now apply IH|].
  destruct (Z.land prot (Z.lor (Z.lor PMP_R PMP_W) PMP_X) =? 0);
    [|now apply IH].
  injection Hreg as <- _. rewrite Hpmp in *. cbn [fst snd] in *.
  fold (hi32 addr) (lo32 addr). rewrite pmp_node_name_child_name.
  unfold Call.fdt_add_subnode, Call.issue in *.
  destruct (fdt_add_subnode (blob w) parent _) as [sub b1]. cbn [fst snd] in *.
  destruct (Z.ltb_spec sub 0); [reflexivity | lia].
Qed.

Lemma pmp_loop_parent (plat : sbi_platform) (frame : list byte)
  (na ns parent : Z) (idx : list nat) :
  forall j w w',
  pmp_loop plat frame na ns parent idx j w = (0, w') ->
  eligible_regions plat idx <> [] ->
  node_at (blob w) parent <> None.
Proof.
  induction idx as [|i rest IH]; intros j w w' Hrun Hreg; [contradiction|].
  rewrite eligible_regions_cons, eligible_test in Hreg.
  cbn [pmp_loop] in Hrun. unfold region_prot in *.
  destruct (pmp_get plat i) as [[prot addr] size] eqn:Hpmp.
  cbn [fst snd] in *.
  destruct (Z.land prot PMP_A =? 0); cbn [negb andb] in Hreg;
    [now apply IH in Hrun|].
  destruct (Z.land prot (Z.lor (Z.lor PMP_R PMP_W) PMP_X) =? 0);
    [|now apply IH in Hrun].
  destruct (Call.fdt_add_subnode w parent _) as [subnode w1] eqn:E1.
  destruct (Z.ltb_spec subnode 0); [injection Hrun as Hrc _; lia|].
  apply call_result in E1.
  now apply fdt_add_subnode_result in E1 as (Hn & _).
Qed.

Lemma reserved_memory_node_root (na ns : Z) (w w1 : world) (parent : Z) :
  reserved_memory_node na ns w = (parent, w1) -> 0 <= parent ->
  fdt_path_offset (blob w) "/reserved-memory" < 0 ->
  node_at (blob w) 0 <> None.
Proof.
  unfold reserved_memory_node. intros H Hp Hnf.
  destruct (Z.ltb_spec (fdt_path_offset (blob w) "/reserved-memory") 0);
    [|lia].
  destruct (Call.fdt_add_subnode w 0 "reserved-memory") as [p wa] eqn:E0.
  destruct (Z.ltb_spec p 0); [injection H as <- <-; lia|].
  apply call_result in E0.
  now apply fdt_add_subnode_result in E0 as (Hroot & _).
Qed.

(** After lines 106-132 the container is found under the root, and the
    root declares the cell counts it declared. *)
Lemma container_found (na ns : Z) (w w1 : world) (parent : Z) :
  reserved_memory_node na ns w = (parent, w1) -> 0 <= parent ->
  probe (blob w) = true ->
  fdt_subnode_offset (blob w1) 0 "reserved-memory" = parent
  /\ forall name, fdt_cells (blob w1) 0 name = fdt_cells (blob w) 0 name.
Proof.
  intros H Hp Hprobe.
  destruct (reserved_memory_node_tokens _ _ _ _ _ H Hp)
    as [(Hpar & ->) | (Hnf & Hpar & Ht1)].
  - rewrite path_reserved_memory, Hprobe in Hpar. now split.
  - pose proof (reserved_memory_node_root _ _ _ _ _ H Hp Hnf) as Hroot.
    set (ts := dt_struct (blob w)) in *.
    set (cp := count_props (skipn 1 ts)).
    assert (Hcp0 : children_position ts 0 = S cp) by reflexivity.
    destruct (count_props_split (skipn 1 ts)) as [Hall Hrest].
    fold cp in Hall, Hrest.
    assert (Hroot' : exists root, nth_error ts 0 = Some (FDT_BEGIN_NODE root)).
    { unfold node_at in Hroot. fold ts in Hroot.
      change (0 <? 0) with false in Hroot.
      change (Z.to_nat 0) with 0%nat in Hroot. cbv iota in Hroot.
      destruct (nth_error ts 0) as [[root| | |]|]; try contradiction.
      now exists root. }
    destruct Hroot' as (root & Hroot0).
    assert (Hlen : (S cp <= List.length ts)%nat).
    { pose proof (count_props_le (skipn 1 ts)) as Hle.
      rewrite length_skipn in Hle. fold cp in Hle.
      assert (0 < List.length ts)%nat
        by (apply nth_error_Some; congruence).
      lia. }
    assert (E1 : dt_struct (blob w1)
                 = (FDT_BEGIN_NODE root :: firstn cp (skipn 1 ts)
                    ++ container_tokens na ns ++ skipn cp (skipn 1 ts))%list).
    { rewrite Ht1. rewrite (insert_children ts _ 0).
      change (S (Z.to_nat 0)) with 1%nat. fold cp.
      destruct ts as [|t0 ts0]; [discriminate|].
      cbn in Hroot0. injection Hroot0 as ->. reflexivity. }
    assert (Hs1 : List.length (skipn 1 ts) = (List.length ts - 1)%nat)
      by apply length_skipn.
    remember (skipn 1 ts) as s1 eqn:Es1.
    assert (Hf : List.length (firstn cp s1) = cp)
      by (rewrite length_firstn; lia).
    split.
    + unfold fdt_subnode_offset, node_at. rewrite E1.
      cbn [Z.ltb Z.compare Z.to_nat nth_error skipn].
      rewrite find_subnode_skip_props by exact Hall.
      rewrite Hf. cbn. rewrite Hpar, Hcp0. f_equal. lia.
    + intros name. apply (fdt_cells_kept _ _ 0 name (S cp)).
      * lia.
      * fold ts. change (Z.to_nat 0) with 0%nat. lia.
      * rewrite Ht1. fold ts. rewrite Hcp0. unfold insert_at.
        apply firstn_exact. rewrite length_firstn. lia.
      * fold ts. replace (S cp) with (cp + 1)%nat by lia.
        rewrite <- skipn_skipn, <- Es1. exact Hrest.
      * rewrite E1. cbn [skipn]. rewrite skipn_app, Hf.
        rewrite Nat.sub_diag, skipn_all2 by lia.
        reflexivity.
Qed.

(** What the loop leaves in place: the container, under the root, with the
    cell counts of the root, and the first child it created. *)
Lemma loop_keeps_container (plat : sbi_platform) (frame : list byte)
  (na ns parent : Z) (w1 w' : world) (i0 : nat) (regs : list nat) :
  pmp_loop plat frame na ns parent (seq 0 PMP_COUNT) 0 w1 = (0, w') ->
  eligible_regions plat (seq 0 PMP_COUNT) = i0 :: regs ->
  fdt_subnode_offset (blob w1) 0 "reserved-memory" = parent -> 0 <= parent ->
  fdt_subnode_offset (blob w') 0 "reserved-memory" = parent
  /\ (forall name, fdt_cells (blob w') 0 name = fdt_cells (blob w1) 0 name)
  /\ 0 <= fdt_subnode_offset (blob w') parent
            (child_name na 0 (region_addr plat i0)).
Proof.
  intros Hrun Hregs Hpath Hp.
  assert (Hne : eligible_regions plat (seq 0 PMP_COUNT) <> [])
    by (rewrite Hregs; discriminate).
  pose proof (pmp_loop_parent _ _ _ _ _ _ _ _ _ Hrun Hne) as Hnode.
  destruct (node_at_length _ _ Hnode) as [_ Hlen].
  set (ts1 := dt_struct (blob w1)) in *.
  set (p := S (Z.to_nat parent)) in *.
  pose proof (count_props_split (skipn p ts1)) as [Hprops Hrest].
  destruct (pmp_loop_tokens plat frame na ns parent (seq 0 PMP_COUNT) 0
              w1 w'
              (firstn (count_props (skipn p ts1)) (skipn p ts1))
              []
              (skipn (count_props (skipn p ts1)) (skipn p ts1))
              Hrun) as [Hpre Hfinal].
  { fold ts1 p. cbn [app]. now rewrite !firstn_skipn. }
  { exact Hprops. }
  { exact Hrest. }
  fold ts1 p in Hpre, Hfinal. rewrite Hregs in Hfinal.
  set (ts' := dt_struct (blob w')) in *.
  assert (Hpar : parent = Z.of_nat (Z.to_nat parent)) by lia.
  rewrite Hpar in Hpath.
  destruct (subnode_lookup_prefix (blob w1) (blob w') 0 "reserved-memory"
              (Z.to_nat parent) ltac:(lia) Hpath Hpre) as [Hpath' Hpos].
  change (Z.to_nat 0) with 0%nat in Hpos.
  assert (Hnth : forall m, (m < p)%nat -> nth_error ts' m = nth_error ts1 m).
  { intros m Hm.
    transitivity (nth_error (firstn p ts') m).
    - rewrite nth_error_firstn.
      destruct (Nat.ltb_spec m p); [reflexivity | lia].
    - rewrite Hpre, nth_error_firstn.
      destruct (Nat.ltb_spec m p); [reflexivity | lia]. }
  assert (Hbegin : exists n,
             nth_error ts1 (Z.to_nat parent) = Some (FDT_BEGIN_NODE n)).
  { unfold node_at in Hnode. destruct (parent <? 0); [contradiction|].
    fold ts1 in Hnode.
    destruct (nth_error ts1 (Z.to_nat parent)) as [[n| | |]|];
      try contradiction. now exists n. }
  destruct Hbegin as (n & Hbegin).
  split; [now rewrite Hpath', <- Hpar|]. split.
  - intros name.
    pose proof (children_position_le ts1 _ _ Hbegin ltac:(lia)) as Hcp.
    set (q := children_position ts1 0) in *.
    destruct (count_props_split (skipn 1 ts1)) as [_ Hq0].
    assert (Hq1 : count_props (skipn q ts1) = 0%nat).
    { unfold q, children_position. change (S (Z.to_nat 0)) with 1%nat.
      rewrite Nat.add_comm. now rewrite <- skipn_skipn. }
    assert (Hqn : exists t, nth_error ts1 q = Some t).
    { destruct (nth_error ts1 q) eqn:E; [eauto|].
      apply nth_error_None in E. unfold p in Hlen. lia. }
    destruct Hqn as (t & Hqn).
    apply (fdt_cells_kept _ _ 0 name q).
    + lia.
    + fold ts1. change (Z.to_nat 0) with 0%nat.
      assert (1 <= q)%nat by (unfold q, children_position; lia).
      unfold p in Hlen. lia.
    + fold ts1 ts'.
      assert (Hff : forall l : list token,
                 firstn q l = firstn q (firstn p l)).
      { intros l. rewrite firstn_firstn. f_equal. unfold p. lia. }
      now rewrite (Hff ts'), (Hff ts1), Hpre.
    + exact Hq1.
    + fold ts'. apply (count_props_at _ _ t).
      * rewrite Hnth by (unfold p; lia). exact Hqn.
      * exact (count_props_head _ _ _ Hq1 Hqn).
  - unfold fdt_subnode_offset.
    assert (Hnode' : node_at (blob w') parent = node_at (blob w1) parent).
    { unfold node_at. destruct (parent <? 0); [reflexivity|].
      fold ts' ts1. now rewrite Hnth by (unfold p; lia). }
    rewrite Hnode'. destruct (node_at (blob w1) parent); [|contradiction].
    fold ts' p. rewrite Hfinal.
    rewrite skipn_exact' by (rewrite length_firstn; lia).
    rewrite find_subnode_skip_props by exact Hprops.
    destruct (find_subnode _ _ _ 0) as [k|] eqn:F; [lia|].
    exfalso. revert F. apply first_child_found.
Qed.

Lemma cells_counts_kept (b b' : fdt) :
  (forall name, fdt_cells b' 0 name = fdt_cells b 0 name) ->
  fdt_address_cells b' 0 = fdt_address_cells b 0
  /\ fdt_size_cells b' 0 = fdt_size_cells b 0.
Proof.
  intros H. unfold fdt_address_cells, fdt_size_cells. now rewrite !H.
Qed.

(** X15: the reserved-memory fixup cannot be run twice.  After a run that
    returned 0 with at least one eligible region, a second run on the world
    it left fails, and adds no node.  When its request for a size [size] of
    the capacity plus 256 (a sum of [uint32_t] received as an [int]) is
    granted, it finds the container and fails with "exists" at the creation
    of the first child, adding these two calls only; when the request is
    refused, [size] being below the capacity, it fails with "no space",
    the blob is as it was and the request is the only call added. *)
Theorem reserved_memory_fixup_twice (plat : sbi_platform)
  (frame : list byte) (w w' : world) (i0 : nat) (regs : list nat) :
  sbi_platform_has_pmp plat = true ->
  fdt_reserved_memory_fixup plat frame w = (0, w') ->
  eligible_regions plat (seq 0 PMP_COUNT) = i0 :: regs ->
  let na := fdt_address_cells (blob w) 0 in
  let parent := fdt_path_offset (blob w') "/reserved-memory" in
  let size := open_size (blob w') 256 in
  0 <= parent
  /\ (fdt_totalsize (blob w') <= size ->
      fdt_reserved_memory_fixup plat frame w'
      = (- FDT_ERR_EXISTS,
         mk_world (set_totalsize (blob w') size)
           (calls w'
            ++ [Call_open_into size;
                Call_add_subnode parent
                  (child_name na 0 (region_addr plat i0))])))
  /\ (size < fdt_totalsize (blob w') ->
      fdt_reserved_memory_fixup plat frame w'
      = (- FDT_ERR_NOSPACE,
         mk_world (blob w') (calls w' ++ [Call_open_into size]))).
Proof.
  intros Hpmp Hrun Hregs na parent size.
  destruct (run_granted plat frame w w' Hpmp Hrun) as [Hm Hgr].
  unfold fdt_reserved_memory_fixup in Hrun. rewrite Hpmp in Hrun.
  cbn [negb] in Hrun. fold na in Hrun.
  rewrite (open_into_done w _ Hm Hgr) in Hrun.
  cbn [Z.ltb Z.compare] in Hrun.
  set (w0 := mk_world _ _) in Hrun.
  set (ns := fdt_size_cells (blob w) 0) in *.
  assert (Hprobe0 : probe (blob w0) = true)
    by (unfold probe; cbn; rewrite Hm; reflexivity).
  destruct (reserved_memory_node na ns w0) as [par w1] eqn:E1.
  destruct (Z.ltb_spec par 0) as [|Hp]; [injection Hrun as Hrc _; lia|].
  destruct (container_found _ _ _ _ _ E1 Hp Hprobe0) as [Hpath1 Hcells1].
  destruct (reserved_memory_node_failure _ _ _ _ _ E1) as (Hh1 & _).
  pose proof (pmp_loop_header _ _ _ _ _ _ _ _ _ _ Hrun) as Hh2.
  destruct (same_header_trans _ _ _ Hh1 Hh2) as (Hm' & _).
  cbn [blob w0 fdt_magic set_totalsize] in Hm'. rewrite Hm in Hm'.
  assert (Hprobe' : probe (blob w') = true)
    by (unfold probe; rewrite Hm'; reflexivity).
  destruct (loop_keeps_container _ _ _ _ _ _ _ _ _ Hrun Hregs Hpath1 Hp)
    as (Hpath' & Hcells' & Hchild).
  assert (Hparent : parent = par).
  { unfold parent. rewrite path_reserved_memory, Hprobe'. exact Hpath'. }
  split; [lia|]. split; cycle 1.
  { intros Hs. unfold fdt_reserved_memory_fixup. rewrite Hpmp. cbn [negb].
    fold size. rewrite (open_into_refused w' size Hm' Hs). reflexivity. }
  intros Hs.
  destruct (cells_counts_kept (blob w) (blob w'))
    as [Hna Hns].
  { intros name. rewrite Hcells', Hcells1. reflexivity. }
  unfold fdt_reserved_memory_fixup. rewrite Hpmp. cbn [negb].
  rewrite Hna, Hns. fold na ns size.
  rewrite (open_into_done w' size Hm' Hs).
  cbn [Z.ltb Z.compare].
  set (w0' := mk_world _ _).
  assert (Hnode : reserved_memory_node na ns w0' = (par, w0')).
  { unfold reserved_memory_node.
    change (fdt_path_offset (blob w0') "/reserved-memory") with parent.
    rewrite Hparent. destruct (Z.ltb_spec par 0); [lia | reflexivity]. }
  rewrite Hnode. destruct (Z.ltb_spec par 0); [lia|].
  assert (Hadd : fdt_add_subnode (blob w0') par
                   (child_name na 0 (region_addr plat i0))
                 = (- FDT_ERR_EXISTS, blob w0')).
  { apply fdt_add_subnode_exists; [exact Hprobe'|]. exact Hchild. }
  rewrite (pmp_loop_stops plat frame na ns par i0 regs _ 0 w0' Hregs)
    by (rewrite Hadd; reflexivity).
  unfold Call.fdt_add_subnode, Call.issue. rewrite Hadd, Hparent.
  cbn [fst snd blob calls w0']. rewrite <- app_assoc. reflexivity.
Qed.

Lemma find_subnode_sound (name : string) (l : list token) :
  forall idx d i,
  find_subnode name l idx d = Some i ->
  exists n, nth_error l (i - idx) = Some (FDT_BEGIN_NODE n).
Proof.
  induction l as [|t l IH]; intros idx d i H; [discriminate|].
  assert (Hrec : forall d',
             find_subnode name l (S idx) d' = Some i ->
             exists n, nth_error (t :: l) (i - idx)
                       = Some (FDT_BEGIN_NODE n)).
  { intros d' H'. pose proof (find_subnode_ge _ _ _ _ _ H') as Hge.
    destruct (IH _ _ _ H') as (n & Hn). exists n.
    replace (i - idx)%nat with (S (i - S idx)) by lia. exact Hn. }
  destruct t; cbn [find_subnode] in H.
  - destruct (_ && _); [|now apply Hrec in H].
    injection H as <-. rewrite Nat.sub_diag. now eexists.
  - destruct d; [discriminate | now apply Hrec in H].
  - now apply Hrec in H.
  - now apply Hrec in H.
Qed.

Lemma subnode_offset_node (b : fdt) (off : Z) (name : string) :
  0 <= fdt_subnode_offset b off name ->
  node_at b (fdt_subnode_offset b off name) <> None.
Proof.
  unfold fdt_subnode_offset. destruct (node_at b off); [|cbn; lia].
  destruct (find_subnode name _ _ 0) as [i|] eqn:F; [|cbn; lia].
  intros _. pose proof (find_subnode_ge _ _ _ _ _ F) as Hge.
  destruct (find_subnode_sound _ _ _ _ _ F) as (n & Hn).
  rewrite nth_error_skipn in Hn.
  replace (S (Z.to_nat off) + (i - S (Z.to_nat off)))%nat with i in Hn by lia.
  unfold node_at. destruct (Z.ltb_spec (Z.of_nat i) 0); [lia|].
  now rewrite Nat2Z.id, Hn.
Qed.

(** The structure block after a run that created the container. *)
Lemma created_run (plat : sbi_platform) (frame : list byte) (w w' : world) :
  sbi_platform_has_pmp plat = true ->
  fdt_reserved_memory_fixup plat frame w = (0, w') ->
  fdt_path_offset (blob w) "/reserved-memory" < 0 ->
  let na := fdt_address_cells (blob w) 0 in
  let ns := fdt_size_cells (blob w) 0 in
  let regs := eligible_regions plat (seq 0 PMP_COUNT) in
  exists pre tail,
    fdt_magic (blob w') = FDT_MAGIC
    /\ fdt_path_offset (blob w') "/reserved-memory"
       = Z.of_nat (List.length pre)
    /\ dt_struct (blob w')
       = (pre ++ [FDT_BEGIN_NODE "reserved-memory";
                  FDT_PROP "#address-cells" (be32 (u32 na));
                  FDT_PROP "#size-cells" (be32 (u32 ns));
                  FDT_PROP "ranges" []]
              ++ children_tokens plat frame na ns 0 regs []
              ++ FDT_END_NODE :: tail)%list.
Proof.
  intros Hpmp Hrun Hnf na ns regs.
  destruct (run_granted plat frame w w' Hpmp Hrun) as [Hm Hgr].
  unfold fdt_reserved_memory_fixup in Hrun. rewrite Hpmp in Hrun.
  cbn [negb] in Hrun. fold na ns in Hrun.
  rewrite (open_into_done w _ Hm Hgr) in Hrun.
  cbn [Z.ltb Z.compare] in Hrun.
  set (w0 := mk_world _ _) in Hrun.
  assert (Hprobe0 : probe (blob w0) = true)
    by (unfold probe; cbn; rewrite Hm; reflexivity).
  destruct (reserved_memory_node na ns w0) as [par w1] eqn:E1.
  destruct (Z.ltb_spec par 0) as [|Hp]; [injection Hrun as Hrc _; lia|].
  destruct (container_found _ _ _ _ _ E1 Hp Hprobe0) as [Hpath1 _].
  destruct (reserved_memory_node_failure _ _ _ _ _ E1) as (Hh1 & _).
  pose proof (pmp_loop_header _ _ _ _ _ _ _ _ _ _ Hrun) as Hh2.
  destruct (same_header_trans _ _ _ Hh1 Hh2) as (Hm' & _).
  cbn [blob w0 fdt_magic set_totalsize] in Hm'. rewrite Hm in Hm'.
  assert (Hprobe' : probe (blob w') = true)
    by (unfold probe; rewrite Hm'; reflexivity).
  assert (Hnode1 : node_at (blob w1) par <> None).
  { rewrite <- Hpath1. apply subnode_offset_node. lia. }
  destruct (reserved_memory_node_tokens _ _ _ _ _ E1 Hp)
    as [(Hpar & _) | (_ & Hpar & Ht1)].
  { change (fdt_path_offset (blob w0) "/reserved-memory")
      with (fdt_path_offset (blob w) "/reserved-memory") in Hpar. lia. }
  change (dt_struct (blob w0)) with (dt_struct (blob w)) in Hpar, Ht1.
  set (cp0 := children_position (dt_struct (blob w)) 0) in *.
  assert (Hcp0 : (cp0 <= List.length (dt_struct (blob w)))%nat).
  { unfold cp0, children_position.
    pose proof (count_props_le (skipn (S (Z.to_nat 0))
                                  (dt_struct (blob w)))) as Hle.
    rewrite length_skipn in Hle.
    assert (Hr : node_at (blob w) 0 <> None).
    { apply (reserved_memory_node_root _ _ _ _ _ E1 Hp). exact Hnf. }
    apply node_at_length in Hr as [_ Hr]. lia. }
  set (pre := firstn cp0 (dt_struct (blob w))).
  set (tail := skipn cp0 (dt_struct (blob w))).
  assert (Hpre : List.length pre = cp0)
    by (unfold pre; rewrite length_firstn; lia).
  assert (E1' : dt_struct (blob w1)
                = ((pre ++ [FDT_BEGIN_NODE "reserved-memory"])
                   ++ [FDT_PROP "#address-cells" (be32 (u32 na));
                       FDT_PROP "#size-cells" (be32 (u32 ns));
                       FDT_PROP "ranges" []]
                   ++ [] ++ FDT_END_NODE :: tail)%list).
  { rewrite Ht1. unfold insert_at, container_tokens. fold pre tail.
    now rewrite <- app_assoc. }
  assert (Hfirst : firstn (S (Z.to_nat par)) (dt_struct (blob w1))
                   = (pre ++ [FDT_BEGIN_NODE "reserved-memory"])%list).
  { rewrite E1'. apply firstn_exact. rewrite length_app, Hpre, Hpar, Nat2Z.id.
    cbn [List.length]. lia. }
  destruct (pmp_loop_tokens plat frame na ns par (seq 0 PMP_COUNT) 0 w1 w'
              [FDT_PROP "#address-cells" (be32 (u32 na));
               FDT_PROP "#size-cells" (be32 (u32 ns));
               FDT_PROP "ranges" []]
              [] (FDT_END_NODE :: tail) Hrun) as [Hkeep Hfinal].
  { rewrite Hfirst. exact E1'. }
  { reflexivity. }
  { reflexivity. }
  rewrite Hfirst in Hkeep, Hfinal. fold regs in Hfinal.
  exists pre, tail. split; [exact Hm'|]. split.
  - rewrite path_reserved_memory, Hprobe'. cbn [negb].
    assert (Hpar' : par = Z.of_nat (Z.to_nat par)) by lia.
    rewrite Hpar' in Hpath1.
    assert (Hk : firstn (S (Z.to_nat par)) (dt_struct (blob w'))
                 = firstn (S (Z.to_nat par)) (dt_struct (blob w1)))
      by (rewrite Hkeep, Hfirst; reflexivity).
    destruct (subnode_lookup_prefix (blob w1) (blob w') 0 "reserved-memory"
                (Z.to_nat par) ltac:(lia) Hpath1 Hk) as [-> _].
    rewrite Hpre. lia.
  - rewrite Hfinal, <- !app_assoc. reflexivity.
Qed.

(** The node whose begin tag follows the tags [pre]. *)
Lemma node_after (b : fdt) (pre rest : list token) (n : string) :
  dt_struct b = (pre ++ FDT_BEGIN_NODE n :: rest)%list ->
  let off := Z.of_nat (List.length pre) in
  node_at b off = Some n
  /\ (forall name,
        node_prop b off name
        = option_map snd (find_prop name rest 0))
  /\ (forall name z,
        option_map snd (find_prop name rest 0) = Some (be32 (u32 z)) ->
        0 <= z <= 4 -> fdt_cells b off name = z).
Proof.
  intros E off.
  assert (Hn : nth_error (dt_struct b) (List.length pre)
               = Some (FDT_BEGIN_NODE n))
    by (rewrite E, nth_error_app2, Nat.sub_diag by lia; reflexivity).
  assert (Hnode : node_at b off = Some n).
  { unfold node_at, off. destruct (Z.ltb_spec (Z.of_nat (List.length pre)) 0);
      [lia|]. now rewrite Nat2Z.id, Hn. }
  assert (Hskip : skipn (S (Z.to_nat off)) (dt_struct b) = rest).
  { unfold off. rewrite Nat2Z.id, E.
    change (pre ++ FDT_BEGIN_NODE n :: rest)%list
      with (pre ++ [FDT_BEGIN_NODE n] ++ rest)%list.
    rewrite app_assoc. apply skipn_exact'.
    rewrite length_app. cbn [List.length]. lia. }
  assert (Hprop : forall name,
             node_prop b off name = option_map snd (find_prop name rest 0)).
  { intros name. unfold node_prop. rewrite Hnode, Hskip.
    apply find_prop_value. }
  split; [exact Hnode|]. split; [exact Hprop|].
  intros name z Hf Hz. rewrite <- Hprop in Hf.
  destruct (node_prop_getprop _ _ _ _ Hf) as (ptr & Hg & Hp).
  unfold fdt_cells. rewrite Hg.
  destruct (prop_mem_value _ _ _ _ Hp) as (more & ->).
  unfold blen. rewrite length_be32. cbn [Z.of_nat Pos.of_succ_nat Pos.succ
    Z.eqb Pos.eqb negb].
  fold (cell_at (be32 (u32 z) ++ more) 0). rewrite cell_at_be32.
  rewrite !u32_small by (rewrite ?u32_small; lia).
  unfold FDT_MAX_NCELLS. destruct (Z.gtb_spec z 4); [lia | reflexivity].
Qed.

(** X16: after a run of the reserved-memory fixup that returned 0 on a blob
    without the container, [/reserved-memory] is found, and libfdt reads the
    cell counts of the root as its address and size cells; its [ranges] is
    empty. *)
Theorem container_declares_root_cells (plat : sbi_platform)
  (frame : list byte) (w w' : world) :
  sbi_platform_has_pmp plat = true ->
  fdt_reserved_memory_fixup plat frame w = (0, w') ->
  fdt_path_offset (blob w) "/reserved-memory" < 0 ->
  let na := fdt_address_cells (blob w) 0 in
  let ns := fdt_size_cells (blob w) 0 in
  let parent := fdt_path_offset (blob w') "/reserved-memory" in
  1 <= na <= 4 -> 0 <= ns <= 4 ->
  0 <= parent
  /\ fdt_address_cells (blob w') parent = na
  /\ fdt_size_cells (blob w') parent = ns
  /\ node_prop (blob w') parent "ranges" = Some [].
Proof.
  intros Hpmp Hrun Hnf na ns parent Hna Hns.
  destruct (created_run plat frame w w' Hpmp Hrun Hnf)
    as (pre & tail & _ & Hpath & Hts).
  fold na ns in Hts. fold parent in Hpath.
  destruct (node_after _ _ _ _ Hts) as (_ & Hprop & Hcells).
  rewrite <- Hpath in Hprop, Hcells.
  split; [lia|]. split; [|split].
  - unfold fdt_address_cells.
    rewrite (Hcells "#address-cells" na eq_refl) by lia.
    unfold FDT_ERR_NOTFOUND.
    destruct (Z.eqb_spec na 0); [lia|].
    destruct (Z.eqb_spec na (- (1))); [lia | reflexivity].
  - unfold fdt_size_cells.
    rewrite (Hcells "#size-cells" ns eq_refl) by lia.
    unfold FDT_ERR_NOTFOUND.
    destruct (Z.eqb_spec ns (- (1))); [lia | reflexivity].
  - now rewrite Hprop.
Qed.

End SecondRun.

(* ================================================================= *)
(** ** The resolver on the children that the fixup created *)

Section ChildRoundTrip.

Lemma parent_scan_app (l2 : list token) (target : nat) :
  forall l1 idx stack,
  (idx + List.length l1 <= target)%nat ->
  parent_scan (l1 ++ l2) idx target stack
  = parent_scan l2 (idx + List.length l1) target (open_nodes l1 idx stack).
Proof.
  induction l1 as [|t l1 IH]; intros idx stack H.
  - cbn. now rewrite Nat.add_0_r.
  - cbn [List.length] in *. cbn [app parent_scan open_nodes].
    destruct (Nat.eqb_spec idx target); [lia|].
    rewrite Nat.add_succ_r.
    destruct t; apply IH; lia.
Qed.

Lemma open_nodes_app (l2 : list token) :
  forall l1 idx stack,
  open_nodes (l1 ++ l2) idx stack
  = open_nodes l2 (idx + List.length l1) (open_nodes l1 idx stack).
Proof.
  induction l1 as [|t l1 IH]; intros idx stack.
  - cbn. now rewrite Nat.add_0_r.
  - cbn [List.length app open_nodes]. rewrite Nat.add_succ_r.
    destruct t; apply IH.
Qed.

Lemma children_tokens_acc (plat : sbi_platform) (frame : list byte)
  (na ns : Z) (regs : list nat) :
  forall j acc,
  children_tokens plat frame na ns j regs acc
  = (children_tokens plat frame na ns j regs [] ++ acc)%list.
Proof.
  induction regs as [|i regs IH]; intros j acc; [reflexivity|].
  cbn [children_tokens]. rewrite IH.
  rewrite (IH _ (child_tokens plat frame na ns j i ++ [])%list).
  now rewrite app_nil_r, <- app_assoc.
Qed.

(** The children that the loop created are whole nodes. *)
Lemma children_tokens_closed (plat : sbi_platform) (frame : list byte)
  (na ns : Z) (regs : list nat) :
  forall j,
  List.length (children_tokens plat frame na ns j regs [])
  = (4 * List.length regs)%nat
  /\ forall idx stack,
       open_nodes (children_tokens plat frame na ns j regs []) idx stack
       = stack.
Proof.
  induction regs as [|i regs IH]; intros j; [now split|].
  cbn [children_tokens]. rewrite children_tokens_acc, app_nil_r.
  destruct (IH (j + 1)) as [Hlen Hopen]. split.
  - rewrite length_app, Hlen. cbn [List.length child_tokens]. lia.
  - intros idx stack. rewrite open_nodes_app, Hopen. reflexivity.
Qed.

(** Where the child of the [k]-th eligible region is, among the children
    that the loop created (the last one created comes first). *)
Lemma child_in_children (plat : sbi_platform) (frame : list byte)
  (na ns : Z) (regs : list nat) :
  forall j k i,
  nth_error regs k = Some i ->
  exists before after,
    children_tokens plat frame na ns j regs []
    = (before ++ child_tokens plat frame na ns (j + Z.of_nat k) i
         ++ after)%list
    /\ forall idx stack, open_nodes before idx stack = stack.
Proof.
  induction regs as [|i0 regs IH]; intros j k i H; [now destruct k|].
  cbn [children_tokens]. rewrite children_tokens_acc, app_nil_r.
  destruct k as [|k]; cbn [nth_error] in H.
  - injection H as ->.
    exists (children_tokens plat frame na ns (j + 1) regs []), [].
    rewrite app_nil_r, Z.add_0_r. split; [reflexivity|].
    apply children_tokens_closed.
  - destruct (IH (j + 1) k i H) as (before & after & E & Ho).
    exists before, (after ++ child_tokens plat frame na ns j i0)%list.
    rewrite E, <- !app_assoc.
    replace (j + Z.of_nat (S k)) with (j + 1 + Z.of_nat k) by lia.
    now split.
Qed.

(** X17: the fixup and the resolver agree.  After a run of the
    reserved-memory fixup that returned 0 on a blob without the container,
    the child of the [k]-th eligible region is in the blob under the name
    the loop gave it, [/reserved-memory] is its parent, it carries an empty
    [no-map], and the resolver run on it returns the address and the size of
    the region. *)
Theorem reserved_child_resolves (x : xlen) (plat : sbi_platform)
  (frame : list byte) (w w' : world) (k i : nat) :
  sbi_platform_has_pmp plat = true ->
  fdt_reserved_memory_fixup plat frame w = (0, w') ->
  fdt_path_offset (blob w) "/reserved-memory" < 0 ->
  let na := fdt_address_cells (blob w) 0 in
  let ns := fdt_size_cells (blob w) 0 in
  let addr := region_addr plat i in
  let size := region_size plat i in
  (na = 1 \/ na = 2) -> (ns = 1 \/ ns = 2) ->
  nth_error (eligible_regions plat (seq 0 PMP_COUNT)) k = Some i ->
  0 <= addr < 2 ^ (32 * na) -> addr < 2 ^ BITS_PER_LONG x ->
  0 <= size < 2 ^ (32 * ns) -> size < 2 ^ BITS_PER_LONG x ->
  exists off,
    node_at (blob w') off = Some (child_name na (Z.of_nat k) addr)
    /\ fdt_parent_offset (blob w') off
       = fdt_path_offset (blob w') "/reserved-memory"
    /\ node_prop (blob w') off "no-map" = Some []
    /\ fdt_get_node_addr_size x w' off true true
       = ((0, Some addr, Some size), w').
Proof.
  intros Hpmp Hrun Hnf na ns addr size Hna Hns Hk Haddr Hax Hsize Hsx.
  destruct (created_run plat frame w w' Hpmp Hrun Hnf)
    as (pre & tail & Hm & Hpath & Hts).
  fold na ns in Hts.
  destruct (child_in_children plat frame na ns _ 0 k i Hk)
    as (before & after & Ekids & Hopen).
  rewrite Z.add_0_l in Ekids. rewrite Ekids in Hts.
  set (props := [FDT_PROP "#address-cells" (be32 (u32 na));
                 FDT_PROP "#size-cells" (be32 (u32 ns));
                 FDT_PROP "ranges" []]) in *.
  set (lead := (pre ++ FDT_BEGIN_NODE "reserved-memory" :: props
                    ++ before)%list).
  set (name := child_name na (Z.of_nat k) addr).
  set (reg := reg_value na ns addr size frame).
  set (rest := (FDT_PROP "reg" reg :: FDT_PROP "no-map" [] :: FDT_END_NODE
                  :: after ++ FDT_END_NODE :: tail)%list).
  assert (Hchild : dt_struct (blob w')
                   = (lead ++ FDT_BEGIN_NODE name :: rest)%list).
  { rewrite Hts. unfold lead, rest, child_tokens, name, reg, addr, size.
    cbn [app]. rewrite <- !app_assoc. cbn [app]. rewrite <- !app_assoc.
    reflexivity. }
  destruct (node_after _ _ _ _ Hchild) as (Hnode & Hprop & _).
  destruct (node_after _ _ _ _ Hts) as (_ & _ & Hcells).
  rewrite <- Hpath in Hcells.
  set (parent := fdt_path_offset (blob w') "/reserved-memory") in *.
  set (off := Z.of_nat (List.length lead)) in *.
  assert (Hparent : fdt_parent_offset (blob w') off = parent).
  { unfold fdt_parent_offset, probe. rewrite Hm, Z.eqb_refl. cbn [negb].
    destruct (Z.ltb_spec off 0); [unfold off in *; lia|].
    unfold off. rewrite Nat2Z.id, Hchild.
    rewrite parent_scan_app by lia. cbn [Nat.add parent_scan].
    rewrite Nat.eqb_refl. unfold lead.
    rewrite open_nodes_app. cbn [Nat.add open_nodes].
    rewrite open_nodes_app. cbn [props open_nodes List.length].
    rewrite Hopen. now rewrite Hpath. }
  exists off. split; [exact Hnode|]. split; [exact Hparent|].
  split; [now rewrite Hprop|].
  apply (resolver_reads_layout x w' off na ns addr size); rewrite ?Hparent;
    try assumption.
  - rewrite Hpath. lia.
  - unfold fdt_address_cells.
    rewrite (Hcells "#address-cells" na eq_refl) by lia.
    unfold FDT_ERR_NOTFOUND.
    destruct (Z.eqb_spec na 0); [lia|].
    destruct (Z.eqb_spec na (- (1))); [lia | reflexivity].
  - unfold fdt_size_cells.
    rewrite (Hcells "#size-cells" ns eq_refl) by lia.
    unfold FDT_ERR_NOTFOUND.
    destruct (Z.eqb_spec ns (- (1))); [lia | reflexivity].
  - rewrite Hprop. unfold rest, reg.
    cbn [find_prop String.eqb Ascii.eqb Bool.eqb option_map snd].
    now rewrite reg_value_layout.
Qed.

End ChildRoundTrip.

(* ================================================================= *)
(** ** The room that the CPU fixup has *)

Section CpuFixupRoom.

Lemma size_dt_struct_app (l1 l2 : list token) :
  fold_right (fun t acc => token_size t + acc) 4 (l1 ++ l2)
  = fold_right (fun t acc => token_size t + acc) 0 l1
    + fold_right (fun t acc => token_size t + acc) 4 l2.
Proof. induction l1 as [|t l1 IH]; cbn [app fold_right]; lia. Qed.

Lemma size_dt_struct_insert (ts : list token) (p : nat) (x : token) :
  fold_right (fun t acc => token_size t + acc) 4
    (firstn p ts ++ x :: skipn p ts)
  = fold_right (fun t acc => token_size t + acc) 4 ts + token_size x.
Proof.
  rewrite <- (firstn_skipn p ts) at 3. rewrite !size_dt_struct_app.
  cbn [fold_right]. lia.
Qed.

Lemma strlen_append (s t : string) : strlen (s ++ t) = strlen s + strlen t.
Proof. unfold strlen. rewrite length_append. lia. Qed.

(** A new property takes at least its tag and its padded value from the
    free space of the blob, and fits the capacity. *)
Lemma setprop_new_size (b b' : fdt) (off : Z) (name : string)
  (val : list byte) :
  fdt_setprop b off name val = (0, b') ->
  find_prop name (skipn (S (Z.to_nat off)) (dt_struct b)) (S (Z.to_nat off))
  = None ->
  fdt_data_size_ b + 12 + FDT_TAGALIGN (blen val) <= fdt_data_size_ b'
  /\ fdt_data_size_ b' <= fdt_totalsize b.
Proof.
  unfold fdt_setprop. intros H Hf.
  destruct (negb (probe b)); [discriminate|].
  destruct (node_at b off); [|discriminate].
  rewrite Hf in H.
  destruct (fdt_find_string_ (dt_strings b) name 0) as [o|];
    match type of H with
    | (if ?c then _ else _) = _ => destruct c eqn:Hroom
    end; try discriminate; apply Z.ltb_ge in Hroom; injection H as <-;
    unfold fdt_data_size_, fdt_size_dt_struct, insert_at in *;
    cbn [dt_struct dt_strings fdt_rsvmap_size set_struct set_strings app];
    rewrite size_dt_struct_insert; cbn [token_size];
    rewrite ?strlen_append; unfold strlen in *; cbn [NUL String.length] in *;
    lia.
Qed.

Lemma status_count_insert (ts : list token) (p : nat) (v : list byte) :
  status_count (firstn p ts ++ FDT_PROP "status" v :: skipn p ts)
  = S (status_count ts).
Proof.
  unfold status_count. rewrite <- (firstn_skipn p ts) at 3.
  rewrite !filter_app, !length_app. cbn [filter is_status String.eqb
    Ascii.eqb Bool.eqb List.length]. lia.
Qed.

Lemma all_disabled_insert (ts : list token) (p : nat) :
  all_disabled ts ->
  all_disabled (firstn p ts ++ FDT_PROP "status" disabled :: skipn p ts).
Proof.
  intros H k v Hk.
  destruct (Nat.le_gt_cases p (List.length ts)) as [Hp | Hp].
  - destruct (Nat.lt_trichotomy k p) as [Hlt | [-> | Hgt]].
    + apply (H k). rewrite <- Hk.
      rewrite <- (nth_error_insert ts p (FDT_PROP "status" disabled) k Hp).
      destruct (Nat.ltb_spec k p); [reflexivity | lia].
    + assert (Hl : List.length (firstn p ts) = p)
        by (rewrite length_firstn; lia).
      rewrite nth_error_app2, Hl, Nat.sub_diag in Hk by lia.
      cbn [nth_error] in Hk. congruence.
    + apply (H (k - 1)%nat). rewrite <- Hk.
      rewrite <- (nth_error_insert ts p (FDT_PROP "status" disabled)
                    (k - 1) Hp).
      destruct (Nat.ltb_spec (k - 1) p); [lia|]. f_equal. lia.
  - rewrite firstn_all2, skipn_all2 in Hk by lia.
    destruct (Nat.lt_ge_cases k (List.length ts)) as [Hlt | Hge].
    + apply (H k). now rewrite nth_error_app1 in Hk by lia.
    + rewrite nth_error_app2 in Hk by lia.
      destruct (k - List.length ts)%nat as [|[|m]]; cbn [nth_error] in Hk;
        congruence.
Qed.

Lemma setprop_room (n0 : Z) (b : fdt) (off : Z) :
  room_kept n0 b ->
  room_kept n0 (snd (fdt_setprop b off "status" disabled)).
Proof.
  intros (Hall & Hused & Hfit).
  destruct (fdt_setprop b off "status" disabled) as [rc b'] eqn:E. cbn [snd].
  destruct (fdt_setprop_success b off "status" disabled) as [Hf | Hok];
    rewrite E in *; cbn [fst] in *.
  - pose proof (fdt_setprop_failure b off "status" disabled) as Hb.
    rewrite E in Hb. cbn in Hb. rewrite (Hb Hf). now repeat split.
  - subst rc. pose proof (setprop_header b off "status" disabled) as Hh.
    rewrite E in Hh. cbn [snd] in Hh. destruct Hh as (_ & Htot & _).
    destruct (fdt_setprop_result _ _ _ _ _ E)
      as (_ & _ & _ & [(idx & old & Hfind & ->) | (Hnone & Hts)]).
    + apply find_prop_nth in Hfind.
      rewrite (Hall _ _ Hfind) in Hfind.
      rewrite (replaced_prop _ _ _ _ Hfind). now repeat split.
    + destruct (setprop_new_size _ _ _ _ _ E Hnone) as [Hgrow Hroom].
      change (FDT_TAGALIGN (blen disabled)) with 12 in Hgrow.
      split; [|split].
      * rewrite Hts. now apply all_disabled_insert.
      * rewrite Hts, status_count_insert. lia.
      * lia.
Qed.

Lemma cpu_fixup_loop_room (plat : sbi_platform) (n0 : Z) (harts : list Z) :
  forall w,
  room_kept n0 (blob w) ->
  room_kept n0 (blob (fold_left (cpu_fixup_hart plat) harts w)).
Proof.
  induction harts as [|i harts IH]; intros w H; [exact H|].
  cbn [fold_left]. apply IH.
  destruct (sbi_platform_hart_invalid plat i) eqn:Hinv.
  - rewrite (cpu_fixup_hart_invalid plat w i Hinv). cbn [blob].
    now apply setprop_room.
  - unfold cpu_fixup_hart. now rewrite Hinv.
Qed.

Lemma no_status_all_disabled (ts : list token) :
  status_count ts = 0%nat -> all_disabled ts.
Proof.
  unfold status_count. intros H k v Hk. exfalso.
  apply nth_error_In in Hk.
  assert (Hin : In (FDT_PROP "status" v) (filter is_status ts))
    by (apply filter_In; split; [exact Hk | reflexivity]).
  destruct (filter is_status ts); [contradiction | discriminate].
Qed.

(** X18: the 32 bytes that the CPU fixup adds bound what it can write.  On a
    blob without [status] properties (its capacity, a [uint32_t], not being
    negative), each [status = "disabled"] that the fixup leaves takes 24
    bytes of the structure block, so their number is at most the room the
    blob had left plus 32, divided by 24: one on a blob that was full. *)
Theorem cpu_fixup_room (plat : sbi_platform) (w : world) :
  fdt_magic (blob w) = FDT_MAGIC ->
  0 <= fdt_totalsize (blob w) ->
  fdt_data_size_ (blob w) <= fdt_totalsize (blob w) ->
  status_count (dt_struct (blob w)) = 0%nat ->
  let w' := fdt_cpu_fixup plat w in
  24 * Z.of_nat (status_count (dt_struct (blob w')))
  <= fdt_totalsize (blob w) - fdt_data_size_ (blob w) + 32.
Proof.
  intros Hm Hpos Hfit Hnone w'. subst w'. rewrite fdt_cpu_fixup_unfold.
  apply Z.eqb_eq in Hm. rewrite Hm. cbn [andb].
  destruct (Z.ltb_spec (open_size (blob w) 32) (fdt_totalsize (blob w)))
    as [Hs | Hs]; cbn [negb].
  { cbn [blob]. rewrite Hnone. lia. }
  rewrite (open_size_granted (blob w) 32) by (assumption || lia).
  set (w0 := mk_world _ _).
  assert (H0 : room_kept (fdt_data_size_ (blob w)) (blob w0)).
  { split; [now apply no_status_all_disabled|].
    cbn [blob w0 dt_struct set_totalsize]. rewrite Hnone.
    split; [change (fdt_data_size_ (set_totalsize (blob w) _))
              with (fdt_data_size_ (blob w)); lia|].
    change (fdt_data_size_ (set_totalsize (blob w) _))
      with (fdt_data_size_ (blob w)).
    cbn [fdt_totalsize set_totalsize]. lia. }
  unfold cpu_fixup_upto.
  pose proof (cpu_fixup_loop_room plat _
                (upto (sbi_platform_hart_count plat)) w0 H0)
    as (_ & Hused & Hroom).
  destruct (cpu_fixup_loop_header plat
              (upto (sbi_platform_hart_count plat)) w0) as (_ & Htot & _).
  rewrite Htot in Hroom. cbn [blob w0 fdt_totalsize set_totalsize] in Hroom.
  lia.
Qed.

End CpuFixupRoom.

(* ================================================================= *)
(** ** The further theorems at work on the example boards *)

Section MoreWitnesses.

Ltac computed := vm_compute; repeat split; congruence.

Lemma pmp_child_names_witness :
  (sbi_platform_has_pmp Examples.platform = true
   /\ fdt_reserved_memory_fixup Examples.platform Examples.frame
        Examples.w22
      = (0, Examples.w22_reserved)
   /\ (fdt_address_cells (blob Examples.w22) 0 = 1
       \/ fdt_address_cells (blob Examples.w22) 0 = 2)
   /\ (forall i,
         In i (eligible_regions Examples.platform (seq 0 PMP_COUNT)) ->
         0 <= region_addr Examples.platform i
         < 2 ^ (32 * fdt_address_cells (blob Examples.w22) 0)))
  /\ exists container names,
       created_names
         (skipn (List.length (calls Examples.w22))
            (calls Examples.w22_reserved))
       = (container ++ names)%list
       /\ (container = [] \/ container = ["reserved-memory"])
       /\ List.length names
          = List.length
              (eligible_regions Examples.platform (seq 0 PMP_COUNT))
       /\ forall k i,
            nth_error
              (eligible_regions Examples.platform (seq 0 PMP_COUNT)) k
            = Some i ->
            nth_error names k
            = Some (spec_child_name
                      (fdt_address_cells (blob Examples.w22) 0)
                      (Z.of_nat k) (region_addr Examples.platform i)).
Proof.
  match goal with
  | |- ?H /\ _ =>
      assert (Hyp : H)
        by (do 2 (split; [computed|]); split; [right; computed|];
            intros i Hi; vm_compute in Hi;
            destruct Hi as [<- | [<- | []]]; computed)
  end.
  split; [exact Hyp|]. destruct Hyp as (H1 & H2 & H3 & H4).
  exact (pmp_child_names Examples.platform Examples.frame Examples.w22
           Examples.w22_reserved H1 H2 H3 H4).
Defined.

Lemma cpu_fixup_disables_witness :
  (fdt_magic (blob Examples.w22) = FDT_MAGIC
   /\ fdt_totalsize (blob Examples.w22) <= open_size (blob Examples.w22) 32
   /\ 0 <= 1 < sbi_platform_hart_count Examples.platform
   /\ sbi_platform_hart_invalid Examples.platform 1 = true
   /\ fst (fdt_setprop
             (blob (cpu_fixup_upto Examples.platform
                      (mk_world
                         (set_totalsize (blob Examples.w22)
                            (open_size (blob Examples.w22) 32))
                         (calls Examples.w22
                          ++ [Call_open_into
                                (open_size (blob Examples.w22) 32)]))
                      1))
             (fdt_path_offset
                (blob (cpu_fixup_upto Examples.platform
                         (mk_world
                            (set_totalsize (blob Examples.w22)
                               (open_size (blob Examples.w22) 32))
                            (calls Examples.w22
                             ++ [Call_open_into
                                   (open_size (blob Examples.w22) 32)]))
                         1))
                (cpu_node_path 1))
             "status" disabled) = 0)
  /\ exists ptr,
       fdt_getprop (blob (fdt_cpu_fixup Examples.platform Examples.w22))
         (fdt_path_offset
            (blob (fdt_cpu_fixup Examples.platform Examples.w22))
            (cpu_node_path 1)) "status"
       = (Some ptr, blen disabled)
       /\ nth_error
            (dt_struct (blob (fdt_cpu_fixup Examples.platform Examples.w22)))
            ptr
          = Some (FDT_PROP "status" disabled).
Proof.
  match goal with |- ?H /\ _ => assert (Hyp : H) by computed end.
  split; [exact Hyp|]. destruct Hyp as (H1 & H2 & H3 & H4 & H5).
  exact (cpu_fixup_disables Examples.platform Examples.w22 1
           H1 H2 H3 H4 H5).
Defined.

Lemma cpu_fixup_room_witness :
  (fdt_magic (blob Examples.w22) = FDT_MAGIC
   /\ 0 <= fdt_totalsize (blob Examples.w22)
   /\ fdt_data_size_ (blob Examples.w22) <= fdt_totalsize (blob Examples.w22)
   /\ status_count (dt_struct (blob Examples.w22)) = 0%nat)
  /\ 24 * Z.of_nat
            (status_count
               (dt_struct (blob (fdt_cpu_fixup Examples.platform
                                   Examples.w22))))
     <= fdt_totalsize (blob Examples.w22)
        - fdt_data_size_ (blob Examples.w22) + 32.
Proof.
  match goal with |- ?H /\ _ => assert (Hyp : H) by computed end.
  split; [exact Hyp|]. destruct Hyp as (H1 & H2 & H3 & H4).
  exact (cpu_fixup_room Examples.platform Examples.w22 H1 H2 H3 H4).
Defined.

Lemma resolver_keeps_low_cells_witness :
  (0 <= fdt_parent_offset (blob Examples.w22_reserved) 7
   /\ 1 <= fdt_address_cells (blob Examples.w22_reserved)
             (fdt_parent_offset (blob Examples.w22_reserved) 7)
   /\ 0 <= fdt_size_cells (blob Examples.w22_reserved)
             (fdt_parent_offset (blob Examples.w22_reserved) 7)
   /\ fdt_getprop (blob Examples.w22_reserved) 7 "reg" = (Some 8%nat, 16))
  /\ fdt_get_node_addr_size RV32 Examples.w22_reserved 7 true true
     = ((0, Some 0x80000000, Some 0x1000), Examples.w22_reserved).
Proof.
  match goal with |- ?H /\ _ => assert (Hyp : H) by computed end.
  split; [exact Hyp|]. destruct Hyp as (H1 & H2 & H3 & H4).
  rewrite (resolver_keeps_low_cells RV32 Examples.w22_reserved 7 8 16
             H1 H2 H3 H4).
  vm_compute. reflexivity.
Defined.

Lemma parsers_reject_sizeless_bus_witness :
  (0 <= fdt_node_offset_by_compatible (blob Examples.w_sizeless_bus) (-1)
          "ns16550a"
   /\ fdt_size_cells (blob Examples.w_sizeless_bus)
        (fdt_parent_offset (blob Examples.w_sizeless_bus)
           (fdt_node_offset_by_compatible (blob Examples.w_sizeless_bus)
              (-1) "ns16550a")) = 0)
  /\ fdt_parse_uart8250 RV64 Examples.w_sizeless_bus (mk_uart 1 2 3)
       "ns16550a"
     = ((SBI_ENODEV, mk_uart 1 2 3), Examples.w_sizeless_bus).
Proof.
  match goal with |- ?H /\ _ => assert (Hyp : H) by computed end.
  split; [exact Hyp|]. destruct Hyp as (H1 & H2).
  exact (proj1 (parsers_reject_sizeless_bus RV64 Examples.w_sizeless_bus
                  (mk_uart 1 2 3) (mk_plic 1 2) "ns16550a" H1 H2)).
Defined.

Lemma parsers_reject_root_witness :
  fdt_node_offset_by_compatible (blob Examples.w_root_uart) (-1) "ns16550a"
  = 0
  /\ fdt_parse_uart8250 RV64 Examples.w_root_uart (mk_uart 1 2 3) "ns16550a"
     = ((SBI_ENODEV, mk_uart 1 2 3), Examples.w_root_uart).
Proof.
  match goal with |- ?H /\ _ => assert (Hyp : H) by computed end.
  split; [exact Hyp|].
  exact (proj1 (parsers_reject_root RV64 Examples.w_root_uart
                  (mk_uart 1 2 3) (mk_plic 1 2) true "ns16550a" Hyp)).
Defined.

Lemma fdt_parse_uart8250_reads_witness :
  (0 <= fdt_node_offset_by_compatible (blob Examples.w22) (-1) "ns16550a"
   /\ 0 <= fdt_parent_offset (blob Examples.w22)
             (fdt_node_offset_by_compatible (blob Examples.w22) (-1)
                "ns16550a")
   /\ fdt_address_cells (blob Examples.w22)
        (fdt_parent_offset (blob Examples.w22)
           (fdt_node_offset_by_compatible (blob Examples.w22) (-1)
              "ns16550a")) = 2
   /\ fdt_size_cells (blob Examples.w22)
        (fdt_parent_offset (blob Examples.w22)
           (fdt_node_offset_by_compatible (blob Examples.w22) (-1)
              "ns16550a")) = 2
   /\ (2 = 1 \/ 2 = 2) /\ (2 = 1 \/ 2 = 2)
   /\ 0 < 0x10000000 < 2 ^ (32 * 2) /\ 0x10000000 < 2 ^ BITS_PER_LONG RV64
   /\ 0 < 0x100 < 2 ^ (32 * 2) /\ 0x100 < 2 ^ BITS_PER_LONG RV64
   /\ node_prop (blob Examples.w22)
        (fdt_node_offset_by_compatible (blob Examples.w22) (-1) "ns16550a")
        "reg"
      = Some (flat_map be32 (reg_layout 2 2 0x10000000 0x100)))
  /\ fdt_parse_uart8250 RV64 Examples.w22 (mk_uart 1 2 3) "ns16550a"
     = ((0, mk_uart 0x10000000 3686400 3), Examples.w22).
Proof.
  match goal with
  | |- ?H /\ _ =>
      assert (Hyp : H)
        by (do 4 (split; [computed|]); split; [now right|];
            split; [now right|]; computed)
  end.
  split; [exact Hyp|].
  destruct Hyp as (H1 & H2 & H3 & H4 & H5 & H6 & H7 & H8 & H9 & H10 & H11).
  rewrite (fdt_parse_uart8250_reads RV64 Examples.w22 (mk_uart 1 2 3)
             "ns16550a" 2 2 0x10000000 0x100
             H1 H2 H3 H4 H5 H6 H7 H8 H9 H10 H11).
  vm_compute. reflexivity.
Defined.

Lemma fdt_parse_plic_reads_witness :
  (0 <= fdt_node_offset_by_compatible (blob Examples.w22) (-1) "riscv,plic0"
   /\ 0 <= fdt_parent_offset (blob Examples.w22)
             (fdt_node_offset_by_compatible (blob Examples.w22) (-1)
                "riscv,plic0")
   /\ fdt_address_cells (blob Examples.w22)
        (fdt_parent_offset (blob Examples.w22)
           (fdt_node_offset_by_compatible (blob Examples.w22) (-1)
              "riscv,plic0")) = 2
   /\ fdt_size_cells (blob Examples.w22)
        (fdt_parent_offset (blob Examples.w22)
           (fdt_node_offset_by_compatible (blob Examples.w22) (-1)
              "riscv,plic0")) = 2
   /\ (2 = 1 \/ 2 = 2) /\ (2 = 1 \/ 2 = 2)
   /\ 0 < 0xc000000 < 2 ^ (32 * 2) /\ 0xc000000 < 2 ^ BITS_PER_LONG RV64
   /\ 0 < 0x4000000 < 2 ^ (32 * 2) /\ 0x4000000 < 2 ^ BITS_PER_LONG RV64
   /\ node_prop (blob Examples.w22)
        (fdt_node_offset_by_compatible (blob Examples.w22) (-1)
           "riscv,plic0") "reg"
      = Some (flat_map be32 (reg_layout 2 2 0xc000000 0x4000000)))
  /\ fdt_parse_plic RV64 Examples.w22 (mk_plic 1 2) "riscv,plic0"
     = ((0, mk_plic 0xc000000 53), Examples.w22).
Proof.
  match goal with
  | |- ?H /\ _ =>
      assert (Hyp : H)
        by (do 4 (split; [computed|]); split; [now right|];
            split; [now right|]; computed)
  end.
  split; [exact Hyp|].
  destruct Hyp as (H1 & H2 & H3 & H4 & H5 & H6 & H7 & H8 & H9 & H10 & H11).
  rewrite (fdt_parse_plic_reads RV64 Examples.w22 (mk_plic 1 2)
             "riscv,plic0" 2 2 0xc000000 0x4000000
             H1 H2 H3 H4 H5 H6 H7 H8 H9 H10 H11).
  vm_compute. reflexivity.
Defined.

Lemma fdt_parse_clint_reads_witness :
  (0 <= fdt_node_offset_by_compatible (blob Examples.w22) (-1) "riscv,clint0"
   /\ 0 <= fdt_parent_offset (blob Examples.w22)
             (fdt_node_offset_by_compatible (blob Examples.w22) (-1)
                "riscv,clint0")
   /\ fdt_address_cells (blob Examples.w22)
        (fdt_parent_offset (blob Examples.w22)
           (fdt_node_offset_by_compatible (blob Examples.w22) (-1)
              "riscv,clint0")) = 2
   /\ (2 = 1 \/ 2 = 2)
   /\ 0 <= fdt_size_cells (blob Examples.w22)
             (fdt_parent_offset (blob Examples.w22)
                (fdt_node_offset_by_compatible (blob Examples.w22) (-1)
                   "riscv,clint0"))
   /\ 0 <= 0x2000000 < 2 ^ (32 * 2) /\ 0x2000000 < 2 ^ BITS_PER_LONG RV64
   /\ node_prop (blob Examples.w22)
        (fdt_node_offset_by_compatible (blob Examples.w22) (-1)
           "riscv,clint0") "reg"
      = Some (flat_map be32 (addr_layout 2 0x2000000)
              ++ Examples.cells [0; 0x10000])%list)
  /\ fdt_parse_clint RV64 Examples.w22 true "riscv,clint0"
     = ((0, Some 0x2000000), Examples.w22)
  /\ fdt_parse_clint RV64 Examples.w22 false "riscv,clint0"
     = ((SBI_ENODEV, None), Examples.w22).
Proof.
  match goal with
  | |- ?H /\ _ =>
      assert (Hyp : H)
        by (do 3 (split; [computed|]); split; [now right|]; computed)
  end.
  split; [exact Hyp|].
  destruct Hyp as (H1 & H2 & H3 & H4 & H5 & H6 & H7 & H8).
  exact (fdt_parse_clint_reads RV64 Examples.w22 "riscv,clint0" 2 0x2000000
           (Examples.cells [0; 0x10000]) H1 H2 H3 H4 H5 H6 H7 H8).
Defined.

Lemma pmp_node_name_fits_witness :
  (0 <= 15 < Z.of_nat PMP_COUNT
   /\ 0 <= 0xffffffff < 2 ^ 32 /\ 0 <= 0xfffffffe < 2 ^ 32)
  /\ pmp_node_name 2 15 0xffffffff 0xfffffffe
     = "mmode_pmp15@ffffffff,fffffffe".
Proof.
  match goal with |- ?H /\ _ => assert (Hyp : H) by computed end.
  split; [exact Hyp|]. destruct Hyp as (H1 & H2 & H3).
  rewrite (proj1 (pmp_node_name_fits 2 15 0xffffffff 0xfffffffe H1 H2 H3)).
  vm_compute. reflexivity.
Defined.

Lemma reserved_memory_fixup_abort_witness :
  (sbi_platform_has_pmp Examples.guarded_platform = true
   /\ fdt_magic (blob Examples.w22) = FDT_MAGIC
   /\ fdt_totalsize (blob Examples.w22) <= open_size (blob Examples.w22) 256
   /\ fdt_reserved_memory_fixup Examples.guarded_platform Examples.frame
        Examples.w22
      = (- FDT_ERR_NOSPACE, Examples.w22_guarded)
   /\ - FDT_ERR_NOSPACE < 0)
  /\ ((fdt_path_offset (blob Examples.w22) "/reserved-memory" < 0
       /\ exists parent m,
            (1 <= m <= 4)%nat
            /\ calls Examples.w22_guarded
               = (calls Examples.w22
                  ++ Call_open_into (open_size (blob Examples.w22) 256)
                  :: firstn m
                       (container_calls
                          (fdt_address_cells (blob Examples.w22) 0)
                          (fdt_size_cells (blob Examples.w22) 0)
                          parent))%list)
      \/ exists parent container subs i s m,
           0 <= parent
           /\ (fdt_path_offset (blob Examples.w22) "/reserved-memory"
               = parent /\ container = []
               \/ fdt_path_offset (blob Examples.w22) "/reserved-memory" < 0
                  /\ container
                     = container_calls
                         (fdt_address_cells (blob Examples.w22) 0)
                         (fdt_size_cells (blob Examples.w22) 0) parent)
           /\ Forall (fun s => 0 <= s) subs
           /\ nth_error
                (eligible_regions Examples.guarded_platform
                   (seq 0 PMP_COUNT)) (List.length subs) = Some i
           /\ (1 <= m <= 3)%nat
           /\ calls Examples.w22_guarded
              = (calls Examples.w22
                 ++ Call_open_into (open_size (blob Examples.w22) 256)
                 :: container
                 ++ children_calls Examples.guarded_platform Examples.frame
                      (fdt_address_cells (blob Examples.w22) 0)
                      (fdt_size_cells (blob Examples.w22) 0) parent 0
                      (eligible_regions Examples.guarded_platform
                         (seq 0 PMP_COUNT)) subs
                 ++ firstn m
                      (child_calls Examples.guarded_platform Examples.frame
                         (fdt_address_cells (blob Examples.w22) 0)
                         (fdt_size_cells (blob Examples.w22) 0) parent
                         (Z.of_nat (List.length subs)) i s))%list).
Proof.
  match goal with |- ?H /\ _ => assert (Hyp : H) by computed end.
  split; [exact Hyp|]. destruct Hyp as (H1 & H2 & H3 & H4 & H5).
  exact (reserved_memory_fixup_abort Examples.guarded_platform Examples.frame
           Examples.w22 Examples.w22_guarded (- FDT_ERR_NOSPACE)
           H1 H2 H3 H4 H5).
Defined.

Lemma reserved_memory_fixup_twice_witness :
  (sbi_platform_has_pmp Examples.platform = true
   /\ fdt_reserved_memory_fixup Examples.platform Examples.frame
        Examples.w22
      = (0, Examples.w22_reserved)
   /\ eligible_regions Examples.platform (seq 0 PMP_COUNT)
      = [0%nat; 2%nat]
   /\ fdt_totalsize (blob Examples.w22_reserved)
      <= open_size (blob Examples.w22_reserved) 256)
  /\ fst (fdt_reserved_memory_fixup Examples.platform Examples.frame
            Examples.w22_reserved)
     = - FDT_ERR_EXISTS.
Proof.
  match goal with |- ?H /\ _ => assert (Hyp : H) by computed end.
  split; [exact Hyp|]. destruct Hyp as (H1 & H2 & H3 & H4).
  destruct (reserved_memory_fixup_twice Examples.platform Examples.frame
              Examples.w22 Examples.w22_reserved 0%nat [2%nat] H1 H2 H3)
    as (_ & Hgranted & _).
  rewrite (Hgranted H4). reflexivity.
Defined.

Lemma container_declares_root_cells_witness :
  (sbi_platform_has_pmp Examples.platform = true
   /\ fdt_reserved_memory_fixup Examples.platform Examples.frame
        Examples.w22
      = (0, Examples.w22_reserved)
   /\ fdt_path_offset (blob Examples.w22) "/reserved-memory" < 0
   /\ 1 <= fdt_address_cells (blob Examples.w22) 0 <= 4
   /\ 0 <= fdt_size_cells (blob Examples.w22) 0 <= 4)
  /\ fdt_address_cells (blob Examples.w22_reserved)
       (fdt_path_offset (blob Examples.w22_reserved) "/reserved-memory")
     = fdt_address_cells (blob Examples.w22) 0.
Proof.
  match goal with |- ?H /\ _ => assert (Hyp : H) by computed end.
  split; [exact Hyp|]. destruct Hyp as (H1 & H2 & H3 & H4 & H5).
  exact (proj1 (proj2 (container_declares_root_cells Examples.platform
                         Examples.frame Examples.w22 Examples.w22_reserved
                         H1 H2 H3 H4 H5))).
Defined.

Lemma reserved_child_resolves_witness :
  (sbi_platform_has_pmp Examples.platform = true
   /\ fdt_reserved_memory_fixup Examples.platform Examples.frame
        Examples.w22
      = (0, Examples.w22_reserved)
   /\ fdt_path_offset (blob Examples.w22) "/reserved-memory" < 0
   /\ (fdt_address_cells (blob Examples.w22) 0 = 1
       \/ fdt_address_cells (blob Examples.w22) 0 = 2)
   /\ (fdt_size_cells (blob Examples.w22) 0 = 1
       \/ fdt_size_cells (blob Examples.w22) 0 = 2)
   /\ nth_error (eligible_regions Examples.platform (seq 0 PMP_COUNT)) 1
      = Some 2%nat
   /\ 0 <= region_addr Examples.platform 2
      < 2 ^ (32 * fdt_address_cells (blob Examples.w22) 0)
   /\ region_addr Examples.platform 2 < 2 ^ BITS_PER_LONG RV64
   /\ 0 <= region_size Examples.platform 2
      < 2 ^ (32 * fdt_size_cells (blob Examples.w22) 0)
   /\ region_size Examples.platform 2 < 2 ^ BITS_PER_LONG RV64)
  /\ exists off,
       node_at (blob Examples.w22_reserved) off
       = Some (child_name (fdt_address_cells (blob Examples.w22) 0)
                 (Z.of_nat 1) (region_addr Examples.platform 2))
       /\ fdt_parent_offset (blob Examples.w22_reserved) off
          = fdt_path_offset (blob Examples.w22_reserved) "/reserved-memory"
       /\ node_prop (blob Examples.w22_reserved) off "no-map" = Some []
       /\ fdt_get_node_addr_size RV64 Examples.w22_reserved off true true
          = ((0, Some (region_addr Examples.platform 2),
                 Some (region_size Examples.platform 2)),
             Examples.w22_reserved).
Proof.
  match goal with
  | |- ?H /\ _ =>
      assert (Hyp : H)
        by (do 3 (split; [computed|]); split; [right; computed|];
            split; [right; computed|]; computed)
  end.
  split; [exact Hyp|].
  destruct Hyp as (H1 & H2 & H3 & H4 & H5 & H6 & H7 & H8 & H9 & H10).
  exact (reserved_child_resolves RV64 Examples.platform Examples.frame
           Examples.w22 Examples.w22_reserved 1 2
           H1 H2 H3 H4 H5 H6 H7 H8 H9 H10).
Defined.

(** Near the end of the 32-bit range the request wraps, or is negative as
    an [int], and is refused.  With a capacity of [2^32 - 16] the
    reserved-memory fixup asks for 240 bytes and the CPU fixup for 16; both
    are refused and the blob is as it was.  With a capacity of [2^31 - 400]
    a first run of the reserved-memory fixup is granted [2^31 - 144], and
    the request of a second run is negative. *)
Lemma growth_refused_when_wrapped :
  let big := mk_world (set_totalsize (blob Examples.w22) (2 ^ 32 - 16)) [] in
  let half :=
    mk_world (set_totalsize (blob Examples.w22) (2 ^ 31 - 400)) [] in
  let r := fdt_reserved_memory_fixup Examples.platform Examples.frame half in
  open_size (blob big) 256 = 240
  /\ fdt_reserved_memory_fixup Examples.platform Examples.frame big
     = (- FDT_ERR_NOSPACE, mk_world (blob big) [Call_open_into 240])
  /\ open_size (blob big) 32 = 16
  /\ fdt_cpu_fixup Examples.platform big
     = mk_world (blob big) [Call_open_into 16]
  /\ fst r = 0
  /\ fdt_totalsize (blob (snd r)) = 2 ^ 31 - 144
  /\ open_size (blob (snd r)) 256 = - 2 ^ 31 + 112
  /\ fst (fdt_reserved_memory_fixup Examples.platform Examples.frame (snd r))
     = - FDT_ERR_NOSPACE.
Proof. repeat split; vm_compute; reflexivity. Qed.

End MoreWitnesses.
